(** * BlackRoad Grant Tracker: a shallow embedding of [grant_tracker.py]

    The development follows the layout of the Python module:
    Python strings and the [json] codec used at the store boundary, the
    enums, the dataclasses, the three SQLite tables, the [GrantTracker]
    service written in a small state-and-exception monad, and then the
    properties of the service. *)

From Stdlib Require Import ZArith NArith Lia.
From Stdlib Require Import QArith.QArith_base QArith.Qreduction Floats.SpecFloat.
From Stdlib Require Import Strings.Ascii Strings.String.
From stdpp Require Import base decidable option list sorting gmap strings.

Local Open Scope N_scope.

(* ===================================================================== *)
(** ** Python [str]: a sequence of Unicode code points *)
(* ===================================================================== *)

Module PyStr.

(** A character is its code point, [0 .. 0x10FFFF] for a real Python
    character (surrogates [0xD800 .. 0xDFFF] included: Python allows
    them inside a [str]). *)
Definition char := N.
Definition str := list char.

Definition valid_char (c : char) : Prop := c < 0x110000.
Definition valid_str (s : str) : Prop := Forall valid_char s.

(** ASCII literals of the source, as code points. *)
Definition lit (s : string) : str :=
  (fun a => N_of_ascii a) <$> list_ascii_of_string s.

Definition is_high_surrogate (c : char) : bool :=
  (0xD800 <=? c) && (c <=? 0xDBFF).
Definition is_low_surrogate (c : char) : bool :=
  (0xDC00 <=? c) && (c <=? 0xDFFF).

(** Whether [s.encode('utf-8')] succeeds: a surrogate code point cannot
    be encoded (and raises [UnicodeEncodeError]). *)
Definition utf8_encodable (s : str) : bool :=
  forallb (λ c, (c <? 0xD800) || ((0xDFFF <? c) && (c <? 0x110000))) s.

(** Python truthiness of a string: [if s:] *)
Definition truthy (s : str) : bool :=
  match s with [] => false | _ => true end.

End PyStr.
Export PyStr.

(* ===================================================================== *)
(** ** [json.dumps] / [json.loads] on lists of strings *)
(* ===================================================================== *)

(** The store keeps every list as the text [json.dumps] gives and reads
    it with [json.loads].  Both follow the [json] package of CPython:
    [encode_basestring_ascii] and the list encoder of [json.encoder],
    [scanstring], [_decode_uXXXX] and [JSONArray] of [json.decoder]. *)

Module Json.

Definition QUOTE : char := 34.
Definition BACKSLASH : char := 92.
Definition SLASH : char := 47.
Definition LBRACKET : char := 91.
Definition RBRACKET : char := 93.
Definition COMMA : char := 44.
Definition SPACE : char := 32.
Definition TILDE : char := 126.
Definition LETTER_b : char := 98.
Definition LETTER_f : char := 102.
Definition LETTER_n : char := 110.
Definition LETTER_r : char := 114.
Definition LETTER_t : char := 116.
Definition LETTER_u : char := 117.

(** *** Encoder ([ensure_ascii=True], the default of [json.dumps]) *)

(** One digit of ["0123456789abcdef"]. *)
Definition hexdigit (d : N) : char :=
  if d <? 10 then 48 + d else 87 + d.

(** ['{0:04x}'.format(n)] *)
Definition hex4 (n : N) : str :=
  [ hexdigit (N.land (N.shiftr n 12) 0xf);
    hexdigit (N.land (N.shiftr n 8) 0xf);
    hexdigit (N.land (N.shiftr n 4) 0xf);
    hexdigit (N.land n 0xf) ].

Definition u_escape (n : N) : str := BACKSLASH :: LETTER_u :: hex4 n.

(** The replacement of one character matched by [ESCAPE_ASCII]
    (a backslash, a quote, or anything outside [' ' .. '~']). *)
Definition escape_char (c : char) : str :=
  if c =? QUOTE then [BACKSLASH; QUOTE]
  else if c =? BACKSLASH then [BACKSLASH; BACKSLASH]
  else if c =? 10 then [BACKSLASH; LETTER_n]
  else if c =? 13 then [BACKSLASH; LETTER_r]
  else if c =? 9 then [BACKSLASH; LETTER_t]
  else if c =? 8 then [BACKSLASH; LETTER_b]
  else if c =? 12 then [BACKSLASH; LETTER_f]
  else if (SPACE <=? c) && (c <=? TILDE) then [c]
  else if c <? 0x10000 then u_escape c
  else
    let n := c - 0x10000 in
    let s1 := N.lor 0xd800 (N.land (N.shiftr n 10) 0x3ff) in
    let s2 := N.lor 0xdc00 (N.land n 0x3ff) in
    u_escape s1 ++ u_escape s2.

Definition encode_chars (s : str) : str := s ≫= escape_char.

(** [encode_basestring_ascii] *)
Definition encode_string (s : str) : str :=
  QUOTE :: encode_chars s ++ [QUOTE].

(** The items of a list joined by the item separator [", "]. *)
Fixpoint encode_items (l : list str) : str :=
  match l with
  | [] => []
  | [s] => encode_string s
  | s :: l' => encode_string s ++ COMMA :: SPACE :: encode_items l'
  end.

(** [json.dumps(l)] for a list of strings. *)
Definition dumps (l : list str) : str :=
  LBRACKET :: encode_items l ++ [RBRACKET].

(** *** Decoder *)

Definition hexval (c : char) : option N :=
  if (48 <=? c) && (c <=? 57) then Some (c - 48)
  else if (97 <=? c) && (c <=? 102) then Some (c - 87)
  else if (65 <=? c) && (c <=? 70) then Some (c - 55)
  else None.

(** [_decode_uXXXX]: four hexadecimal digits. *)
Definition decode_hex4 (a b c d : char) : option N :=
  x3 ← hexval a; x2 ← hexval b; x1 ← hexval c; x0 ← hexval d;
  Some (N.lor (N.shiftl (N.lor (N.shiftl (N.lor (N.shiftl x3 4) x2) 4) x1) 4) x0).

(** [BACKSLASH] table of the decoder. *)
Definition unescape (e : char) : option char :=
  if e =? QUOTE then Some QUOTE
  else if e =? BACKSLASH then Some BACKSLASH
  else if e =? SLASH then Some SLASH
  else if e =? LETTER_b then Some 8
  else if e =? LETTER_f then Some 12
  else if e =? LETTER_n then Some 10
  else if e =? LETTER_r then Some 13
  else if e =? LETTER_t then Some 9
  else None.

Definition join_surrogates (hi lo : N) : char :=
  0x10000 + N.lor (N.shiftl (hi - 0xd800) 10) (lo - 0xdc00).

(** [scanstring], strict mode, entered just after the opening quote.
    [acc] holds the characters read so far, last one first.  Returns the
    decoded string and the text after the closing quote; [None] stands
    for [JSONDecodeError].  After a [\uXXXX] escape in the high
    surrogate range, a following [\uXXXX] escape in the low surrogate
    range is joined with it into one character. *)
Fixpoint scanstring (s : str) (acc : str) : option (str * str) :=
  match s with
  | [] => None
  | c :: rest =>
    if c =? QUOTE then Some (reverse acc, rest)
    else if c =? BACKSLASH then
      match rest with
      | [] => None
      | e :: rest1 =>
        if e =? LETTER_u then
          match rest1 with
          | h1 :: h2 :: h3 :: h4 :: rest2 =>
            match decode_hex4 h1 h2 h3 h4 with
            | None => None
            | Some uni =>
              if is_high_surrogate uni then
                match rest2 with
                | b :: u :: rest2' =>
                  if (b =? BACKSLASH) && (u =? LETTER_u) then
                    match rest2' with
                    | l1 :: l2 :: l3 :: l4 :: rest3 =>
                      match decode_hex4 l1 l2 l3 l4 with
                      | None => None
                      | Some uni2 =>
                        if is_low_surrogate uni2
                        then scanstring rest3 (join_surrogates uni uni2 :: acc)
                        else scanstring rest2 (uni :: acc)
                      end
                    | _ => None
                    end
                  else scanstring rest2 (uni :: acc)
                | _ => scanstring rest2 (uni :: acc)
                end
              else scanstring rest2 (uni :: acc)
            end
          | _ => None
          end
        else
          match unescape e with
          | Some ch => scanstring rest1 (ch :: acc)
          | None => None
          end
      end
    else if c <? 0x20 then None
    else scanstring rest (c :: acc)
  end.

Definition is_whitespace (c : char) : bool :=
  (c =? 32) || (c =? 9) || (c =? 10) || (c =? 13).

Fixpoint skip_ws (s : str) : str :=
  match s with
  | c :: rest => if is_whitespace c then skip_ws rest else s
  | [] => []
  end.

(** The loop of [JSONArray] once the first value is known to start:
    a string, then either a comma and the next value or the closing
    bracket.  Elements other than strings are outside this model and
    give [None].  [fuel] bounds the number of elements. *)
Fixpoint parse_items (fuel : nat) (s : str) (acc : list str)
  : option (list str * str) :=
  match fuel with
  | O => None
  | S fuel' =>
    match s with
    | c :: rest =>
      if c =? QUOTE then
        match scanstring rest [] with
        | None => None
        | Some (v, rest1) =>
          match skip_ws rest1 with
          | d :: rest2 =>
            if d =? RBRACKET then Some (reverse (v :: acc), rest2)
            else if d =? COMMA then parse_items fuel' (skip_ws rest2) (v :: acc)
            else None
          | [] => None
          end
        end
      else None
    | [] => None
    end
  end.

Definition parse_array (s : str) : option (list str * str) :=
  match s with
  | c :: rest =>
    if c =? LBRACKET then
      match skip_ws rest with
      | d :: rest1 =>
        if d =? RBRACKET then Some ([], rest1)
        else parse_items (length s) (d :: rest1) []
      | [] => None
      end
    else None
  | [] => None
  end.

(** [json.loads(text)] where the text is an array of strings: leading
    and trailing whitespace is skipped, anything left over is
    "Extra data". *)
Definition loads (text : str) : option (list str) :=
  match parse_array (skip_ws text) with
  | Some (l, rest) =>
    match skip_ws rest with
    | [] => Some l
    | _ => None
    end
  | None => None
  end.

End Json.


(* ===================================================================== *)
(** ** Enums *)
(* ===================================================================== *)

Inductive GrantType := FEDERAL | STATE | PRIVATE | FOUNDATION.

Inductive GrantStatus :=
  IDENTIFIED | APPLYING | SUBMITTED | AWARDED | REJECTED | REPORTING | CLOSED.

Global Instance GrantType_eq_dec : EqDecision GrantType.
Proof. solve_decision. Defined.
Global Instance GrantStatus_eq_dec : EqDecision GrantStatus.
Proof. solve_decision. Defined.

(** [member.value] *)
Definition GrantType_value (t : GrantType) : str :=
  match t with
  | FEDERAL => lit "federal"
  | STATE => lit "state"
  | PRIVATE => lit "private"
  | FOUNDATION => lit "foundation"
  end.

Definition GrantStatus_value (s : GrantStatus) : str :=
  match s with
  | IDENTIFIED => lit "identified"
  | APPLYING => lit "applying"
  | SUBMITTED => lit "submitted"
  | AWARDED => lit "awarded"
  | REJECTED => lit "rejected"
  | REPORTING => lit "reporting"
  | CLOSED => lit "closed"
  end.

Definition all_GrantType : list GrantType := [FEDERAL; STATE; PRIVATE; FOUNDATION].
Definition all_GrantStatus : list GrantStatus :=
  [IDENTIFIED; APPLYING; SUBMITTED; AWARDED; REJECTED; REPORTING; CLOSED].

(** [GrantType(text)] and [GrantStatus(text)]: lookup of a member by value;
    [None] stands for the [ValueError] of an unknown value. *)
Definition GrantType_of_value (v : str) : option GrantType :=
  head (filter (λ t, GrantType_value t = v) all_GrantType).

Definition GrantStatus_of_value (v : str) : option GrantStatus :=
  head (filter (λ s, GrantStatus_value s = v) all_GrantStatus).

(* ===================================================================== *)
(** ** Python numbers and the values of a REAL column *)
(* ===================================================================== *)

Module Float64.
Local Open Scope Z_scope.

(** A [float] is an IEEE 754 binary64 number, written as a [spec_float]
    with a 53-bit mantissa. *)
Definition zero : spec_float := S754_zero false.

Definition is_nan (x : spec_float) : bool :=
  match x with S754_nan => true | _ => false end.

(** [num / den] rounded to the nearest integer, ties to even ([den > 0]). *)
Definition round_half_even (num den : Z) : Z :=
  let q := num / den in
  let r2 := 2 * (num mod den) in
  if r2 <? den then q
  else if den <? r2 then q + 1
  else if Z.even q then q else q + 1.

(** [n / (d * 2^e)] as a fraction of integers. *)
Definition scaled (n d e : Z) : Z * Z :=
  if 0 <=? e then (n, d * 2 ^ e) else (n * 2 ^ (- e), d).

(** The binary64 number nearest to [n / d], ties to even, for [n, d > 0]:
    the mantissa [m] with [2^52 <= m < 2^53] and the exponent [e] of
    [m * 2^e].  (For a quotient in the range of the normal numbers, as
    every quotient of two integers below [2^63] is.) *)
Definition nearest_pos (n d : Z) : Z * Z :=
  let e0 := Z.log2 n - Z.log2 d - 53 in
  let e := if (scaled n d e0).1 <? 2 ^ 53 * (scaled n d e0).2 then e0 else e0 + 1 in
  let m := round_half_even (scaled n d e).1 (scaled n d e).2 in
  if m =? 2 ^ 53 then (2 ^ 52, e + 1) else (m, e).

(** The correctly rounded value of [n / d] ([d > 0]). *)
Definition nearest (n d : Z) : spec_float :=
  if n =? 0 then zero
  else S754_finite (n <? 0) (Z.to_pos (nearest_pos (Z.abs n) d).1)
                   (nearest_pos (Z.abs n) d).2.

(** [float(z)], and the conversion of a 64-bit integer to REAL. *)
Definition of_int (z : Z) : spec_float := nearest z 1.

(** [a / b] on Python ints with [b > 0]: the correctly rounded quotient. *)
Definition truediv (a b : Z) : spec_float := nearest a b.

(** [1000 * m * 2^e] as a fraction [(num, den)] of integers, [den > 0]. *)
Definition thousandths (m : positive) (e : Z) : Z * Z :=
  if 0 <=? e then (Z.pos m * 2 ^ e * 1000, 1) else (Z.pos m * 1000, 2 ^ (- e)).

(** [round(x, 3)] on a float: the exact binary value of [x] is rounded
    to three decimals (ties to even) and the decimal [k / 1000] is
    converted back to the nearest float. *)
Definition round3 (x : spec_float) : spec_float :=
  match x with
  | S754_finite s m e =>
    let k := round_half_even (thousandths m e).1 (thousandths m e).2 in
    let r := nearest k 1000 in
    if s then SFopp r else r
  | _ => x
  end.

(** The rational a float stands for. *)
Definition exact (x : spec_float) : option Q :=
  match x with
  | S754_zero _ => Some (0 # 1)%Q
  | S754_finite s m e =>
    let v := if 0 <=? e then inject_Z (Z.pos m * 2 ^ e)
             else (Z.pos m # Z.to_pos (2 ^ (- e)))%Q in
    Some (Qred (if s then Qopp v else v))
  | _ => None
  end.

(** The float [0.5], that is [2^52 * 2^(-53)]. *)
Definition one_half : spec_float := S754_finite false 4503599627370496 (-53).
End Float64.

(** A Python number: [int] or [float].  The amounts are annotated
    [float]; callers (the tests among them) pass [int] as well. *)
Inductive pynum := PyInt (z : Z) | PyFloat (f : spec_float).

(** The value of a REAL column: a binary64 number.  SQLite keeps neither
    NaN (it stores NULL in its place) nor the sign of a zero. *)
Definition money := spec_float.

(* ===================================================================== *)
(** ** Dataclasses *)
(* ===================================================================== *)

Module Grant.
Record t := mk {
  id : str;
  title : str;
  funder : str;
  amount : pynum;
  type : GrantType;
  purpose : str;
  deadline : option str;
  status : GrantStatus;
  requirements : list str;
  reporting_dates : list str;
  contacts : list str;
  award_amount : option pynum;
  notes : str;
  assigned_to : str;
  created_at : str;
  updated_at : str;
}.
End Grant.

Module Submission.
Record t := mk {
  id : str;
  grant_id : str;
  submitted_at : str;
  notes : str;
  submitted_by : str;
  documents : list str;
  created_at : str;
}.
End Submission.

Module GrantNote.
Record t := mk {
  id : str;
  grant_id : str;
  content : str;
  author : str;
  created_at : str;
}.
End GrantNote.

(* ===================================================================== *)
(** ** The SQLite schema ([GrantDatabase._init_schema]) *)
(* ===================================================================== *)

(** A row of table [grants]: enums and lists are TEXT columns. *)
Module grants.
Record row := mk {
  id : str;
  title : str;
  funder : str;
  amount : money;
  type : str;
  purpose : str;
  deadline : option str;
  status : str;
  requirements : str;
  reporting_dates : str;
  contacts : str;
  award_amount : option money;
  notes : str;
  assigned_to : str;
  created_at : str;
  updated_at : str;
}.
End grants.

Module submissions.
Record row := mk {
  id : str;
  grant_id : str;
  submitted_at : str;
  notes : str;
  submitted_by : str;
  documents : str;
  created_at : str;
}.
End submissions.

Module grant_notes.
Record row := mk {
  id : str;
  grant_id : str;
  content : str;
  author : str;
  created_at : str;
}.
End grant_notes.

(** The database: each table is the list of its rows in insertion order
    (rows are never deleted). *)
Module Db.
Record t := mk {
  grants : list grants.row;
  submissions : list submissions.row;
  grant_notes : list grant_notes.row;
}.
Definition empty : t := mk [] [] [].
End Db.

(* ===================================================================== *)
(** ** Effects: the world, exceptions, transactions *)
(* ===================================================================== *)

Inductive exn :=
  IntegrityError | ValueError | JSONDecodeError | UnicodeEncodeError | OverflowError.

Inductive outcome (A : Type) := Return (a : A) | Raise (e : exn).
Arguments Return {A} a.
Arguments Raise {A} e.

(** What a call can observe and change: the database behind [self.conn],
    the values [uuid.uuid4()] will produce and the readings
    [datetime.utcnow().isoformat()] will give, in order. *)
Record World := mkWorld {
  db : Db.t;
  uuid_source : nat → str;
  clock : nat → str;
}.

Definition M (A : Type) : Type := World → outcome A * World.

Global Instance M_ret : MRet M := λ A a w, (Return a, w).
Global Instance M_bind : MBind M := λ A B f m w,
  match m w with
  | (Return a, w') => f a w'
  | (Raise e, w') => (Raise e, w')
  end.

Definition raise {A} (e : exn) : M A := λ w, (Raise e, w).

Definition or_raise {A} (e : exn) (o : option A) : M A :=
  match o with Some a => mret a | None => raise e end.

(** [str(uuid.uuid4())] *)
Definition uuid4 : M str := λ w,
  (Return (uuid_source w 0%nat),
   mkWorld (db w) (λ n, uuid_source w (S n)) (clock w)).

(** [datetime.utcnow().isoformat()] *)
Definition utcnow : M str := λ w,
  (Return (clock w 0%nat),
   mkWorld (db w) (uuid_source w) (λ n, clock w (S n))).

(** A value passed for a [?] of a statement. *)
Inductive param := PText (s : str) | PNum (x : pynum) | PNone.

Definition opt_text (o : option str) : param :=
  match o with Some s => PText s | None => PNone end.

(** Binding one parameter.  A [str] is passed as UTF-8 and raises
    [UnicodeEncodeError] when it cannot be encoded; an [int] is passed as
    a 64-bit integer and raises [OverflowError] outside its range; a
    [float] and [None] always bind. *)
Definition bind_param (p : param) : option exn :=
  match p with
  | PText s => if utf8_encodable s then None else Some UnicodeEncodeError
  | PNum (PyInt z) =>
    if ((- 2 ^ 63 <=? z) && (z <? 2 ^ 63))%Z then None else Some OverflowError
  | PNum (PyFloat _) => None
  | PNone => None
  end.

(** The parameters are bound in order; the first that fails raises. *)
Fixpoint bind_params (ps : list param) : option exn :=
  match ps with
  | [] => None
  | p :: ps' =>
    match bind_param p with
    | Some e => Some e
    | None => bind_params ps'
    end
  end.

(** [self.conn.execute(...)] for a statement that reads and whose
    parameters cannot fail to bind: it has none, or ISO dates made by
    [date.isoformat()]. *)
Definition query {A} (q : Db.t → A) : M A := λ w, (Return (q (db w)), w).

(** [self.conn.execute(sql, params)] for a statement that reads: the
    parameters are bound, then the statement runs. *)
Definition query_bound {A} (params : list param) (q : Db.t → A) : M A := λ w,
  match bind_params params with
  | Some e => (Raise e, w)
  | None => (Return (q (db w)), w)
  end.

(** [self.conn.execute(sql, params)] for a statement that writes: the
    parameters are bound, then the statement runs; a parameter that does
    not bind and a constraint violation raise and leave the database as
    it was. *)
Definition execute (params : list param) (stmt : Db.t → outcome Db.t) : M unit := λ w,
  match bind_params params with
  | Some e => (Raise e, w)
  | None =>
    match stmt (db w) with
    | Return d => (Return (), mkWorld d (uuid_source w) (clock w))
    | Raise e => (Raise e, w)
    end
  end.

(** [with self.conn: body]: commit on normal exit, roll back on an
    exception and let it propagate. *)
Definition transaction {A} (body : M A) : M A := λ w,
  match body w with
  | (Return a, w') => (Return a, w')
  | (Raise e, w') => (Raise e, mkWorld (db w) (uuid_source w') (clock w'))
  end.

(* ===================================================================== *)
(** ** The SQL statements of the service *)
(* ===================================================================== *)

Module Sql.

(** Lexicographic order on TEXT (BINARY collation). *)
Fixpoint text_leb (a b : str) : bool :=
  match a, b with
  | [], _ => true
  | _ :: _, [] => false
  | x :: a', y :: b' => if x <? y then true else if y <? x then false else text_leb a' b'
  end.

(** The value a REAL column takes from a bound number; [None] is NULL.
    An integer is converted to the nearest float, NaN becomes NULL and a
    zero loses its sign. *)
Definition real_of (x : pynum) : option money :=
  match x with
  | PyInt z => Some (Float64.of_int z)
  | PyFloat S754_nan => None
  | PyFloat (S754_zero _) => Some Float64.zero
  | PyFloat f => Some f
  end.

(** A NOT NULL column given NULL: the statement fails. *)
Definition not_null {A} (v : option A) (stmt : A → Db.t → outcome Db.t)
  : Db.t → outcome Db.t :=
  λ d, match v with
       | Some a => stmt a d
       | None => Raise IntegrityError
       end.

(** INSERT INTO grants (...) VALUES (...); [id] is the PRIMARY KEY. *)
Definition insert_grant (r : grants.row) (d : Db.t) : outcome Db.t :=
  if decide (grants.id r ∈ grants.id <$> Db.grants d)
  then Raise IntegrityError
  else Return (Db.mk (Db.grants d ++ [r]) (Db.submissions d) (Db.grant_notes d)).

(** INSERT INTO submissions (...) VALUES (...).  The REFERENCES clause
    is not enforced: the connection never turns foreign keys on. *)
Definition insert_submission (r : submissions.row) (d : Db.t) : outcome Db.t :=
  if decide (submissions.id r ∈ submissions.id <$> Db.submissions d)
  then Raise IntegrityError
  else Return (Db.mk (Db.grants d) (Db.submissions d ++ [r]) (Db.grant_notes d)).

(** INSERT INTO grant_notes (...) VALUES (...) *)
Definition insert_note (r : grant_notes.row) (d : Db.t) : outcome Db.t :=
  if decide (grant_notes.id r ∈ grant_notes.id <$> Db.grant_notes d)
  then Raise IntegrityError
  else Return (Db.mk (Db.grants d) (Db.submissions d) (Db.grant_notes d ++ [r])).

Definition update_grants (gid : str) (f : grants.row → grants.row) (d : Db.t)
  : outcome Db.t :=
  Return (Db.mk ((λ r, if decide (grants.id r = gid) then f r else r) <$> Db.grants d)
                (Db.submissions d) (Db.grant_notes d)).

Definition set_status (st now : str) (r : grants.row) : grants.row :=
  grants.mk (grants.id r) (grants.title r) (grants.funder r) (grants.amount r)
    (grants.type r) (grants.purpose r) (grants.deadline r) st
    (grants.requirements r) (grants.reporting_dates r) (grants.contacts r)
    (grants.award_amount r) (grants.notes r) (grants.assigned_to r)
    (grants.created_at r) now.

Definition set_notes (notes : str) (r : grants.row) : grants.row :=
  grants.mk (grants.id r) (grants.title r) (grants.funder r) (grants.amount r)
    (grants.type r) (grants.purpose r) (grants.deadline r) (grants.status r)
    (grants.requirements r) (grants.reporting_dates r) (grants.contacts r)
    (grants.award_amount r) notes (grants.assigned_to r)
    (grants.created_at r) (grants.updated_at r).

Definition set_award (actual : option money) (dates_json now : str) (r : grants.row)
  : grants.row :=
  grants.mk (grants.id r) (grants.title r) (grants.funder r) (grants.amount r)
    (grants.type r) (grants.purpose r) (grants.deadline r) (lit "awarded")
    (grants.requirements r) dates_json (grants.contacts r)
    actual (grants.notes r) (grants.assigned_to r)
    (grants.created_at r) now.

(** UPDATE grants SET status = ?, updated_at = ? WHERE id = ? *)
Definition update_status (st now gid : str) : Db.t → outcome Db.t :=
  update_grants gid (set_status st now).

(** UPDATE grants SET notes = ? WHERE id = ? *)
Definition update_notes (notes gid : str) : Db.t → outcome Db.t :=
  update_grants gid (set_notes notes).

(** UPDATE grants SET status = 'awarded', award_amount = ?,
    reporting_dates = ?, updated_at = ? WHERE id = ? *)
Definition update_award (actual : option money) (dates_json now gid : str)
  : Db.t → outcome Db.t :=
  update_grants gid (set_award actual dates_json now).

(** SELECT * FROM grants WHERE id = ?, then [fetchone()] *)
Definition select_grant (gid : str) (d : Db.t) : option grants.row :=
  head (filter (λ r, grants.id r = gid) (Db.grants d)).

(** SELECT * FROM grant_notes WHERE grant_id = ? ORDER BY created_at DESC *)
Definition select_notes (gid : str) (d : Db.t) : list grant_notes.row :=
  merge_sort (λ a b, text_leb (grant_notes.created_at b) (grant_notes.created_at a))
    (filter (λ r, grant_notes.grant_id r = gid) (Db.grant_notes d)).

(** SELECT * FROM submissions WHERE grant_id = ? ORDER BY submitted_at DESC *)
Definition select_submissions (gid : str) (d : Db.t) : list submissions.row :=
  merge_sort (λ a b, text_leb (submissions.submitted_at b) (submissions.submitted_at a))
    (filter (λ r, submissions.grant_id r = gid) (Db.submissions d)).

(** COUNT( * ) ... GROUP BY status *)
Definition group_by_status (rows : list grants.row) : gmap str nat :=
  foldr (λ r m, <[grants.status r := S (default 0%nat (m !! grants.status r))]> m)
        ∅ rows.

Definition decided_statuses : list str :=
  [lit "submitted"; lit "awarded"; lit "rejected"].

(** SELECT status, COUNT( * ) FROM grants
    WHERE status IN ('submitted','awarded','rejected') [AND funder = ?]
    GROUP BY status
    The funder condition is present when [funder] is [Some f]. *)
Definition select_status_counts (funder : option str) (d : Db.t)
  : list (str * nat) :=
  let decided := filter (λ r, grants.status r ∈ decided_statuses) (Db.grants d) in
  map_to_list (group_by_status
    match funder with
    | Some f => filter (λ r, grants.funder r = f) decided
    | None => decided
    end).

(** *** The statements of the listing and analytics methods *)

(** ORDER BY deadline ASC: a NULL deadline comes before every text. *)
Definition deadline_leb (a b : option str) : bool :=
  match a, b with
  | None, _ => true
  | Some _, None => false
  | Some x, Some y => text_leb x y
  end.

(** SELECT * FROM grants WHERE 1=1 [AND status = ?] [AND type = ?]
    [AND funder = ?] ORDER BY deadline ASC
    Each condition is present when its argument is [Some v]. *)
Definition select_grants (status type funder : option str) (d : Db.t)
  : list grants.row :=
  let rows := Db.grants d in
  let rows := match status with
              | Some v => filter (λ r, grants.status r = v) rows
              | None => rows
              end in
  let rows := match type with
              | Some v => filter (λ r, grants.type r = v) rows
              | None => rows
              end in
  let rows := match funder with
              | Some v => filter (λ r, grants.funder r = v) rows
              | None => rows
              end in
  merge_sort (λ a b, deadline_leb (grants.deadline a) (grants.deadline b)) rows.

Definition open_statuses : list str := [lit "identified"; lit "applying"].

(** deadline BETWEEN ? AND ?: false (NULL) for a row without deadline. *)
Definition deadline_between (today cutoff : str) (r : grants.row) : bool :=
  match grants.deadline r with
  | Some dl => text_leb today dl && text_leb dl cutoff
  | None => false
  end.

(** SELECT * FROM grants WHERE deadline BETWEEN ? AND ?
    AND status IN ('identified','applying') ORDER BY deadline ASC *)
Definition select_upcoming (today cutoff : str) (d : Db.t) : list grants.row :=
  merge_sort (λ a b, deadline_leb (grants.deadline a) (grants.deadline b))
    (filter (λ r, deadline_between today cutoff r ∧ grants.status r ∈ open_statuses)
            (Db.grants d)).

(** GROUP BY: the rows of each group, by the group's key. *)
Definition group_rows (key : grants.row → str) (rows : list grants.row)
  : gmap str (list grants.row) :=
  foldr (λ r m, <[key r := r :: default [] (m !! key r)]> m) ∅ rows.

Section aggregates.

(** SUM over REAL values (SQLite's float summation), not interpreted;
    [None] is the NULL it gives for a sum that is not a number. *)
Variable sum_real : list money → option money.

(** SELECT status, COUNT( * ) as count, SUM(amount) as requested,
    SUM(CASE WHEN award_amount IS NOT NULL THEN award_amount ELSE 0 END)
    as awarded FROM grants GROUP BY status
    (the integer [0] of ELSE is written as the float zero) *)
Definition select_pipeline (d : Db.t)
  : list (str * nat * option money * option money) :=
  (λ g, (g.1, length g.2,
         sum_real (grants.amount <$> g.2),
         sum_real ((λ r, default Float64.zero (grants.award_amount r)) <$> g.2)))
  <$> map_to_list (group_rows grants.status (Db.grants d)).

(** SELECT type, SUM(award_amount) as total FROM grants
    WHERE status='awarded' GROUP BY type
    SUM skips NULL and is NULL when nothing is left. *)
Definition select_funding_by_type (d : Db.t) : list (str * option money) :=
  (λ g, (g.1,
         match omap grants.award_amount g.2 with
         | [] => None
         | amounts => sum_real amounts
         end))
  <$> map_to_list
        (group_rows grants.type
           (filter (λ r, grants.status r = lit "awarded") (Db.grants d))).

End aggregates.

End Sql.

(* ===================================================================== *)
(** ** The service ([class GrantTracker]) *)
(* ===================================================================== *)

(** The result of [success_rate]: a dict with these five keys. *)
Module SuccessRate.
Record t := mk {
  funder : str;
  submitted : nat;
  awarded : nat;
  rejected : nat;
  success_rate : pynum;
}.
End SuccessRate.

(** One entry of [reporting_calendar]: a dict with these five keys. *)
Module CalendarEntry.
Record t := mk {
  grant_id : str;
  title : str;
  funder : str;
  reporting_date : str;
  award_amount : option pynum;
}.
End CalendarEntry.

(** The result of [get_pipeline]: the dict of the statuses' entries and
    the three totals. *)
Module PipelineEntry.
Record t := mk {
  count : nat;
  total_requested : money;
  total_awarded : money;
}.
End PipelineEntry.

Module Pipeline.
Record t := mk {
  by_status : gmap str PipelineEntry.t;
  total_grants : nat;
  total_requested : money;
  total_awarded : money;
}.
End Pipeline.

(** Python's [list.sort(key=...)] on string keys: a stable sort, strings
    compared by code point. *)
Module PyList.
Fixpoint insert_by {A} (key : A → str) (x : A) (l : list A) : list A :=
  match l with
  | [] => [x]
  | y :: l' =>
    if Sql.text_leb (key x) (key y) then x :: l else y :: insert_by key x l'
  end.

Definition sort_by {A} (key : A → str) (l : list A) : list A :=
  foldr (insert_by key) [] l.
End PyList.

Module GrantTracker.

(** Optional arguments of the Python methods are passed explicitly:
    [None] for an omitted [Optional] argument, [[]] for an omitted
    string (default [""]). *)

Definition _row_to_grant (row : grants.row) : M Grant.t :=
  ty ← or_raise ValueError (GrantType_of_value (grants.type row));
  st ← or_raise ValueError (GrantStatus_of_value (grants.status row));
  requirements ← or_raise JSONDecodeError (Json.loads (grants.requirements row));
  reporting_dates ← or_raise JSONDecodeError (Json.loads (grants.reporting_dates row));
  contacts ← or_raise JSONDecodeError (Json.loads (grants.contacts row));
  mret (Grant.mk (grants.id row) (grants.title row) (grants.funder row)
          (PyFloat (grants.amount row)) ty (grants.purpose row) (grants.deadline row) st
          requirements reporting_dates contacts
          (PyFloat <$> grants.award_amount row) (grants.notes row)
          (grants.assigned_to row)
          (grants.created_at row) (grants.updated_at row)).

Definition get_grant (grant_id : str) : M (option Grant.t) :=
  row ← query_bound [PText grant_id] (Sql.select_grant grant_id);
  match row with
  | Some r => g ← _row_to_grant r; mret (Some g)
  | None => mret None
  end.

Definition identify (title funder : str) (amount : pynum)
    (deadline : option str) (grant_type : GrantType) (purpose : str)
    (requirements contacts : option (list str)) (assigned_to : str)
  : M Grant.t :=
  now ← utcnow;
  uid ← uuid4;
  let grant :=
    Grant.mk uid title funder amount grant_type purpose deadline IDENTIFIED
      (default [] requirements) [] (default [] contacts) None [] assigned_to
      now now in
  _ ← transaction
    (execute
       [PText (Grant.id grant); PText (Grant.title grant); PText (Grant.funder grant);
        PNum (Grant.amount grant); PText (GrantType_value (Grant.type grant));
        PText (Grant.purpose grant); opt_text (Grant.deadline grant);
        PText (GrantStatus_value (Grant.status grant));
        PText (Json.dumps (Grant.requirements grant));
        PText (Json.dumps (Grant.reporting_dates grant));
        PText (Json.dumps (Grant.contacts grant));
        PNone; PText (Grant.notes grant); PText (Grant.assigned_to grant);
        PText (Grant.created_at grant); PText (Grant.updated_at grant)]
       (Sql.not_null (Sql.real_of (Grant.amount grant)) (λ amount_real,
          Sql.insert_grant
            (grants.mk (Grant.id grant) (Grant.title grant) (Grant.funder grant)
               amount_real (GrantType_value (Grant.type grant))
               (Grant.purpose grant) (Grant.deadline grant)
               (GrantStatus_value (Grant.status grant))
               (Json.dumps (Grant.requirements grant))
               (Json.dumps (Grant.reporting_dates grant))
               (Json.dumps (Grant.contacts grant))
               None (Grant.notes grant)
               (Grant.assigned_to grant)
               (Grant.created_at grant) (Grant.updated_at grant)))));
  mret grant.

Definition _transition (grant_id : str) (new_status : GrantStatus) (notes : str)
  : M (option Grant.t) :=
  g ← get_grant grant_id;
  match g with
  | None => mret None
  | Some _ =>
    now ← utcnow;
    _ ← transaction
      (_ ← execute [PText (GrantStatus_value new_status); PText now; PText grant_id]
             (Sql.update_status (GrantStatus_value new_status) now grant_id);
       if truthy notes
       then execute [PText notes; PText grant_id] (Sql.update_notes notes grant_id)
       else mret ());
    get_grant grant_id
  end.

(** Move grant to 'applying' status. *)
Definition apply (grant_id notes assigned_to : str) : M (option Grant.t) :=
  _transition grant_id APPLYING notes.

(** Record submission and update status. *)
Definition submit (grant_id notes submitted_by : str)
    (documents : option (list str)) : M (option Grant.t) :=
  grant ← get_grant grant_id;
  match grant with
  | None => mret None
  | Some _ =>
    now ← utcnow;
    uid ← uuid4;
    created ← utcnow;
    let sub := Submission.mk uid grant_id now notes submitted_by
                 (default [] documents) created in
    _ ← transaction
      (execute
         [PText (Submission.id sub); PText (Submission.grant_id sub);
          PText (Submission.submitted_at sub); PText (Submission.notes sub);
          PText (Submission.submitted_by sub);
          PText (Json.dumps (Submission.documents sub));
          PText (Submission.created_at sub)]
         (Sql.insert_submission
            (submissions.mk (Submission.id sub) (Submission.grant_id sub)
               (Submission.submitted_at sub) (Submission.notes sub)
               (Submission.submitted_by sub)
               (Json.dumps (Submission.documents sub))
               (Submission.created_at sub))));
    _transition grant_id SUBMITTED []
  end.

(** Mark grant as awarded with optional actual amount. *)
Definition award (grant_id : str) (award_amount : option pynum)
    (reporting_dates : option (list str)) : M (option Grant.t) :=
  grant ← get_grant grant_id;
  match grant with
  | None => mret None
  | Some g =>
    let actual := match award_amount with
                  | Some a => a
                  | None => Grant.amount g
                  end in
    let dates_json := Json.dumps (default [] reporting_dates) in
    now ← utcnow;
    _ ← transaction
      (execute [PNum actual; PText dates_json; PText now; PText grant_id]
         (Sql.update_award (Sql.real_of actual) dates_json now grant_id));
    get_grant grant_id
  end.

(** Mark grant as rejected. *)
Definition reject (grant_id notes : str) : M (option Grant.t) :=
  _transition grant_id REJECTED notes.

Definition start_reporting (grant_id : str) : M (option Grant.t) :=
  _transition grant_id REPORTING [].

Definition close (grant_id : str) : M (option Grant.t) :=
  _transition grant_id CLOSED [].

Definition add_note (grant_id content author : str) : M GrantNote.t :=
  uid ← uuid4;
  created ← utcnow;
  let note := GrantNote.mk uid grant_id content author created in
  _ ← transaction
    (execute
       [PText (GrantNote.id note); PText (GrantNote.grant_id note);
        PText (GrantNote.content note); PText (GrantNote.author note);
        PText (GrantNote.created_at note)]
       (Sql.insert_note
          (grant_notes.mk (GrantNote.id note) (GrantNote.grant_id note)
             (GrantNote.content note) (GrantNote.author note)
             (GrantNote.created_at note))));
  mret note.

Definition get_notes (grant_id : str) : M (list GrantNote.t) :=
  rows ← query_bound [PText grant_id] (Sql.select_notes grant_id);
  mret ((λ r, GrantNote.mk (grant_notes.id r) (grant_notes.grant_id r)
                (grant_notes.content r) (grant_notes.author r)
                (grant_notes.created_at r)) <$> rows).

Definition get_submissions (grant_id : str) : M (list Submission.t) :=
  rows ← query_bound [PText grant_id] (Sql.select_submissions grant_id);
  mapM (λ r,
          documents ← or_raise JSONDecodeError (Json.loads (submissions.documents r));
          mret (Submission.mk (submissions.id r) (submissions.grant_id r)
                  (submissions.submitted_at r) (submissions.notes r)
                  (submissions.submitted_by r) documents
                  (submissions.created_at r)))
       rows.

(** Win rate. *)
Definition success_rate (funder_filter : option str) : M SuccessRate.t :=
  let filtering := match funder_filter with
                   | Some f => if truthy f then Some f else None
                   | None => None
                   end in
  rows ← query_bound (match filtering with Some f => [PText f] | None => [] end)
           (Sql.select_status_counts filtering);
  let counts : gmap str nat := list_to_map (reverse rows) in
  let awarded := default 0%nat (counts !! lit "awarded") in
  let rejected := default 0%nat (counts !! lit "rejected") in
  let submitted := default 0%nat (counts !! lit "submitted") in
  let total_decided := (awarded + rejected)%nat in
  mret (SuccessRate.mk
          (default (lit "all") filtering)
          submitted awarded rejected
          (if decide (total_decided = 0%nat) then PyInt 0
           else PyFloat (Float64.round3
                  (Float64.truediv (Z.of_nat awarded) (Z.of_nat total_decided))))).

(** *** Listing and analytics *)

(** [if status:] and [if grant_type:] hold for every member of the two
    enums (a member is a non-empty string), so a condition is added
    exactly when the argument is given; [if funder:] fails for the empty
    string, which therefore puts no condition. *)
Definition list_grants (status : option GrantStatus) (grant_type : option GrantType)
    (funder : option str) : M (list Grant.t) :=
  let funder_cond := match funder with
                     | Some f => if truthy f then Some f else None
                     | None => None
                     end in
  rows ← query_bound
           (omap (fmap PText)
              [GrantStatus_value <$> status; GrantType_value <$> grant_type; funder_cond])
           (Sql.select_grants
              (GrantStatus_value <$> status)
              (GrantType_value <$> grant_type)
              funder_cond);
  mapM _row_to_grant rows.

(** [x or 0] on a number read from a row: [0] for NULL and for a zero.
    (The [int] [0] is written as the float zero, which Python compares
    equal to it.) *)
Definition or_zero (x : option money) : money :=
  match x with
  | Some (S754_zero _) => Float64.zero
  | Some v => v
  | None => Float64.zero
  end.

Section analytics.

(** The calendar and the float arithmetic of the analytics are taken as
    given: [today_iso n] is [date.today().isoformat()] at the [n]-th
    reading of a call, [iso_after n days] the ISO text of that reading
    plus [timedelta(days=days)] ([None]: the date arithmetic raises
    [OverflowError]); [sum_real] is SQLite's SUM, [add_real] Python's
    float addition and [round2] is [round(x, 2)]. *)
Variable today_iso : nat → str.
Variable iso_after : nat → Z → option str.
Variable sum_real : list money → option money.
Variable add_real : money → money → money.
Variable round2 : money → money.

(** Grants with deadlines within the next N days.  [None]: the date
    arithmetic raised before the query. *)
Definition upcoming_deadlines (days : Z) : option (M (list Grant.t)) :=
  let today := today_iso 0%nat in
  cutoff ← iso_after 1%nat days;
  Some (rows ← query (Sql.select_upcoming today cutoff);
        mapM _row_to_grant rows).

(** Return upcoming reporting obligations within the next N months. *)
Definition reporting_calendar (months : Z) : option (M (list CalendarEntry.t)) :=
  let today := today_iso 0%nat in
  cutoff ← iso_after 0%nat (months * 30)%Z;
  Some (grants ← list_grants (Some REPORTING) None None;
        let upcoming :=
          g ← grants;
          rd ← filter (λ rd, Sql.text_leb today rd && Sql.text_leb rd cutoff)
                 (Grant.reporting_dates g);
          [CalendarEntry.mk (Grant.id g) (Grant.title g) (Grant.funder g) rd
             (Grant.award_amount g)] in
        mret (PyList.sort_by CalendarEntry.reporting_date upcoming)).

(** Full grant pipeline summary by status. *)
Definition get_pipeline : M Pipeline.t :=
  rows ← query (Sql.select_pipeline sum_real);
  let pipeline : gmap str PipelineEntry.t :=
    foldl (λ m r, <[r.1.1.1 := PipelineEntry.mk r.1.1.2
                                 (round2 (or_zero r.1.2))
                                 (round2 (or_zero r.2))]> m)
          ∅ rows in
  let total_requested :=
    foldl (λ acc r, add_real acc (or_zero r.1.2)) Float64.zero rows in
  let total_awarded :=
    foldl (λ acc r, add_real acc (or_zero r.2)) Float64.zero rows in
  mret (Pipeline.mk pipeline
          (map_fold (λ _ v acc, (PipelineEntry.count v + acc)%nat) 0%nat pipeline)
          (round2 total_requested) (round2 total_awarded)).

(** Awarded amounts by type: a dict comprehension over the rows. *)
Definition total_funding_by_type : M (gmap str money) :=
  rows ← query (Sql.select_funding_by_type sum_real);
  mret (foldl (λ m r, <[r.1 := round2 (or_zero r.2)]> m) ∅ rows).

End analytics.

End GrantTracker.

(* ===================================================================== *)
(** ** What the codec does to a string *)
(* ===================================================================== *)

Module Utf16.

(** A character above the BMP leaves the encoder as a surrogate pair
    carrying the low 20 bits of its offset; for a Python character
    (below [0x110000]) that is the character itself. *)
Definition wrap_char (c : char) : char :=
  if c <? 0x10000 then c else 0x10000 + (c - 0x10000) mod 0x100000.

(** A high surrogate immediately followed by a low surrogate reads back
    as the one character they encode in UTF-16. *)
Fixpoint merge_surrogates (s : str) : str :=
  match s with
  | [] => []
  | h :: tl =>
    match tl with
    | [] => [h]
    | l :: rest =>
      if is_high_surrogate h && is_low_surrogate l
      then Json.join_surrogates h l :: merge_surrogates rest
      else h :: merge_surrogates tl
    end
  end.

(** The string [json.loads] gives back for what [json.dumps] wrote. *)
Definition decoded (s : str) : str := merge_surrogates (wrap_char <$> s).

Fixpoint has_surrogate_pair (s : str) : bool :=
  match s with
  | [] => false
  | h :: tl =>
    match tl with
    | [] => false
    | l :: _ => (is_high_surrogate h && is_low_surrogate l) || has_surrogate_pair tl
    end
  end.

End Utf16.

(* ===================================================================== *)
(** ** Calls of the public interface, reachable worlds, invariants *)
(* ===================================================================== *)

(** A call of one of the methods that write. *)
Inductive call :=
  | Identify (title funder : str) (amount : pynum) (deadline : option str)
             (grant_type : GrantType) (purpose : str)
             (requirements contacts : option (list str)) (assigned_to : str)
  | Apply (grant_id notes assigned_to : str)
  | Submit (grant_id notes submitted_by : str) (documents : option (list str))
  | Award (grant_id : str) (award_amount : option pynum)
          (reporting_dates : option (list str))
  | Reject (grant_id notes : str)
  | StartReporting (grant_id : str)
  | Close (grant_id : str)
  | AddNote (grant_id content author : str).

Definition perform (c : call) : M unit :=
  match c with
  | Identify title funder amount deadline grant_type purpose requirements contacts assigned_to =>
    _ ← GrantTracker.identify title funder amount deadline grant_type purpose
          requirements contacts assigned_to; mret ()
  | Apply grant_id notes assigned_to =>
    _ ← GrantTracker.apply grant_id notes assigned_to; mret ()
  | Submit grant_id notes submitted_by documents =>
    _ ← GrantTracker.submit grant_id notes submitted_by documents; mret ()
  | Award grant_id award_amount reporting_dates =>
    _ ← GrantTracker.award grant_id award_amount reporting_dates; mret ()
  | Reject grant_id notes => _ ← GrantTracker.reject grant_id notes; mret ()
  | StartReporting grant_id => _ ← GrantTracker.start_reporting grant_id; mret ()
  | Close grant_id => _ ← GrantTracker.close grant_id; mret ()
  | AddNote grant_id content author =>
    _ ← GrantTracker.add_note grant_id content author; mret ()
  end.

(** One call, whether it returns or raises, takes the world [w] to [w']. *)
Definition step (w w' : World) : Prop := ∃ c, (perform c w).2 = w'.

(** The worlds a tracker can be in: it starts on an empty database
    (a fresh file after [_init_schema]) and is used through its methods. *)
Inductive reachable : World → Prop :=
  | reachable_init w : db w = Db.empty → reachable w
  | reachable_step w w' : reachable w → step w w' → reachable w'.

(** A row of [grants] that [_row_to_grant] can read. *)
Definition row_readable (r : grants.row) : Prop :=
  is_Some (GrantType_of_value (grants.type r))
  ∧ is_Some (GrantStatus_of_value (grants.status r))
  ∧ is_Some (Json.loads (grants.requirements r))
  ∧ is_Some (Json.loads (grants.reporting_dates r))
  ∧ is_Some (Json.loads (grants.contacts r)).

(** The status column holds the value of one of the seven members. *)
Definition status_named (r : grants.row) : Prop :=
  ∃ st : GrantStatus, grants.status r = GrantStatus_value st.

(** The identifiers of the opportunities, by row. *)
Definition grant_ids (d : Db.t) : list str := grants.id <$> Db.grants d.

(** Rows are kept, in place, with their identifier. *)
Definition ids_kept (d d' : Db.t) : Prop := grant_ids d `prefix_of` grant_ids d'.

(** A value a REAL column can hold: bound again, it is stored as it is
    (it is neither NaN nor a negative zero). *)
Definition stored_real (a : money) : Prop := Sql.real_of (PyFloat a) = Some a.

(** What every reachable database satisfies. *)
Record db_consistent (d : Db.t) : Prop := {
  grants_readable : Forall row_readable (Db.grants d);
  grants_unique : NoDup (grant_ids d);
  grants_bound : Forall (λ r, utf8_encodable (grants.id r) = true) (Db.grants d);
  amounts_real : Forall (λ r, stored_real (grants.amount r)) (Db.grants d);
  submissions_owned :
    Forall (λ s, submissions.grant_id s ∈ grant_ids d) (Db.submissions d);
  submissions_readable :
    Forall (λ s, is_Some (Json.loads (submissions.documents s))) (Db.submissions d);
}.


(** The methods that only read do not depend on the generators: their
    result on a database. *)
Definition world_of (d : Db.t) : World := mkWorld d (λ _, []) (λ _, []).

Definition read_row (r : grants.row) : outcome Grant.t :=
  (GrantTracker._row_to_grant r (world_of Db.empty)).1.

Definition find_grant (d : Db.t) (grant_id : str) : outcome (option Grant.t) :=
  (GrantTracker.get_grant grant_id (world_of d)).1.


(** The funder condition [success_rate] applies: none for an omitted or
    empty [funder_filter]. *)
Definition applied_filter (funder_filter : option str) : option str :=
  match funder_filter with
  | Some f => if truthy f then Some f else None
  | None => None
  end.


(* ===================================================================== *)
(** ** Definitions used to state and prove the properties *)
(* ===================================================================== *)

Import Json Utf16 GrantTracker.

(** Goals with [/] and [mod] by constants. *)
Ltac euclid := zify; Z.to_euclidean_division_equations; lia.

(** What [scanstring] does after it has read the escape of a high
    surrogate [n]: the look-ahead for the escape of a low surrogate. *)
Definition scan_after_high (n : N) (tail acc : str) : option (str * str) :=
  match tail with
  | b :: u :: rest2' =>
    if (b =? BACKSLASH) && (u =? LETTER_u) then
      match rest2' with
      | l1 :: l2 :: l3 :: l4 :: rest3 =>
        match decode_hex4 l1 l2 l3 l4 with
        | None => None
        | Some uni2 =>
          if is_low_surrogate uni2
          then scanstring rest3 (join_surrogates n uni2 :: acc)
          else scanstring tail (n :: acc)
        end
      | _ => None
      end
    else scanstring tail (n :: acc)
  | _ => scanstring tail (n :: acc)
  end.

(** The four shapes of an escaped character. *)
Inductive escape_shape (c : char) : str → Prop :=
  | shape_plain :
      c ≠ QUOTE → c ≠ BACKSLASH → 0x20 ≤ c → c ≤ 0x7e →
      escape_shape c [c]
  | shape_short e :
      e ≠ LETTER_u → unescape e = Some c → c < 0x80 →
      escape_shape c [BACKSLASH; e]
  | shape_u :
      c < 0x10000 → escape_shape c (u_escape c)
  | shape_pair s1 s2 :
      0x10000 ≤ c → s1 < 0x10000 → s2 < 0x10000 →
      is_high_surrogate s1 = true → is_low_surrogate s2 = true →
      join_surrogates s1 s2 = wrap_char c →
      escape_shape c (u_escape s1 ++ u_escape s2).

(** Boolean comparisons in the hypotheses, as propositions. *)
Ltac bool_facts :=
  repeat match goal with
  | H : andb _ _ = true |- _ => apply andb_true_iff in H; destruct H
  | H : (_ <=? _) = true |- _ => apply N.leb_le in H
  | H : (_ <=? _) = false |- _ => apply N.leb_gt in H
  | H : (_ <? _) = true |- _ => apply N.ltb_lt in H
  | H : (_ <? _) = false |- _ => apply N.ltb_ge in H
  | H : (_ =? _) = true |- _ => apply N.eqb_eq in H
  | H : (_ =? _) = false |- _ => apply N.eqb_neq in H
  end.

(** The characters [json.dumps] writes. *)
Definition printable (c : char) : Prop := 0x20 ≤ c ∧ c ≤ 0x7e.

(** The database after UPDATE grants SET ... WHERE id = gid. *)
Definition updated (gid : str) (f : grants.row → grants.row) (d : Db.t) : Db.t :=
  Db.mk ((λ r, if decide (grants.id r = gid) then f r else r) <$> Db.grants d)
        (Db.submissions d) (Db.grant_notes d).

(** The row written by [_transition]. *)
Definition transition_row (ns : GrantStatus) (now notes : str) (r : grants.row)
  : grants.row :=
  let r1 := Sql.set_status (GrantStatus_value ns) now r in
  if truthy notes then Sql.set_notes notes r1 else r1.

(** The world after one clock reading and a write. *)
Definition tick (w : World) (d : Db.t) : World :=
  mkWorld d (uuid_source w) (λ n, clock w (S n)).

(** The parameters of [_transition] that may fail to bind, in the order
    they are bound: the clock reading and the notes. *)
Definition transition_params (notes : str) (w : World) : list param :=
  [PText (clock w 0%nat); PText notes].

(** The parameters of [award] that may fail to bind. *)
Definition award_params (actual : pynum) (w : World) : list param :=
  [PNum actual; PText (clock w 0%nat)].

(** The amount [award] binds. *)
Definition award_actual (award_amount : option pynum) (g : Grant.t) : pynum :=
  match award_amount with Some a => a | None => Grant.amount g end.

(** The row [submit] inserts. *)
Definition submission_row (gid notes submitted_by : str) (documents : option (list str))
    (w : World) : submissions.row :=
  submissions.mk (uuid_source w 0%nat) gid (clock w 0%nat) notes submitted_by
    (dumps (default [] documents)) (clock w 1%nat).

(** The database after an INSERT INTO submissions. *)
Definition with_submission (row : submissions.row) (d : Db.t) : Db.t :=
  Db.mk (Db.grants d) (Db.submissions d ++ [row]) (Db.grant_notes d).

(** The parameters of the INSERT of [submit] that may fail to bind, in
    the order they are bound. *)
Definition submit_params (notes submitted_by : str) (w : World) : list param :=
  [PText (uuid_source w 0%nat); PText (clock w 0%nat); PText notes; PText submitted_by;
   PText (clock w 1%nat)].

(** The world after [submit] drew an identifier and read the clock. *)
Definition submit_world (w : World) (d : Db.t) (readings : nat) : World :=
  mkWorld d (λ n, uuid_source w (S n)) (λ n, clock w (readings + n)%nat).

(** The opportunity [identify] returns. *)
Definition identified (title funder : str) (amount : pynum) (deadline : option str)
    (grant_type : GrantType) (purpose : str)
    (requirements contacts : option (list str)) (assigned_to : str) (w : World)
  : Grant.t :=
  Grant.mk (uuid_source w 0%nat) title funder amount grant_type purpose deadline
    IDENTIFIED (default [] requirements) [] (default [] contacts) None []
    assigned_to (clock w 0%nat) (clock w 0%nat).

(** The row that holds an opportunity whose amount is stored as [a]:
    enums by value, lists as JSON. *)
Definition row_of_grant (a : money) (g : Grant.t) : grants.row :=
  grants.mk (Grant.id g) (Grant.title g) (Grant.funder g) a
    (GrantType_value (Grant.type g)) (Grant.purpose g) (Grant.deadline g)
    (GrantStatus_value (Grant.status g))
    (dumps (Grant.requirements g)) (dumps (Grant.reporting_dates g))
    (dumps (Grant.contacts g))
    (Grant.award_amount g ≫= Sql.real_of) (Grant.notes g) (Grant.assigned_to g)
    (Grant.created_at g) (Grant.updated_at g).

(** The database after an INSERT INTO grants. *)
Definition with_grant (row : grants.row) (d : Db.t) : Db.t :=
  Db.mk (Db.grants d ++ [row]) (Db.submissions d) (Db.grant_notes d).

(** The database after an INSERT INTO grant_notes. *)
Definition with_note (row : grant_notes.row) (d : Db.t) : Db.t :=
  Db.mk (Db.grants d) (Db.submissions d) (Db.grant_notes d ++ [row]).

(** The world after one identifier and one clock reading were drawn. *)
Definition drawn (w : World) (d : Db.t) : World :=
  mkWorld d (λ n, uuid_source w (S n)) (λ n, clock w (S n)).

(** The parameters of [identify] that may fail to bind, in the order
    they are bound. *)
Definition identify_params (title funder : str) (amount : pynum)
    (deadline : option str) (purpose assigned_to : str) (w : World) : list param :=
  [PText (uuid_source w 0%nat); PText title; PText funder; PNum amount; PText purpose;
   opt_text deadline; PText assigned_to; PText (clock w 0%nat)].

(** The note [add_note] returns and the row it inserts. *)
Definition note_of (gid content author : str) (w : World) : GrantNote.t :=
  GrantNote.mk (uuid_source w 0%nat) gid content author (clock w 0%nat).

Definition row_of_note (n : GrantNote.t) : grant_notes.row :=
  grant_notes.mk (GrantNote.id n) (GrantNote.grant_id n) (GrantNote.content n)
    (GrantNote.author n) (GrantNote.created_at n).

(** The parameters of [add_note], in the order they are bound. *)
Definition add_note_params (gid content author : str) (w : World) : list param :=
  [PText (uuid_source w 0%nat); PText gid; PText content; PText author;
   PText (clock w 0%nat)].

(** The ways one call can change the database. *)
Inductive db_step (d : Db.t) : Db.t → Prop :=
  | db_same : db_step d d
  | db_transition gid ns now notes :
      db_step d (updated gid (transition_row ns now notes) d)
  | db_award gid actual dates now :
      db_step d (updated gid (Sql.set_award actual (dumps dates) now) d)
  | db_identify a g :
      Grant.id g ∉ grant_ids d → utf8_encodable (Grant.id g) = true → stored_real a →
      db_step d (with_grant (row_of_grant a g) d)
  | db_submit gid sid submitted_at notes submitted_by documents created_at now :
      gid ∈ grant_ids d →
      db_step d (updated gid (transition_row SUBMITTED now [])
                   (with_submission
                      (submissions.mk sid gid submitted_at notes submitted_by
                         (dumps documents) created_at) d))
  | db_submission gid sid submitted_at notes submitted_by documents created_at :
      gid ∈ grant_ids d →
      db_step d (with_submission
                   (submissions.mk sid gid submitted_at notes submitted_by
                      (dumps documents) created_at) d)
  | db_note row : db_step d (with_note row d).

(** An opportunity after [_transition]. *)
Definition transitioned (ns : GrantStatus) (now notes : str) (g : Grant.t) : Grant.t :=
  Grant.mk (Grant.id g) (Grant.title g) (Grant.funder g) (Grant.amount g)
    (Grant.type g) (Grant.purpose g) (Grant.deadline g) ns
    (Grant.requirements g) (Grant.reporting_dates g) (Grant.contacts g)
    (Grant.award_amount g) (if truthy notes then notes else Grant.notes g)
    (Grant.assigned_to g) (Grant.created_at g) now.

(** An opportunity as [get_grant] reads it back from its row, its amount
    stored as [a]. *)
Definition stored (a : money) (g : Grant.t) : Grant.t :=
  Grant.mk (Grant.id g) (Grant.title g) (Grant.funder g) (PyFloat a)
    (Grant.type g) (Grant.purpose g) (Grant.deadline g) (Grant.status g)
    (decoded <$> Grant.requirements g) (decoded <$> Grant.reporting_dates g)
    (decoded <$> Grant.contacts g)
    (PyFloat <$> (Grant.award_amount g ≫= Sql.real_of)) (Grant.notes g)
    (Grant.assigned_to g) (Grant.created_at g) (Grant.updated_at g).


(** The parameter of the SELECT of [success_rate]: the funder, when the
    condition is applied. *)
Definition filter_text (funder_filter : option str) : str :=
  default [] (applied_filter funder_filter).

(** A fresh tracker whose generator yields [u0, u1, ...] and whose clock
    reads [t0, t1, ...]. *)
Definition fresh_world : World :=
  mkWorld Db.empty (λ n, [117; N.of_nat n]) (λ n, [116; N.of_nat n]).

(** The same tracker after one opportunity was identified. *)
Definition world_with_grant : World :=
  (identify (lit "Grant") (lit "Funder") (PyInt 50000) None FOUNDATION []
     (Some [lit "IRS 501c3"]) None (lit "alice") fresh_world).2.

(** That opportunity, as [get_grant] returns it. *)
Definition the_grant : Grant.t :=
  Grant.mk [117; 0] (lit "Grant") (lit "Funder") (PyFloat (Float64.of_int 50000))
    FOUNDATION [] None
    IDENTIFIED [lit "IRS 501c3"] [] [] None [] (lit "alice") [116; 0] [116; 0].

(** The tracker after that opportunity was awarded with one reporting date. *)
Definition world_awarded : World :=
  (award [117; 0] (Some (PyInt 45000)) (Some [lit "2025-12-31"]) world_with_grant).2.

(** The awarded opportunity, as [get_grant] returns it. *)
Definition the_awarded_grant : Grant.t :=
  Grant.mk [117; 0] (lit "Grant") (lit "Funder") (PyFloat (Float64.of_int 50000))
    FOUNDATION [] None
    AWARDED [lit "IRS 501c3"] [lit "2025-12-31"] []
    (Some (PyFloat (Float64.of_int 45000))) []
    (lit "alice") [116; 0] [116; 1].

(** The tracker of [test_success_rate]: two opportunities, one awarded and
    one rejected. *)
Definition world_decided : World :=
  (perform (Reject [117; 1] [])
     (perform (Award [117; 0] None None)
        (perform (Identify (lit "G2") (lit "NSF") (PyInt 50000) None FOUNDATION []
                    None None [])
           (perform (Identify (lit "G1") (lit "NSF") (PyInt 100000) None FOUNDATION []
                       None None [])
              fresh_world).2).2).2).2.

(** The rows a SELECT returns: some of the rows of [grants], each once. *)
Definition selection (rows : list grants.row) (d : Db.t) : Prop :=
  ∃ rows0, rows ≡ₚ rows0 ∧ rows0 `sublist_of` Db.grants d.

(** The conditions [list_grants] puts on an opportunity: an omitted
    argument and an empty funder put none. *)
Definition matches_filters (status : option GrantStatus) (grant_type : option GrantType)
    (funder : option str) (g : Grant.t) : Prop :=
  (∀ s, status = Some s → Grant.status g = s)
  ∧ (∀ t, grant_type = Some t → Grant.type g = t)
  ∧ (∀ f, funder = Some f → f ≠ [] → Grant.funder g = f).

(** What [upcoming_deadlines] asks of an opportunity. *)
Definition due_between (today cutoff : str) (g : Grant.t) : Prop :=
  (Grant.status g = IDENTIFIED ∨ Grant.status g = APPLYING)
  ∧ ∃ dl, Grant.deadline g = Some dl
          ∧ Sql.text_leb today dl = true ∧ Sql.text_leb dl cutoff = true.

(** The entry of [reporting_calendar] for one reporting date of an
    opportunity. *)
Definition calendar_entry (g : Grant.t) (rd : str) : CalendarEntry.t :=
  CalendarEntry.mk (Grant.id g) (Grant.title g) (Grant.funder g) rd (Grant.award_amount g).

(** The entry of [get_pipeline] for the rows of one status. *)
Definition pipeline_entry (sum_real : list money → option money) (round2 : money → money)
    (rows : list grants.row) : PipelineEntry.t :=
  PipelineEntry.mk (length rows)
    (round2 (or_zero (sum_real (grants.amount <$> rows))))
    (round2 (or_zero (sum_real
       ((λ r, default Float64.zero (grants.award_amount r)) <$> rows)))).

(** The total [total_funding_by_type] reports for the awarded rows of
    one type. *)
Definition funding_total (sum_real : list money → option money) (round2 : money → money)
    (rows : list grants.row) : money :=
  round2 (or_zero match omap grants.award_amount rows with
                  | [] => None
                  | amounts => sum_real amounts
                  end).

(** The opportunity a call may update. *)
Definition updates (c : call) : option str :=
  match c with
  | Identify _ _ _ _ _ _ _ _ _ => None
  | Apply grant_id _ _ => Some grant_id
  | Submit grant_id _ _ _ => Some grant_id
  | Award grant_id _ _ => Some grant_id
  | Reject grant_id _ => Some grant_id
  | StartReporting grant_id => Some grant_id
  | Close grant_id => Some grant_id
  | AddNote _ _ _ => None
  end.

(** The statuses the transition methods write. *)
Definition transition_targets : list GrantStatus := [APPLYING; REJECTED; REPORTING; CLOSED].

(** What one call does to the database, with what each write carries. *)
Inductive db_change (c : call) (d : Db.t) : Db.t → Prop :=
  | change_none : db_change c d d
  | change_transition gid ns now notes :
      updates c = Some gid → gid ∈ grant_ids d → ns ∈ transition_targets →
      db_change c d (updated gid (transition_row ns now notes) d)
  | change_award gid actual dates now :
      updates c = Some gid → gid ∈ grant_ids d →
      db_change c d (updated gid (Sql.set_award actual (dumps dates) now) d)
  | change_identify a title funder amount deadline grant_type purpose requirements
      contacts assigned_to w0 :
      uuid_source w0 0%nat ∉ grant_ids d →
      db_change c d
        (with_grant
           (row_of_grant a (identified title funder amount deadline grant_type purpose
                              requirements contacts assigned_to w0)) d)
  | change_submit gid sid submitted_at notes submitted_by documents created_at now :
      updates c = Some gid → gid ∈ grant_ids d →
      sid ∉ submissions.id <$> Db.submissions d →
      db_change c d
        (updated gid (transition_row SUBMITTED now [])
           (with_submission
              (submissions.mk sid gid submitted_at notes submitted_by
                 (dumps documents) created_at) d))
  | change_submission gid sid submitted_at notes submitted_by documents created_at :
      updates c = Some gid → gid ∈ grant_ids d →
      sid ∉ submissions.id <$> Db.submissions d →
      db_change c d
        (with_submission
           (submissions.mk sid gid submitted_at notes submitted_by
              (dumps documents) created_at) d)
  | change_note row :
      grant_notes.id row ∉ grant_notes.id <$> Db.grant_notes d →
      db_change c d (with_note row d).

(** What the calls guarantee about a row, whatever their order: a row
    still [identified] was never written again. *)
Definition row_lifecycle (r : grants.row) : Prop :=
  grants.status r = lit "identified" →
  grants.award_amount r = None ∧ grants.reporting_dates r = dumps []
  ∧ grants.notes r = [] ∧ grants.updated_at r = grants.created_at r.

(** What every reachable database satisfies besides [db_consistent]. *)
Record db_history (d : Db.t) : Prop := {
  rows_lifecycle : Forall row_lifecycle (Db.grants d);
  submitted_rows :
    Forall (λ r, grants.status r = lit "submitted" →
                 grants.id r ∈ submissions.grant_id <$> Db.submissions d)
           (Db.grants d);
  submission_ids : NoDup (submissions.id <$> Db.submissions d);
  note_ids : NoDup (grant_notes.id <$> Db.grant_notes d);
}.

(** The columns no statement of the service writes after the INSERT. *)
Definition row_core (r : grants.row) :=
  (grants.id r, grants.title r, grants.funder r, grants.amount r, grants.type r,
   grants.purpose r, grants.deadline r, grants.requirements r, grants.contacts r,
   grants.assigned_to r, grants.created_at r).

(** The submission a row of [submissions] is read as. *)
Definition sub_of_row (r : submissions.row) : Submission.t :=
  Submission.mk (submissions.id r) (submissions.grant_id r) (submissions.submitted_at r)
    (submissions.notes r) (submissions.submitted_by r)
    (default [] (loads (submissions.documents r))) (submissions.created_at r).

(** The note a row of [grant_notes] is read as. *)
Definition note_of_row (r : grant_notes.row) : GrantNote.t :=
  GrantNote.mk (grant_notes.id r) (grant_notes.grant_id r) (grant_notes.content r)
    (grant_notes.author r) (grant_notes.created_at r).

(** The JSON columns of a row of [grants] hold printable ASCII only. *)
Definition row_ascii (r : grants.row) : Prop :=
  Forall printable (grants.requirements r)
  ∧ Forall printable (grants.reporting_dates r)
  ∧ Forall printable (grants.contacts r).

(** The tracker of [world_with_grant] after one submission. *)
Definition world_submitted : World :=
  (perform (Submit [117; 0] (lit "sent") (lit "alice") (Some [lit "proposal.pdf"]))
     world_with_grant).2.

(** The tracker of [world_awarded] after [start_reporting]: one
    opportunity in reporting, with the reporting date 2025-12-31. *)
Definition world_reporting : World :=
  (perform (StartReporting [117; 0]) world_awarded).2.

(** A tracker with three opportunities: two with a deadline, one
    without. *)
Definition world_listing : World :=
  (perform (Identify (lit "Arts") (lit "NEA") (PyInt 5000) (Some (lit "2026-11-10"))
              FOUNDATION [] None None [])
     (perform (Identify (lit "Lab") (lit "DOE") (PyInt 200000) None STATE [] None None [])
        (perform (Identify (lit "Seed") (lit "NSF") (PyInt 100000)
                    (Some (lit "2027-01-15")) FEDERAL [] None None [])
           fresh_world).2).2).2.

(** A tracker whose generator repeats the identifier of the stored
    opportunity. *)
Definition world_colliding : World :=
  mkWorld (db world_with_grant) (λ _, [117; 0]) (clock world_with_grant).

(** The opportunity of [world_submitted], as [get_grant] returns it. *)
Definition the_submitted_grant : Grant.t :=
  Grant.mk [117; 0] (lit "Grant") (lit "Funder") (PyFloat (Float64.of_int 50000))
    FOUNDATION [] None
    SUBMITTED [lit "IRS 501c3"] [] [] None [] (lit "alice") [116; 0] [116; 3].

(* ===================================================================== *)
(** * Properties *)
(* ===================================================================== *)

(* --------------------------------------------------------------------- *)
(** *** The codec: [json.loads] after [json.dumps] *)
(* --------------------------------------------------------------------- *)

Lemma lor_shiftl_add (a b k : N) : b < 2 ^ k → N.lor (N.shiftl a k) b = a * 2 ^ k + b.
Proof.
  intros Hb.
  assert (Hdis : N.land (N.shiftl a k) b = 0).
  { apply N.bits_inj. intros i. rewrite N.land_spec, N.bits_0.
    destruct (N.lt_ge_cases i k) as [Hi|Hi].
    - by rewrite N.shiftl_spec_low.
    - rewrite andb_false_iff. right.
      destruct (N.eq_dec b 0) as [->|Hnz]; [apply N.bits_0|].
      apply N.bits_above_log2. apply N.log2_lt_pow2; [lia|].
      eapply N.lt_le_trans; [exact Hb|]. by apply N.pow_le_mono_r. }
  rewrite <- N.lxor_lor by done.
  rewrite <- N.add_nocarry_lxor by done.
  by rewrite N.shiftl_mul_pow2.
Qed.

Lemma lor_high_bits (base x : N) (k : N) :
  x < 2 ^ k → N.shiftl (N.shiftr base k) k = base → N.lor base x = base + x.
Proof.
  intros Hx Hbase. rewrite <- Hbase at 1. rewrite lor_shiftl_add by done.
  rewrite <- N.shiftl_mul_pow2. by rewrite Hbase.
Qed.

Lemma land_0xf (a : N) : N.land a 0xf = a mod 16.
Proof. exact (N.land_ones a 4). Qed.

Lemma land_0x3ff (a : N) : N.land a 0x3ff = a mod 1024.
Proof. exact (N.land_ones a 10). Qed.

Lemma hexval_hexdigit d : d < 16 → hexval (hexdigit d) = Some d.
Proof.
  intros Hd. unfold hexval, hexdigit.
  destruct (N.ltb_spec d 10).
  - replace ((48 <=? 48 + d) && (48 + d <=? 57)) with true.
    + f_equal. lia.
    + symmetry. apply andb_true_iff. split; apply N.leb_le; lia.
  - replace ((48 <=? 87 + d) && (87 + d <=? 57)) with false.
    + replace ((97 <=? 87 + d) && (87 + d <=? 102)) with true.
      * f_equal. lia.
      * symmetry. apply andb_true_iff. split; apply N.leb_le; lia.
    + symmetry. apply andb_false_iff. right. apply N.leb_gt. lia.
Qed.

Lemma decode_hex4_hex4 n :
  n < 0x10000 →
  decode_hex4 (hexdigit (N.land (N.shiftr n 12) 0xf))
              (hexdigit (N.land (N.shiftr n 8) 0xf))
              (hexdigit (N.land (N.shiftr n 4) 0xf))
              (hexdigit (N.land n 0xf)) = Some n.
Proof.
  intros Hn. unfold decode_hex4.
  rewrite !land_0xf, !N.shiftr_div_pow2.
  rewrite !hexval_hexdigit by (apply N.mod_lt; lia).
  cbn [mbind option_bind]. f_equal.
  rewrite !lor_shiftl_add by (apply N.mod_lt; lia).
  change (2 ^ 12) with 4096. change (2 ^ 8) with 256. change (2 ^ 4) with 16.
  euclid.
Qed.

Lemma scan_u_escape n tail acc :
  n < 0x10000 →
  scanstring (u_escape n ++ tail) acc =
    if is_high_surrogate n then scan_after_high n tail acc
    else scanstring tail (n :: acc).
Proof.
  intros Hn. unfold u_escape, hex4.
  cbn [app scanstring].
  change (BACKSLASH =? QUOTE) with false. change (BACKSLASH =? BACKSLASH) with true.
  change (LETTER_u =? LETTER_u) with true. cbv iota.
  rewrite decode_hex4_hex4 by done.
  reflexivity.
Qed.

Lemma surrogate_pair_of_offset n :
  let s1 := N.lor 0xd800 (N.land (N.shiftr n 10) 0x3ff) in
  let s2 := N.lor 0xdc00 (N.land n 0x3ff) in
  s1 = 0xd800 + (n / 1024) mod 1024 ∧ s2 = 0xdc00 + n mod 1024.
Proof.
  cbv zeta. rewrite !land_0x3ff, N.shiftr_div_pow2.
  change (2 ^ 10) with 1024.
  split; apply (lor_high_bits _ _ 10); try reflexivity; apply N.mod_lt; lia.
Qed.

Lemma escape_char_shape c : escape_shape c (escape_char c).
Proof.
  unfold escape_char.
  destruct (N.eqb_spec c QUOTE) as [->|?]; [by apply shape_short|].
  destruct (N.eqb_spec c BACKSLASH) as [->|?]; [by apply shape_short|].
  destruct (N.eqb_spec c 10) as [->|?]; [by apply shape_short|].
  destruct (N.eqb_spec c 13) as [->|?]; [by apply shape_short|].
  destruct (N.eqb_spec c 9) as [->|?]; [by apply shape_short|].
  destruct (N.eqb_spec c 8) as [->|?]; [by apply shape_short|].
  destruct (N.eqb_spec c 12) as [->|?]; [by apply shape_short|].
  unfold SPACE, TILDE.
  destruct (N.leb_spec 32 c); destruct (N.leb_spec c 126); cbn [andb];
    try (apply shape_plain; unfold QUOTE, BACKSLASH in *; lia).
  all: destruct (N.ltb_spec c 0x10000); try (by apply shape_u).
  all: try lia.
  destruct (surrogate_pair_of_offset (c - 0x10000)) as [Hs1 Hs2].
  cbv zeta in Hs1, Hs2. cbv zeta. rewrite Hs1, Hs2.
  assert (((c - 65536) / 1024) mod 1024 < 1024) by (apply N.mod_lt; lia).
  assert ((c - 65536) mod 1024 < 1024) by (apply N.mod_lt; lia).
  apply shape_pair; try euclid.
  - unfold is_high_surrogate. apply andb_true_iff; split; apply N.leb_le; euclid.
  - unfold is_low_surrogate. apply andb_true_iff; split; apply N.leb_le; euclid.
  - unfold join_surrogates, wrap_char.
    destruct (N.ltb_spec c 0x10000); [lia|].
    rewrite lor_shiftl_add by (change (2 ^ 10) with 1024; lia).
    change (2 ^ 10) with 1024. euclid.
Qed.

Lemma high_false_of_small c : c < 0xD800 → is_high_surrogate c = false.
Proof. intros. unfold is_high_surrogate. apply andb_false_iff. left. apply N.leb_gt. lia. Qed.

Lemma low_false_of_small c : c < 0xDC00 → is_low_surrogate c = false.
Proof. intros. unfold is_low_surrogate. apply andb_false_iff. left. apply N.leb_gt. lia. Qed.

Lemma high_false_of_large c : 0xDBFF < c → is_high_surrogate c = false.
Proof. intros. unfold is_high_surrogate. apply andb_false_iff. right. apply N.leb_gt. lia. Qed.

Lemma low_false_of_large c : 0xDFFF < c → is_low_surrogate c = false.
Proof. intros. unfold is_low_surrogate. apply andb_false_iff. right. apply N.leb_gt. lia. Qed.

Lemma high_is_not_low c : is_high_surrogate c = true → is_low_surrogate c = false.
Proof.
  unfold is_high_surrogate. intros H. bool_facts. apply low_false_of_small. lia.
Qed.

Lemma wrap_char_small c : c < 0x10000 → wrap_char c = c.
Proof. intros. unfold wrap_char. by destruct (N.ltb_spec c 0x10000); [|lia]. Qed.

Lemma wrap_char_large c : 0x10000 ≤ c → 0x10000 ≤ wrap_char c.
Proof. intros. unfold wrap_char. destruct (N.ltb_spec c 0x10000); [lia|euclid]. Qed.

Lemma wrap_char_valid c : valid_char c → wrap_char c = c.
Proof.
  unfold valid_char, wrap_char. intros.
  destruct (N.ltb_spec c 0x10000); [done|]. euclid.
Qed.

Lemma is_high_wrap c : is_high_surrogate (wrap_char c) = is_high_surrogate c.
Proof.
  destruct (N.lt_ge_cases c 0x10000).
  - by rewrite wrap_char_small.
  - rewrite !high_false_of_large; [done|lia|]. pose proof (wrap_char_large c). lia.
Qed.

Lemma is_low_wrap c : is_low_surrogate (wrap_char c) = is_low_surrogate c.
Proof.
  destruct (N.lt_ge_cases c 0x10000).
  - by rewrite wrap_char_small.
  - rewrite !low_false_of_large; [done|lia|]. pose proof (wrap_char_large c). lia.
Qed.

(** Reading back the escape of a character that is not a high surrogate. *)
Lemma scan_escape_not_high c tail acc :
  is_high_surrogate c = false →
  scanstring (escape_char c ++ tail) acc = scanstring tail (wrap_char c :: acc).
Proof.
  intros Hc. destruct (escape_char_shape c) as [Hq Hb Hlo Hhi|e He Hu Hs|Hs|s1 s2 Hc1 Hs1 Hs2 Hh Hl Hj].
  - rewrite wrap_char_small by lia. cbn [app scanstring].
    apply N.eqb_neq in Hq, Hb. rewrite Hq, Hb.
    by destruct (N.ltb_spec c 0x20); [lia|].
  - rewrite wrap_char_small by lia. cbn [app scanstring].
    change (BACKSLASH =? QUOTE) with false. change (BACKSLASH =? BACKSLASH) with true.
    cbv iota. apply N.eqb_neq in He. by rewrite He, Hu.
  - rewrite wrap_char_small by done. rewrite scan_u_escape by done. by rewrite Hc.
  - rewrite <- (assoc_L (++)). rewrite scan_u_escape by done. rewrite Hh.
    unfold u_escape at 1, hex4. cbn [app scan_after_high].
    change (BACKSLASH =? BACKSLASH) with true. change (LETTER_u =? LETTER_u) with true.
    cbn [andb]. cbv iota.
    rewrite decode_hex4_hex4 by done. by rewrite Hl, Hj.
Qed.

Lemma scan_after_high_quote n rest acc :
  scan_after_high n (QUOTE :: rest) acc = scanstring (QUOTE :: rest) (n :: acc).
Proof. by destruct rest. Qed.

(** Reading on after a high surrogate: the next character joins it when
    it is a low surrogate. *)
Lemma scan_after_high_escape n c tail acc :
  scan_after_high n (escape_char c ++ tail) acc =
    if is_low_surrogate c
    then scanstring tail (join_surrogates n c :: acc)
    else scanstring (escape_char c ++ tail) (n :: acc).
Proof.
  destruct (escape_char_shape c) as [Hq Hb Hlo Hhi|e He Hu Hs|Hs|s1 s2 Hc1 Hs1 Hs2 Hh Hl Hj].
  - rewrite low_false_of_small by lia. cbn [app].
    apply N.eqb_neq in Hb. unfold scan_after_high.
    destruct tail; [done|]. by rewrite Hb.
  - rewrite low_false_of_small by lia. cbn [app]. unfold scan_after_high.
    apply N.eqb_neq in He. rewrite He. by rewrite andb_false_r.
  - unfold u_escape, hex4. cbn [app scan_after_high].
    change (BACKSLASH =? BACKSLASH) with true. change (LETTER_u =? LETTER_u) with true.
    cbn [andb]. cbv iota. rewrite decode_hex4_hex4 by done. done.
  - rewrite low_false_of_large by lia.
    unfold u_escape at 1, hex4. cbn [app scan_after_high].
    change (BACKSLASH =? BACKSLASH) with true. change (LETTER_u =? LETTER_u) with true.
    cbn [andb]. cbv iota. rewrite decode_hex4_hex4 by done.
    by rewrite (high_is_not_low s1).
Qed.

Lemma merge_surrogates_cons_not_high h s :
  is_high_surrogate h = false → merge_surrogates (h :: s) = h :: merge_surrogates s.
Proof. intros Hh. cbn [merge_surrogates]. rewrite Hh. by destruct s. Qed.

Lemma merge_surrogates_cons_not_low h l s :
  is_low_surrogate l = false →
  merge_surrogates (h :: l :: s) = h :: merge_surrogates (l :: s).
Proof. intros Hl. cbn [merge_surrogates]. rewrite Hl. by rewrite andb_false_r. Qed.

Lemma encode_chars_cons c s : encode_chars (c :: s) = escape_char c ++ encode_chars s.
Proof. done. Qed.

Lemma escape_char_above_tilde c :
  0x7e < c < 0x10000 → escape_char c = u_escape c.
Proof.
  intros [Hlo Hhi]. unfold escape_char, QUOTE, BACKSLASH, SPACE, TILDE.
  repeat match goal with
  | |- context [c =? ?k] => replace (c =? k) with false by (symmetry; apply N.eqb_neq; lia)
  end.
  replace (c <=? 126) with false by (symmetry; apply N.leb_gt; lia).
  replace (c <? 0x10000) with true by (symmetry; apply N.ltb_lt; lia).
  by rewrite andb_false_r.
Qed.

Lemma scan_encode_chars_bounded n : ∀ s acc rest,
  (length s ≤ n)%nat →
  scanstring (encode_chars s ++ QUOTE :: rest) acc = Some (reverse acc ++ decoded s, rest).
Proof.
  induction n as [|n IH]; intros s acc rest Hlen.
  - destruct s; [|cbn in Hlen; lia]. cbn. by rewrite app_nil_r.
  - destruct s as [|c s]; [cbn; by rewrite app_nil_r|].
    cbn [length] in Hlen. rewrite encode_chars_cons, <- (assoc_L (++)).
    destruct (is_high_surrogate c) eqn:Hc.
    + assert (c < 0x10000) as Hsmall.
      { unfold is_high_surrogate in Hc. bool_facts. lia. }
      rewrite escape_char_above_tilde by (unfold is_high_surrogate in Hc; bool_facts; lia).
      rewrite scan_u_escape by done. rewrite Hc.
      destruct s as [|c2 s].
      * cbn [encode_chars mbind list_bind app]. rewrite scan_after_high_quote.
        cbn [scanstring]. change (QUOTE =? QUOTE) with true. cbv iota.
        unfold decoded. cbn [fmap list_fmap merge_surrogates].
        rewrite wrap_char_small by done. by rewrite reverse_cons.
      * rewrite encode_chars_cons, <- (assoc_L (++)).
        rewrite scan_after_high_escape.
        unfold decoded. rewrite !fmap_cons. rewrite (wrap_char_small c) by done.
        destruct (is_low_surrogate c2) eqn:Hc2.
        -- rewrite IH by (cbn [length] in Hlen; lia).
           assert (c2 < 0x10000) as Hsmall2.
           { unfold is_low_surrogate in Hc2. bool_facts. lia. }
           rewrite (wrap_char_small c2) by done.
           cbn [merge_surrogates]. rewrite Hc, Hc2. cbn [andb].
           rewrite reverse_cons, <- (assoc_L (++)). done.
        -- rewrite (assoc_L (++)), <- encode_chars_cons.
           rewrite IH by (cbn [length] in *; lia).
           rewrite merge_surrogates_cons_not_low by (by rewrite is_low_wrap).
           rewrite reverse_cons, <- (assoc_L (++)). unfold decoded. by rewrite fmap_cons.
    + rewrite scan_escape_not_high by done.
      rewrite IH by lia. unfold decoded. rewrite fmap_cons.
      rewrite merge_surrogates_cons_not_high by (by rewrite is_high_wrap).
      rewrite reverse_cons, <- (assoc_L (++)). done.
Qed.

Lemma scan_encode_chars s acc rest :
  scanstring (encode_chars s ++ QUOTE :: rest) acc = Some (reverse acc ++ decoded s, rest).
Proof. by apply (scan_encode_chars_bounded (length s)). Qed.

Lemma encode_items_head s l : ∃ t, encode_items (s :: l) = QUOTE :: t.
Proof. destruct l; cbn [encode_items encode_string app]; eauto. Qed.

Lemma encode_items_cons s s' l :
  encode_items (s :: s' :: l) =
    QUOTE :: encode_chars s ++ QUOTE :: COMMA :: SPACE :: encode_items (s' :: l).
Proof.
  change (encode_items (s :: s' :: l))
    with (encode_string s ++ COMMA :: SPACE :: encode_items (s' :: l)).
  unfold encode_string at 1. cbn [app]. by rewrite <- (assoc_L (++)).
Qed.

Lemma parse_items_encode l : ∀ s fuel acc rest,
  (length l < fuel)%nat →
  parse_items fuel (encode_items (s :: l) ++ RBRACKET :: rest) acc =
    Some (reverse acc ++ (decoded <$> s :: l), rest).
Proof.
  induction l as [|s' l IH]; intros s fuel acc rest Hfuel;
    (destruct fuel as [|fuel]; [cbn [length] in Hfuel; lia|]).
  - cbn [encode_items encode_string app parse_items].
    change (QUOTE =? QUOTE) with true. cbv iota.
    rewrite <- (assoc_L (++)). cbn [app].
    rewrite scan_encode_chars. cbn [reverse app skip_ws].
    change (is_whitespace RBRACKET) with false. cbv iota.
    change (RBRACKET =? RBRACKET) with true. cbv iota.
    by rewrite reverse_cons.
  - rewrite encode_items_cons. cbn [app parse_items].
    change (QUOTE =? QUOTE) with true. cbv iota.
    rewrite <- (assoc_L (++)). cbn [app].
    rewrite scan_encode_chars. cbn [reverse app skip_ws].
    change (is_whitespace COMMA) with false. cbv iota.
    change (COMMA =? RBRACKET) with false. change (COMMA =? COMMA) with true.
    cbv iota.
    destruct (encode_items_head s' l) as [t Ht].
    assert (skip_ws (SPACE :: encode_items (s' :: l) ++ RBRACKET :: rest)
            = encode_items (s' :: l) ++ RBRACKET :: rest) as ->.
    { rewrite Ht. reflexivity. }
    rewrite IH by (cbn [length] in Hfuel; lia).
    rewrite reverse_cons, <- (assoc_L (++)). by rewrite (fmap_cons decoded s).
Qed.

Lemma length_encode_items l : (length l ≤ length (encode_items l))%nat.
Proof.
  induction l as [|s l IH]; [done|].
  destruct l as [|s' l].
  - cbn. lia.
  - rewrite encode_items_cons. cbn [length] in *. rewrite length_app. cbn [length]. lia.
Qed.

(** What [json.loads] returns for the text [json.dumps] wrote. *)
Lemma loads_dumps l : loads (dumps l) = Some (decoded <$> l).
Proof.
  unfold loads, dumps. cbn [skip_ws].
  change (is_whitespace LBRACKET) with false. cbv iota.
  unfold parse_array. change (LBRACKET =? LBRACKET) with true. cbv iota.
  destruct l as [|s l].
  - reflexivity.
  - destruct (encode_items_head s l) as [t Ht].
    assert (skip_ws (encode_items (s :: l) ++ [RBRACKET])
            = encode_items (s :: l) ++ [RBRACKET]) as Hskip.
    { rewrite Ht. reflexivity. }
    rewrite Hskip. rewrite Ht at 1. cbn [app].
    change (QUOTE =? RBRACKET) with false. cbv iota.
    change (QUOTE :: t ++ [RBRACKET]) with ((QUOTE :: t) ++ [RBRACKET]).
    rewrite <- Ht. rewrite parse_items_encode.
    + reflexivity.
    + pose proof (length_encode_items (s :: l)) as Hl.
      cbn [length] in *. rewrite length_app. cbn [length]. lia.
Qed.

Lemma merge_surrogates_no_pair s :
  has_surrogate_pair s = false → merge_surrogates s = s.
Proof.
  induction s as [|h tl IH]; [done|].
  destruct tl as [|l rest]; [done|].
  change (has_surrogate_pair (h :: l :: rest))
    with ((is_high_surrogate h && is_low_surrogate l) || has_surrogate_pair (l :: rest)).
  intros [Hp Hrest]%orb_false_iff.
  change (merge_surrogates (h :: l :: rest))
    with (if is_high_surrogate h && is_low_surrogate l
          then join_surrogates h l :: merge_surrogates rest
          else h :: merge_surrogates (l :: rest)).
  rewrite Hp. f_equal. by apply IH.
Qed.

Lemma fmap_wrap_char_valid s : valid_str s → wrap_char <$> s = s.
Proof.
  induction 1 as [|c s Hc Hs IH]; [done|].
  rewrite fmap_cons, IH. f_equal. by apply wrap_char_valid.
Qed.

Lemma decoded_id s :
  valid_str s → has_surrogate_pair s = false → decoded s = s.
Proof.
  intros Hv Hp. unfold decoded.
  rewrite fmap_wrap_char_valid by done. by apply merge_surrogates_no_pair.
Qed.

Lemma fmap_decoded_id (l : list str) :
  Forall valid_str l →
  Forall (λ s, has_surrogate_pair s = false) l →
  decoded <$> l = l.
Proof.
  intros Hv Hp. induction l as [|s l IH]; [done|].
  inversion_clear Hv. inversion_clear Hp.
  by rewrite fmap_cons, decoded_id, IH.
Qed.

Lemma length_merge_surrogates_bounded n : ∀ s,
  (length s ≤ n)%nat →
  (length (merge_surrogates s) ≤ length s)%nat
  ∧ (has_surrogate_pair s = true → (length (merge_surrogates s) < length s)%nat).
Proof.
  induction n as [|n IH]; intros s Hlen.
  - destruct s; [|cbn in Hlen; lia]. cbn. split; [lia|done].
  - destruct s as [|h tl]; [cbn; split; [lia|done]|].
    destruct tl as [|l rest]; [cbn; split; [lia|done]|].
    change (has_surrogate_pair (h :: l :: rest))
      with ((is_high_surrogate h && is_low_surrogate l) || has_surrogate_pair (l :: rest)).
    change (merge_surrogates (h :: l :: rest))
      with (if is_high_surrogate h && is_low_surrogate l
            then join_surrogates h l :: merge_surrogates rest
            else h :: merge_surrogates (l :: rest)).
    cbn [length] in Hlen.
    destruct (is_high_surrogate h && is_low_surrogate l).
    + destruct (IH rest ltac:(lia)) as [Hle _]. cbn [length]. split; [lia|]. intros _. lia.
    + destruct (IH (l :: rest) ltac:(cbn [length]; lia)) as [Hle Hlt].
      cbn [length orb] in *. split; [lia|]. intros Hp. specialize (Hlt Hp). lia.
Qed.

Lemma merge_surrogates_fixed s : merge_surrogates s = s → has_surrogate_pair s = false.
Proof.
  intros Hfix. destruct (has_surrogate_pair s) eqn:Hp; [|done].
  destruct (length_merge_surrogates_bounded (length s) s ltac:(lia)) as [_ Hlt].
  specialize (Hlt Hp). rewrite Hfix in Hlt. lia.
Qed.

Lemma decoded_fixed s : valid_str s → decoded s = s → has_surrogate_pair s = false.
Proof.
  intros Hv. unfold decoded. rewrite fmap_wrap_char_valid by done.
  apply merge_surrogates_fixed.
Qed.

(** Among Python strings, the round trip is the identity exactly on the
    lists whose strings hold no surrogate pair. *)
Lemma json_roundtrip_iff (l : list str) :
  Forall valid_str l →
  loads (dumps l) = Some l ↔ Forall (λ s, has_surrogate_pair s = false) l.
Proof.
  intros Hv. rewrite loads_dumps. split.
  - intros [= Hfix].
    induction Hv as [|s l Hs Hl IH]; [constructor|].
    rewrite fmap_cons in Hfix. injection Hfix as Hs' Hl'.
    constructor; [by apply decoded_fixed|by apply IH].
  - intros Hp. by rewrite fmap_decoded_id.
Qed.

Lemma hexdigit_printable a : printable (hexdigit (N.land a 0xf)).
Proof.
  rewrite land_0xf. pose proof (N.mod_lt a 16 ltac:(lia)) as Hlt.
  generalize dependent (a mod 16). intros m Hlt.
  unfold printable, hexdigit. destruct (N.ltb_spec m 10); lia.
Qed.

Lemma u_escape_printable n : Forall printable (u_escape n).
Proof.
  unfold u_escape, hex4, BACKSLASH, LETTER_u.
  repeat constructor; try lia; apply hexdigit_printable.
Qed.

Lemma escape_char_printable c : Forall printable (escape_char c).
Proof.
  unfold escape_char, QUOTE, BACKSLASH, LETTER_n, LETTER_r, LETTER_t, LETTER_b, LETTER_f,
    SPACE, TILDE.
  repeat (destruct (_ =? _); [repeat constructor; lia|]).
  destruct (N.leb_spec 32 c), (N.leb_spec c 126); cbn [andb].
  1: by repeat constructor.
  all: destruct (_ <? _); [apply u_escape_printable|];
    apply Forall_app; split; apply u_escape_printable.
Qed.

Lemma encode_string_printable s : Forall printable (encode_string s).
Proof.
  unfold encode_string, encode_chars, QUOTE. constructor; [unfold printable; lia|].
  apply Forall_app. split; [|repeat constructor; lia].
  induction s as [|c s IH]; [constructor|].
  cbn [mbind list_bind]. apply Forall_app. split; [apply escape_char_printable|exact IH].
Qed.

Lemma encode_items_printable l : Forall printable (encode_items l).
Proof.
  induction l as [|s l IH]; [constructor|].
  destruct l as [|s' l]; [apply encode_string_printable|].
  change (encode_items (s :: s' :: l))
    with (encode_string s ++ COMMA :: SPACE :: encode_items (s' :: l)).
  apply Forall_app. split; [apply encode_string_printable|].
  unfold COMMA, SPACE. repeat (constructor; [unfold printable; lia|]). exact IH.
Qed.

Lemma dumps_printable l : Forall printable (dumps l).
Proof.
  unfold dumps, LBRACKET, RBRACKET. constructor; [unfold printable; lia|].
  apply Forall_app. split; [apply encode_items_printable|].
  repeat constructor; lia.
Qed.

Lemma printable_encodable s : Forall printable s → utf8_encodable s = true.
Proof.
  induction 1 as [|c s [Hlo Hhi] _ IH]; [done|].
  cbn [utf8_encodable forallb]. apply andb_true_iff. split; [|exact IH].
  apply orb_true_iff. left. apply N.ltb_lt. lia.
Qed.

Lemma dumps_encodable l : utf8_encodable (dumps l) = true.
Proof. apply printable_encodable, dumps_printable. Qed.

(* --------------------------------------------------------------------- *)
(** *** Running the methods; what every call preserves *)
(* --------------------------------------------------------------------- *)

Lemma row_to_grant_run r w : _row_to_grant r w = (read_row r, w).
Proof.
  unfold read_row, _row_to_grant. 
  unfold mbind, M_bind, or_raise, raise, mret, M_ret.
  destruct (GrantType_of_value _); [|done].
  destruct (GrantStatus_of_value _); [|done].
  destruct (loads (grants.requirements r)); [|done].
  destruct (loads (grants.reporting_dates r)); [|done].
  destruct (loads (grants.contacts r)); done.
Qed.

Lemma bind_run {A B} (m : M A) (f : A → M B) w :
  (m ≫= f) w =
    match m w with
    | (Return a, w') => f a w'
    | (Raise e, w') => (Raise e, w')
    end.
Proof. done. Qed.

(** Binding one text. *)
Lemma bind_text s : bind_params [PText s] = if utf8_encodable s then None else Some UnicodeEncodeError.
Proof. cbn. by destruct (utf8_encodable s). Qed.

Lemma get_grant_run gid w : get_grant gid w = (find_grant (db w) gid, w).
Proof.
  unfold find_grant, get_grant. rewrite !bind_run. unfold query_bound.
  rewrite bind_text. cbn [db world_of]. destruct (utf8_encodable gid); [|done].
  destruct (Sql.select_grant gid (db w)) as [r|]; [|done].
  rewrite !bind_run, !row_to_grant_run. by destruct (read_row r).
Qed.

Lemma find_grant_unfold d gid :
  find_grant d gid =
    if utf8_encodable gid then
      match Sql.select_grant gid d with
      | Some r => match read_row r with Return g => Return (Some g) | Raise e => Raise e end
      | None => Return None
      end
    else Raise UnicodeEncodeError.
Proof.
  unfold find_grant, get_grant. rewrite !bind_run. unfold query_bound.
  rewrite bind_text. cbn [db world_of]. destruct (utf8_encodable gid); [|done].
  destruct (Sql.select_grant gid d) as [r|]; [|done].
  rewrite !bind_run, !row_to_grant_run. by destruct (read_row r).
Qed.

Lemma read_row_Return r g :
  read_row r = Return g ↔
  ∃ ty st rq rd ct,
    GrantType_of_value (grants.type r) = Some ty
    ∧ GrantStatus_of_value (grants.status r) = Some st
    ∧ loads (grants.requirements r) = Some rq
    ∧ loads (grants.reporting_dates r) = Some rd
    ∧ loads (grants.contacts r) = Some ct
    ∧ g = Grant.mk (grants.id r) (grants.title r) (grants.funder r)
            (PyFloat (grants.amount r)) ty (grants.purpose r) (grants.deadline r) st
            rq rd ct (PyFloat <$> grants.award_amount r) (grants.notes r)
            (grants.assigned_to r) (grants.created_at r) (grants.updated_at r).
Proof.
  unfold read_row, _row_to_grant. 
  unfold mbind, M_bind, or_raise, raise, mret, M_ret.
  split.
  - destruct (GrantType_of_value _) as [ty|]; [|done].
    destruct (GrantStatus_of_value _) as [st|]; [|done].
    destruct (loads (grants.requirements r)) as [rq|]; [|done].
    destruct (loads (grants.reporting_dates r)) as [rd|]; [|done].
    destruct (loads (grants.contacts r)) as [ct|]; [|done].
    cbn. intros [= <-]. by exists ty, st, rq, rd, ct.
  - intros (ty & st & rq & rd & ct & -> & -> & -> & -> & -> & ->). done.
Qed.

Lemma read_row_readable r : row_readable r ↔ ∃ g, read_row r = Return g.
Proof.
  split.
  - intros ([ty Hty] & [st Hst] & [rq Hrq] & [rd Hrd] & [ct Hct]).
    eexists. apply read_row_Return. by exists ty, st, rq, rd, ct.
  - intros [g (ty & st & rq & rd & ct & Hty & Hst & Hrq & Hrd & Hct & _)%read_row_Return].
    by repeat split; eexists.
Qed.

Lemma GrantStatus_of_value_value st : GrantStatus_of_value (GrantStatus_value st) = Some st.
Proof. by destruct st; vm_compute. Qed.

Lemma GrantType_of_value_value ty : GrantType_of_value (GrantType_value ty) = Some ty.
Proof. by destruct ty; vm_compute. Qed.

Lemma GrantStatus_of_value_Some v st :
  GrantStatus_of_value v = Some st → v = GrantStatus_value st.
Proof.
  unfold GrantStatus_of_value. intros H%head_Some_elem_of.
  apply list_elem_of_filter in H as [H _]. done.
Qed.

Lemma GrantStatus_value_encodable st : utf8_encodable (GrantStatus_value st) = true.
Proof. by destruct st; vm_compute. Qed.

Lemma GrantType_value_encodable ty : utf8_encodable (GrantType_value ty) = true.
Proof. by destruct ty; vm_compute. Qed.

Section select.
  Context (d : Db.t).

Lemma select_grant_None gid : Sql.select_grant gid d = None ↔ gid ∉ grant_ids d.
Proof.
  unfold Sql.select_grant, grant_ids. rewrite head_None.
  rewrite list_elem_of_fmap. split.
  - intros Hnil (r & -> & Hr).
    assert (r ∈ filter (λ r0, grants.id r0 = grants.id r) (Db.grants d)) as Hin
      by by apply list_elem_of_filter.
    rewrite Hnil in Hin. by apply not_elem_of_nil in Hin.
  - intros Hno.
    destruct (filter _ (Db.grants d)) as [|r l] eqn:E; [done|].
    assert (r ∈ filter (λ r0, grants.id r0 = gid) (Db.grants d)) as Hin
      by (rewrite E; left).
    apply list_elem_of_filter in Hin as [<- Hr]. exfalso. apply Hno. eauto.
Qed.

Lemma select_grant_Some gid r :
  Sql.select_grant gid d = Some r → r ∈ Db.grants d ∧ grants.id r = gid.
Proof.
  unfold Sql.select_grant. intros H%head_Some_elem_of.
  by apply list_elem_of_filter in H as [? ?].
Qed.

Lemma select_grant_is_Some gid :
  gid ∈ grant_ids d → is_Some (Sql.select_grant gid d).
Proof.
  intros Hin. destruct (Sql.select_grant gid d) eqn:E; [done|].
  by apply select_grant_None in E.
Qed.
End select.

Lemma head_filter_fmap {A} (P : A → Prop) `{∀ x, Decision (P x)} (f : A → A) (l : list A) :
  (∀ x, P (f x) ↔ P x) →
  head (filter P (f <$> l)) = f <$> head (filter P l).
Proof.
  intros Hf. induction l as [|x l IH]; [done|].
  rewrite fmap_cons, !filter_cons.
  destruct (decide (P (f x))) as [Hp|Hp]; destruct (decide (P x)) as [Hq|Hq].
  - done.
  - exfalso. by apply Hq, Hf.
  - exfalso. by apply Hp, Hf.
  - exact IH.
Qed.

Lemma select_grant_updated gid f d gid' :
  (∀ r, grants.id (f r) = grants.id r) →
  Sql.select_grant gid' (updated gid f d)
  = (λ r, if decide (grants.id r = gid) then f r else r) <$> Sql.select_grant gid' d.
Proof.
  intros Hf. unfold Sql.select_grant, updated. cbn [Db.grants].
  apply head_filter_fmap. intros r. by destruct (decide _); rewrite ?Hf.
Qed.

Lemma grant_ids_updated gid f d :
  (∀ r, grants.id (f r) = grants.id r) → grant_ids (updated gid f d) = grant_ids d.
Proof.
  intros Hf. unfold grant_ids, updated. cbn [Db.grants].
  rewrite <- list_fmap_compose. apply list_fmap_ext. intros i r _. cbn.
  by destruct (decide _); rewrite ?Hf.
Qed.

Lemma updated_updated gid f1 f2 d :
  (∀ r, grants.id (f1 r) = grants.id r) →
  updated gid f2 (updated gid f1 d) = updated gid (f2 ∘ f1) d.
Proof.
  intros Hf. unfold updated. cbn [Db.grants Db.submissions Db.grant_notes]. f_equal.
  rewrite <- list_fmap_compose. apply list_fmap_ext. intros i r _. cbn.
  destruct (decide (grants.id r = gid)) as [Hr|Hr].
  - by rewrite decide_True by (by rewrite Hf).
  - by rewrite decide_False.
Qed.

Lemma find_grant_Some d gid g :
  find_grant d gid = Return (Some g) ↔
  utf8_encodable gid = true
  ∧ ∃ r, Sql.select_grant gid d = Some r ∧ read_row r = Return g.
Proof.
  rewrite find_grant_unfold. destruct (utf8_encodable gid); split.
  - destruct (Sql.select_grant gid d) as [r|]; [|done].
    destruct (read_row r) eqn:E; [|done]. intros [= <-]. eauto.
  - intros (_ & r & -> & ->). done.
  - done.
  - by intros [? _].
Qed.

Lemma find_grant_updated gid f d r :
  (∀ r, grants.id (f r) = grants.id r) →
  utf8_encodable gid = true →
  Sql.select_grant gid d = Some r →
  find_grant (updated gid f d) gid =
    match read_row (f r) with Return g => Return (Some g) | Raise e => Raise e end.
Proof.
  intros Hf Henc Hsel. rewrite find_grant_unfold, Henc, select_grant_updated, Hsel by done.
  cbn [fmap option_fmap option_map]. apply select_grant_Some in Hsel as [_ Hid].
  by rewrite decide_True.
Qed.

Lemma find_grant_None d gid :
  gid ∉ grant_ids d → utf8_encodable gid = true → find_grant d gid = Return None.
Proof. intros H%select_grant_None Henc. by rewrite find_grant_unfold, Henc, H. Qed.

Lemma find_grant_unencodable d gid :
  utf8_encodable gid = false → find_grant d gid = Raise UnicodeEncodeError.
Proof. intros Henc. by rewrite find_grant_unfold, Henc. Qed.

Lemma find_grant_grants d d' gid :
  Db.grants d = Db.grants d' → find_grant d gid = find_grant d' gid.
Proof.
  intros H. rewrite !find_grant_unfold. unfold Sql.select_grant. by rewrite H.
Qed.

Lemma find_grant_cases d gid :
  (∃ g, find_grant d gid = Return (Some g) ∧ gid ∈ grant_ids d
        ∧ utf8_encodable gid = true)
  ∨ find_grant d gid = Return None
  ∨ ∃ e, find_grant d gid = Raise e.
Proof.
  rewrite find_grant_unfold. destruct (utf8_encodable gid); [|right; right; eauto].
  destruct (Sql.select_grant gid d) as [r|] eqn:Hsel; [|by right; left].
  destruct (read_row r) as [g|e]; [|right; right; eauto].
  left. exists g. split; [done|]. split; [|done].
  apply select_grant_Some in Hsel as [Hin <-]. unfold grant_ids.
  by apply list_elem_of_fmap_2.
Qed.

Lemma transition_row_id ns now notes r :
  grants.id (transition_row ns now notes r) = grants.id r.
Proof. unfold transition_row. by destruct (truthy notes). Qed.

Lemma transition_params_cases notes w :
  (bind_params (transition_params notes w) = None
   ∧ utf8_encodable (clock w 0%nat) = true ∧ utf8_encodable notes = true)
  ∨ (bind_params (transition_params notes w) = Some UnicodeEncodeError
     ∧ (utf8_encodable (clock w 0%nat) = false ∨ utf8_encodable notes = false)).
Proof.
  unfold transition_params. cbn [bind_params bind_param].
  destruct (utf8_encodable (clock w 0%nat)), (utf8_encodable notes); auto.
Qed.

Lemma transition_run gid ns notes w :
  (∃ g, find_grant (db w) gid = Return (Some g)) →
  bind_params (transition_params notes w) = None →
  let d' := updated gid (transition_row ns (clock w 0%nat) notes) (db w) in
  _transition gid ns notes w = (find_grant d' gid, tick w d').
Proof.
  intros [g Hg] Hbind. cbv zeta.
  destruct (transition_params_cases notes w) as [(_ & Hnow & Hnotes)|[Hb _]]; [|congruence].
  pose proof Hg as [Hgid _]%find_grant_Some.
  unfold _transition. rewrite bind_run, get_grant_run, Hg.
  rewrite bind_run. unfold utcnow. rewrite bind_run. unfold transaction.
  rewrite bind_run. unfold execute at 1. cbn [bind_params bind_param db clock uuid_source].
  rewrite GrantStatus_value_encodable, Hnow, Hgid.
  unfold Sql.update_status, Sql.update_notes, Sql.update_grants. cbn [db clock uuid_source].
  unfold transition_row.
  destruct (truthy notes).
  - unfold execute. cbn [bind_params bind_param db clock uuid_source]. rewrite Hnotes, Hgid.
    cbn [db clock uuid_source Db.grants Db.submissions Db.grant_notes].
    rewrite get_grant_run. cbn [db]. unfold tick.
    pose proof (updated_updated gid (Sql.set_status (GrantStatus_value ns) (clock w 0%nat))
                  (Sql.set_notes notes) (db w)) as Hupd.
    unfold updated in *. cbn [Db.grants Db.submissions Db.grant_notes] in Hupd.
    rewrite Hupd by done. done.
  - unfold mret, M_ret. rewrite get_grant_run. done.
Qed.

(** A parameter of [_transition] that does not bind: the call raises and
    the transaction leaves the database as it was. *)
Lemma transition_raises gid ns notes w e :
  (∃ g, find_grant (db w) gid = Return (Some g)) →
  bind_params (transition_params notes w) = Some e →
  _transition gid ns notes w = (Raise UnicodeEncodeError, tick w (db w)).
Proof.
  intros [g Hg] Hbind.
  destruct (transition_params_cases notes w) as [(Hb & _)|[_ Hbad]]; [congruence|].
  pose proof Hg as [Hgid _]%find_grant_Some.
  unfold _transition. rewrite bind_run, get_grant_run, Hg.
  rewrite bind_run. unfold utcnow. rewrite bind_run. unfold transaction.
  rewrite bind_run. unfold execute at 1. cbn [bind_params bind_param db clock uuid_source].
  rewrite GrantStatus_value_encodable.
  destruct (utf8_encodable (clock w 0%nat)) eqn:Hnow; [|done].
  destruct Hbad as [|Hnotes]; [done|]. rewrite Hgid.
  unfold Sql.update_status, Sql.update_grants. cbn [db clock uuid_source].
  destruct notes as [|c notes]; [done|]. cbn [truthy].
  unfold execute. cbn [bind_params bind_param db clock uuid_source]. by rewrite Hnotes.
Qed.

Lemma transition_unknown gid ns notes w :
  gid ∉ grant_ids (db w) → utf8_encodable gid = true →
  _transition gid ns notes w = (Return None, w).
Proof.
  intros H Henc. unfold _transition. rewrite bind_run.
  by rewrite get_grant_run, find_grant_None.
Qed.

Lemma transition_not_found gid ns notes w :
  find_grant (db w) gid = Return None → _transition gid ns notes w = (Return None, w).
Proof. intros H. unfold _transition. by rewrite bind_run, get_grant_run, H. Qed.

Lemma transition_lookup_raises gid ns notes w e :
  find_grant (db w) gid = Raise e → _transition gid ns notes w = (Raise e, w).
Proof. intros H. unfold _transition. by rewrite bind_run, get_grant_run, H. Qed.

Lemma read_row_transition r g ns now notes :
  read_row r = Return g →
  read_row (transition_row ns now notes r) =
    Return (Grant.mk (Grant.id g) (Grant.title g) (Grant.funder g) (Grant.amount g)
              (Grant.type g) (Grant.purpose g) (Grant.deadline g) ns
              (Grant.requirements g) (Grant.reporting_dates g) (Grant.contacts g)
              (Grant.award_amount g) (if truthy notes then notes else Grant.notes g)
              (Grant.assigned_to g) (Grant.created_at g) now).
Proof.
  intros (ty & st & rq & rd & ct & Hty & Hst & Hrq & Hrd & Hct & ->)%read_row_Return.
  apply read_row_Return. exists ty, ns, rq, rd, ct.
  unfold transition_row. destruct (truthy notes); cbn;
    by rewrite GrantStatus_of_value_value.
Qed.

(** [_transition] on an opportunity that exists. *)
Lemma transition_existing gid ns notes w g :
  find_grant (db w) gid = Return (Some g) →
  bind_params (transition_params notes w) = None →
  let d' := updated gid (transition_row ns (clock w 0%nat) notes) (db w) in
  _transition gid ns notes w =
    (Return (Some (Grant.mk (Grant.id g) (Grant.title g) (Grant.funder g) (Grant.amount g)
              (Grant.type g) (Grant.purpose g) (Grant.deadline g) ns
              (Grant.requirements g) (Grant.reporting_dates g) (Grant.contacts g)
              (Grant.award_amount g) (if truthy notes then notes else Grant.notes g)
              (Grant.assigned_to g) (Grant.created_at g) (clock w 0%nat))),
     tick w d').
Proof.
  intros Hg Hbind. cbv zeta.
  pose proof Hg as (Henc & r & Hsel & Hr)%find_grant_Some.
  rewrite transition_run by eauto.
  rewrite (find_grant_updated _ _ _ r) by (done || apply transition_row_id).
  by rewrite (read_row_transition r g).
Qed.

Lemma award_bind actual dates w gid :
  utf8_encodable gid = true →
  bind_params [PNum actual; PText (dumps dates); PText (clock w 0%nat); PText gid]
  = bind_params (award_params actual w).
Proof.
  intros Hgid. unfold award_params. cbn [bind_params bind_param].
  rewrite dumps_encodable, Hgid. destruct (bind_param (PNum actual)); [done|].
  destruct actual as [z|f]; by destruct (utf8_encodable (clock w 0%nat)).
Qed.

Lemma award_existing gid amt dates w g :
  find_grant (db w) gid = Return (Some g) →
  bind_params (award_params (award_actual amt g) w) = None →
  let actual := award_actual amt g in
  let d' := updated gid (Sql.set_award (Sql.real_of actual) (dumps (default [] dates))
                           (clock w 0%nat)) (db w) in
  award gid amt dates w =
    (Return (Some (Grant.mk (Grant.id g) (Grant.title g) (Grant.funder g) (Grant.amount g)
              (Grant.type g) (Grant.purpose g) (Grant.deadline g) AWARDED
              (Grant.requirements g) (decoded <$> default [] dates) (Grant.contacts g)
              (PyFloat <$> Sql.real_of actual) (Grant.notes g)
              (Grant.assigned_to g) (Grant.created_at g) (clock w 0%nat))),
     tick w d').
Proof.
  intros Hg Hbind. cbv zeta.
  pose proof Hg as (Henc & r & Hsel & Hr)%find_grant_Some.
  unfold award. rewrite bind_run, get_grant_run, Hg.
  fold (award_actual amt g).
  rewrite bind_run. unfold utcnow. rewrite bind_run. unfold transaction, execute.
  cbn [db clock uuid_source]. rewrite award_bind, Hbind by done.
  unfold Sql.update_award, Sql.update_grants. rewrite get_grant_run. cbn [db].
  fold (updated gid (Sql.set_award (Sql.real_of (award_actual amt g))
                       (dumps (default [] dates)) (clock w 0%nat)) (db w)).
  rewrite (find_grant_updated _ _ _ r) by done.
  apply read_row_Return in Hr as (ty & st & rq & rd & ct & Hty & Hst & Hrq & Hrd & Hct & ->).
  match goal with |- context [read_row ?x] => 
    assert (read_row x = Return (Grant.mk (grants.id r) (grants.title r) (grants.funder r)
      (PyFloat (grants.amount r)) ty (grants.purpose r) (grants.deadline r) AWARDED rq
      (decoded <$> default [] dates) ct
      (PyFloat <$> Sql.real_of (award_actual amt
         (Grant.mk (grants.id r) (grants.title r) (grants.funder r)
            (PyFloat (grants.amount r)) ty (grants.purpose r) (grants.deadline r) st
            rq rd ct (PyFloat <$> grants.award_amount r) (grants.notes r)
            (grants.assigned_to r) (grants.created_at r) (grants.updated_at r))))
      (grants.notes r) (grants.assigned_to r) (grants.created_at r) (clock w 0%nat))) as ->
  end.
  { apply read_row_Return. exists ty, AWARDED, rq, (decoded <$> default [] dates), ct.
    cbn. rewrite loads_dumps. done. }
  done.
Qed.

Lemma award_raises gid amt dates w g e :
  find_grant (db w) gid = Return (Some g) →
  bind_params (award_params (award_actual amt g) w) = Some e →
  award gid amt dates w = (Raise e, tick w (db w)).
Proof.
  intros Hg Hbind. pose proof Hg as (Henc & _)%find_grant_Some.
  unfold award. rewrite bind_run, get_grant_run, Hg.
  fold (award_actual amt g).
  rewrite bind_run. unfold utcnow. rewrite bind_run. unfold transaction, execute.
  cbn [db clock uuid_source]. by rewrite award_bind, Hbind by done.
Qed.

Lemma award_unknown gid amt dates w :
  gid ∉ grant_ids (db w) → utf8_encodable gid = true →
  award gid amt dates w = (Return None, w).
Proof.
  intros H Henc. unfold award. rewrite bind_run.
  by rewrite get_grant_run, find_grant_None.
Qed.

Lemma award_not_found gid amt dates w :
  find_grant (db w) gid = Return None → award gid amt dates w = (Return None, w).
Proof. intros H. unfold award. by rewrite bind_run, get_grant_run, H. Qed.

Lemma award_lookup_raises gid amt dates w e :
  find_grant (db w) gid = Raise e → award gid amt dates w = (Raise e, w).
Proof. intros H. unfold award. by rewrite bind_run, get_grant_run, H. Qed.

Lemma submit_bind gid notes submitted_by documents w :
  utf8_encodable gid = true →
  bind_params
    [PText (uuid_source w 0%nat); PText gid; PText (clock w 0%nat); PText notes;
     PText submitted_by; PText (dumps (default [] documents)); PText (clock w 1%nat)]
  = bind_params (submit_params notes submitted_by w).
Proof.
  intros Hgid. unfold submit_params. cbn [bind_params].
  assert (bind_param (PText gid) = None) as -> by (cbn [bind_param]; by rewrite Hgid).
  assert (bind_param (PText (dumps (default [] documents))) = None) as ->
    by (cbn [bind_param]; by rewrite dumps_encodable).
  done.
Qed.

Lemma submit_existing gid notes submitted_by documents w g :
  find_grant (db w) gid = Return (Some g) →
  uuid_source w 0%nat ∉ submissions.id <$> Db.submissions (db w) →
  bind_params (submit_params notes submitted_by w) = None →
  utf8_encodable (clock w 2%nat) = true →
  submit gid notes submitted_by documents w =
    (Return (Some (Grant.mk (Grant.id g) (Grant.title g) (Grant.funder g) (Grant.amount g)
              (Grant.type g) (Grant.purpose g) (Grant.deadline g) SUBMITTED
              (Grant.requirements g) (Grant.reporting_dates g) (Grant.contacts g)
              (Grant.award_amount g) (Grant.notes g)
              (Grant.assigned_to g) (Grant.created_at g) (clock w 2%nat))),
     submit_world w
       (updated gid (transition_row SUBMITTED (clock w 2%nat) [])
          (with_submission (submission_row gid notes submitted_by documents w) (db w))) 3).
Proof.
  intros Hg Hfresh Hbind Hnow. pose proof Hg as (Henc & _)%find_grant_Some.
  unfold submit. rewrite bind_run, get_grant_run, Hg.
  unfold utcnow, uuid4. rewrite !bind_run. unfold transaction, execute.
  cbn [db clock uuid_source Submission.id Submission.grant_id Submission.submitted_at
       Submission.notes Submission.submitted_by Submission.documents Submission.created_at].
  rewrite submit_bind, Hbind by done.
  unfold Sql.insert_submission. cbn [submissions.id].
  rewrite decide_False by done. cbn [db clock uuid_source].
  erewrite transition_existing; [reflexivity| |].
  - cbn [db]. rewrite <- Hg. by apply find_grant_grants.
  - unfold transition_params. cbn [clock bind_params bind_param]. by rewrite Hnow.
Qed.

(** The INSERT of [submit] fails: a parameter does not bind. *)
Lemma submit_bind_raises gid notes submitted_by documents w g e :
  find_grant (db w) gid = Return (Some g) →
  bind_params (submit_params notes submitted_by w) = Some e →
  submit gid notes submitted_by documents w = (Raise e, submit_world w (db w) 2).
Proof.
  intros Hg Hbind. pose proof Hg as (Henc & _)%find_grant_Some.
  unfold submit. rewrite bind_run, get_grant_run, Hg.
  unfold utcnow, uuid4. rewrite !bind_run. unfold transaction, execute.
  cbn [db clock uuid_source Submission.id Submission.grant_id Submission.submitted_at
       Submission.notes Submission.submitted_by Submission.documents Submission.created_at].
  by rewrite submit_bind, Hbind by done.
Qed.

(** The INSERT of [submit] fails: the identifier is taken. *)
Lemma submit_insert_fails gid notes submitted_by documents w g :
  find_grant (db w) gid = Return (Some g) →
  bind_params (submit_params notes submitted_by w) = None →
  uuid_source w 0%nat ∈ submissions.id <$> Db.submissions (db w) →
  submit gid notes submitted_by documents w =
    (Raise IntegrityError, submit_world w (db w) 2).
Proof.
  intros Hg Hbind Hdup. pose proof Hg as (Henc & _)%find_grant_Some.
  unfold submit. rewrite bind_run, get_grant_run, Hg.
  unfold utcnow, uuid4. rewrite !bind_run. unfold transaction, execute.
  cbn [db clock uuid_source Submission.id Submission.grant_id Submission.submitted_at
       Submission.notes Submission.submitted_by Submission.documents Submission.created_at].
  rewrite submit_bind, Hbind by done.
  unfold Sql.insert_submission. cbn [submissions.id].
  by rewrite decide_True by done.
Qed.

(** The INSERT of [submit] is committed and the UPDATE that follows it
    fails: the submission stays, the status does not change. *)
Lemma submit_update_raises gid notes submitted_by documents w g :
  find_grant (db w) gid = Return (Some g) →
  uuid_source w 0%nat ∉ submissions.id <$> Db.submissions (db w) →
  bind_params (submit_params notes submitted_by w) = None →
  utf8_encodable (clock w 2%nat) = false →
  submit gid notes submitted_by documents w =
    (Raise UnicodeEncodeError,
     submit_world w
       (with_submission (submission_row gid notes submitted_by documents w) (db w)) 3).
Proof.
  intros Hg Hfresh Hbind Hnow. pose proof Hg as (Henc & _)%find_grant_Some.
  unfold submit. rewrite bind_run, get_grant_run, Hg.
  unfold utcnow, uuid4. rewrite !bind_run. unfold transaction, execute.
  cbn [db clock uuid_source Submission.id Submission.grant_id Submission.submitted_at
       Submission.notes Submission.submitted_by Submission.documents Submission.created_at].
  rewrite submit_bind, Hbind by done.
  unfold Sql.insert_submission. cbn [submissions.id].
  rewrite decide_False by done. cbn [db clock uuid_source].
  erewrite (transition_raises _ _ _ _ UnicodeEncodeError); [reflexivity| |].
  - cbn [db]. exists g. rewrite <- Hg. by apply find_grant_grants.
  - unfold transition_params. cbn [clock bind_params bind_param]. by rewrite Hnow.
Qed.

Lemma submit_unknown gid notes submitted_by documents w :
  gid ∉ grant_ids (db w) → utf8_encodable gid = true →
  submit gid notes submitted_by documents w = (Return None, w).
Proof.
  intros H Henc. unfold submit. rewrite bind_run.
  by rewrite get_grant_run, find_grant_None.
Qed.

Lemma submit_not_found gid notes submitted_by documents w :
  find_grant (db w) gid = Return None →
  submit gid notes submitted_by documents w = (Return None, w).
Proof. intros H. unfold submit. by rewrite bind_run, get_grant_run, H. Qed.

Lemma submit_lookup_raises gid notes submitted_by documents w e :
  find_grant (db w) gid = Raise e →
  submit gid notes submitted_by documents w = (Raise e, w).
Proof. intros H. unfold submit. by rewrite bind_run, get_grant_run, H. Qed.

Lemma identify_bind title funder amount deadline grant_type purpose requirements
    contacts assigned_to w :
  let g := identified title funder amount deadline grant_type purpose requirements
             contacts assigned_to w in
  bind_params
    [PText (Grant.id g); PText (Grant.title g); PText (Grant.funder g);
     PNum (Grant.amount g); PText (GrantType_value (Grant.type g));
     PText (Grant.purpose g); opt_text (Grant.deadline g);
     PText (GrantStatus_value (Grant.status g));
     PText (dumps (Grant.requirements g));
     PText (dumps (Grant.reporting_dates g));
     PText (dumps (Grant.contacts g));
     PNone; PText (Grant.notes g); PText (Grant.assigned_to g);
     PText (Grant.created_at g); PText (Grant.updated_at g)]
  = bind_params (identify_params title funder amount deadline purpose assigned_to w).
Proof.
  cbv zeta. unfold identify_params, identified.
  cbn [Grant.id Grant.title Grant.funder Grant.amount Grant.type Grant.purpose
       Grant.deadline Grant.status Grant.requirements Grant.reporting_dates
       Grant.contacts Grant.notes Grant.assigned_to Grant.created_at Grant.updated_at].
  assert (bind_param (PText (GrantStatus_value IDENTIFIED)) = None) as Hst
    by (cbn [bind_param]; by rewrite GrantStatus_value_encodable).
  assert (bind_param (PText (GrantType_value grant_type)) = None) as Hty
    by (cbn [bind_param]; by rewrite GrantType_value_encodable).
  assert (∀ l, bind_param (PText (dumps l)) = None) as Hjs
    by (intros l; cbn [bind_param]; by rewrite dumps_encodable).
  cbn [bind_params]. rewrite Hst, Hty, !Hjs.
  destruct (bind_param (PText (uuid_source w 0%nat))); [done|].
  destruct (bind_param (PText title)); [done|].
  destruct (bind_param (PText funder)); [done|].
  destruct (bind_param (PNum amount)); [done|].
  destruct (bind_param (PText purpose)); [done|].
  destruct (bind_param (opt_text deadline)); [done|].
  change (bind_param PNone) with (@None exn).
  change (bind_param (PText [])) with (@None exn). cbv iota.
  destruct (bind_param (PText assigned_to)); [done|].
  by destruct (bind_param (PText (clock w 0%nat))).
Qed.

Lemma identify_fresh title funder amount deadline grant_type purpose requirements
    contacts assigned_to w a :
  uuid_source w 0%nat ∉ grant_ids (db w) →
  bind_params (identify_params title funder amount deadline purpose assigned_to w) = None →
  Sql.real_of amount = Some a →
  let g := identified title funder amount deadline grant_type purpose requirements
             contacts assigned_to w in
  identify title funder amount deadline grant_type purpose requirements contacts
    assigned_to w = (Return g, drawn w (with_grant (row_of_grant a g) (db w))).
Proof.
  intros Hfresh Hbind Ha. cbv zeta. unfold identify.
  unfold utcnow, uuid4. rewrite !bind_run. unfold transaction, execute.
  cbn [db clock uuid_source].
  pose proof (identify_bind title funder amount deadline grant_type purpose requirements
                contacts assigned_to w) as Hb. cbv zeta in Hb. unfold identified in Hb.
  rewrite Hb, Hbind. unfold Sql.not_null. cbn [Grant.amount]. rewrite Ha.
  unfold Sql.insert_grant. cbn [grants.id Grant.id].
  fold (grant_ids (db w)). by rewrite decide_False.
Qed.

(** [identify] with a parameter that does not bind. *)
Lemma identify_bind_raises title funder amount deadline grant_type purpose requirements
    contacts assigned_to w e :
  bind_params (identify_params title funder amount deadline purpose assigned_to w) = Some e →
  identify title funder amount deadline grant_type purpose requirements contacts
    assigned_to w = (Raise e, drawn w (db w)).
Proof.
  intros Hbind. unfold identify.
  unfold utcnow, uuid4. rewrite !bind_run. unfold transaction, execute.
  cbn [db clock uuid_source].
  pose proof (identify_bind title funder amount deadline grant_type purpose requirements
                contacts assigned_to w) as Hb. cbv zeta in Hb. unfold identified in Hb.
  by rewrite Hb, Hbind.
Qed.

(** [identify] with an amount the NOT NULL column refuses. *)
Lemma identify_null_amount title funder amount deadline grant_type purpose requirements
    contacts assigned_to w :
  bind_params (identify_params title funder amount deadline purpose assigned_to w) = None →
  Sql.real_of amount = None →
  identify title funder amount deadline grant_type purpose requirements contacts
    assigned_to w = (Raise IntegrityError, drawn w (db w)).
Proof.
  intros Hbind Ha. unfold identify.
  unfold utcnow, uuid4. rewrite !bind_run. unfold transaction, execute.
  cbn [db clock uuid_source].
  pose proof (identify_bind title funder amount deadline grant_type purpose requirements
                contacts assigned_to w) as Hb. cbv zeta in Hb. unfold identified in Hb.
  rewrite Hb, Hbind. unfold Sql.not_null. cbn [Grant.amount]. by rewrite Ha.
Qed.

Lemma identify_duplicate title funder amount deadline grant_type purpose requirements
    contacts assigned_to w :
  bind_params (identify_params title funder amount deadline purpose assigned_to w) = None →
  uuid_source w 0%nat ∈ grant_ids (db w) →
  identify title funder amount deadline grant_type purpose requirements contacts
    assigned_to w = (Raise IntegrityError, drawn w (db w)).
Proof.
  intros Hbind Hdup. unfold identify.
  unfold utcnow, uuid4. rewrite !bind_run. unfold transaction, execute.
  cbn [db clock uuid_source].
  pose proof (identify_bind title funder amount deadline grant_type purpose requirements
                contacts assigned_to w) as Hb. cbv zeta in Hb. unfold identified in Hb.
  rewrite Hb, Hbind. unfold Sql.not_null. cbn [Grant.amount].
  destruct (Sql.real_of amount); [|done].
  unfold Sql.insert_grant. cbn [grants.id Grant.id].
  fold (grant_ids (db w)). by rewrite decide_True.
Qed.

Lemma add_note_fresh gid content author w :
  uuid_source w 0%nat ∉ grant_notes.id <$> Db.grant_notes (db w) →
  bind_params (add_note_params gid content author w) = None →
  add_note gid content author w =
    (Return (note_of gid content author w),
     drawn w (with_note (row_of_note (note_of gid content author w)) (db w))).
Proof.
  intros Hfresh Hbind. unfold add_note.
  unfold utcnow, uuid4. rewrite !bind_run. unfold transaction, execute.
  cbn [db clock uuid_source GrantNote.id GrantNote.grant_id GrantNote.content
       GrantNote.author GrantNote.created_at].
  unfold add_note_params in Hbind. rewrite Hbind.
  unfold Sql.insert_note. cbn [grant_notes.id].
  by rewrite decide_False.
Qed.

Lemma add_note_bind_raises gid content author w e :
  bind_params (add_note_params gid content author w) = Some e →
  add_note gid content author w = (Raise e, drawn w (db w)).
Proof.
  intros Hbind. unfold add_note.
  unfold utcnow, uuid4. rewrite !bind_run. unfold transaction, execute.
  cbn [db clock uuid_source GrantNote.id GrantNote.grant_id GrantNote.content
       GrantNote.author GrantNote.created_at].
  unfold add_note_params in Hbind. by rewrite Hbind.
Qed.

Lemma add_note_duplicate gid content author w :
  bind_params (add_note_params gid content author w) = None →
  uuid_source w 0%nat ∈ grant_notes.id <$> Db.grant_notes (db w) →
  add_note gid content author w = (Raise IntegrityError, drawn w (db w)).
Proof.
  intros Hbind Hdup. unfold add_note.
  unfold utcnow, uuid4. rewrite !bind_run. unfold transaction, execute.
  cbn [db clock uuid_source GrantNote.id GrantNote.grant_id GrantNote.content
       GrantNote.author GrantNote.created_at].
  unfold add_note_params in Hbind. rewrite Hbind.
  unfold Sql.insert_note. cbn [grant_notes.id].
  by rewrite decide_True.
Qed.

Lemma read_row_of_grant a g :
  read_row (row_of_grant a g) =
    Return (Grant.mk (Grant.id g) (Grant.title g) (Grant.funder g) (PyFloat a)
              (Grant.type g) (Grant.purpose g) (Grant.deadline g) (Grant.status g)
              (decoded <$> Grant.requirements g) (decoded <$> Grant.reporting_dates g)
              (decoded <$> Grant.contacts g)
              (PyFloat <$> (Grant.award_amount g ≫= Sql.real_of)) (Grant.notes g)
              (Grant.assigned_to g) (Grant.created_at g) (Grant.updated_at g)).
Proof.
  apply read_row_Return.
  exists (Grant.type g), (Grant.status g), (decoded <$> Grant.requirements g),
         (decoded <$> Grant.reporting_dates g), (decoded <$> Grant.contacts g).
  cbn. by rewrite GrantType_of_value_value, GrantStatus_of_value_value, !loads_dumps.
Qed.

(** What a REAL column holds is a value it can hold. *)
Lemma real_of_stored x a : Sql.real_of x = Some a → stored_real a.
Proof.
  unfold stored_real. destruct x as [z|f]; cbn [Sql.real_of].
  - intros [= <-]. unfold Float64.of_int, Float64.nearest.
    by destruct (z =? 0)%Z.
  - destruct f; by intros [= <-].
Qed.

Lemma bind_params_cases ps : bind_params ps = None ∨ ∃ e, bind_params ps = Some e.
Proof. destruct (bind_params ps); eauto. Qed.

Lemma transition_db_step gid ns notes w :
  db_step (db w) (db (_transition gid ns notes w).2).
Proof.
  destruct (find_grant_cases (db w) gid) as [(g & Hg & _)|[Hg|[e Hg]]].
  - destruct (bind_params_cases (transition_params notes w)) as [Hb|[e Hb]].
    + rewrite (transition_existing _ _ _ _ g) by done. cbn. constructor.
    + rewrite (transition_raises _ _ _ _ e) by eauto. constructor.
  - rewrite transition_not_found by done. constructor.
  - rewrite (transition_lookup_raises _ _ _ _ e) by done. constructor.
Qed.

Lemma award_db_step gid amt dates w :
  db_step (db w) (db (award gid amt dates w).2).
Proof.
  destruct (find_grant_cases (db w) gid) as [(g & Hg & _)|[Hg|[e Hg]]].
  - destruct (bind_params_cases (award_params (award_actual amt g) w)) as [Hb|[e Hb]].
    + rewrite (award_existing _ _ _ _ g) by done. cbn. constructor.
    + rewrite (award_raises _ _ _ _ g e) by done. constructor.
  - rewrite award_not_found by done. constructor.
  - rewrite (award_lookup_raises _ _ _ _ e) by done. constructor.
Qed.

Lemma submit_db_step gid notes submitted_by documents w :
  db_step (db w) (db (submit gid notes submitted_by documents w).2).
Proof.
  destruct (find_grant_cases (db w) gid) as [(g & Hg & Hin & _)|[Hg|[e Hg]]].
  - destruct (bind_params_cases (submit_params notes submitted_by w)) as [Hb|[e Hb]].
    + destruct (decide (uuid_source w 0%nat ∈ submissions.id <$> Db.submissions (db w))).
      * rewrite (submit_insert_fails _ _ _ _ _ g) by done. constructor.
      * destruct (utf8_encodable (clock w 2%nat)) eqn:Hnow.
        -- rewrite (submit_existing _ _ _ _ _ g) by done. cbn. by constructor.
        -- rewrite (submit_update_raises _ _ _ _ _ g) by done. cbn. by constructor.
    + rewrite (submit_bind_raises _ _ _ _ _ g e) by done. constructor.
  - rewrite submit_not_found by done. constructor.
  - rewrite (submit_lookup_raises _ _ _ _ _ e) by done. constructor.
Qed.

Lemma identify_params_id title funder amount deadline purpose assigned_to w :
  bind_params (identify_params title funder amount deadline purpose assigned_to w) = None →
  utf8_encodable (uuid_source w 0%nat) = true.
Proof.
  unfold identify_params. cbn [bind_params bind_param].
  by destruct (utf8_encodable (uuid_source w 0%nat)).
Qed.

Lemma identify_db_step title funder amount deadline grant_type purpose requirements
    contacts assigned_to w :
  db_step (db w)
    (db (identify title funder amount deadline grant_type purpose requirements
           contacts assigned_to w).2).
Proof.
  destruct (bind_params_cases
              (identify_params title funder amount deadline purpose assigned_to w))
    as [Hb|[e Hb]].
  - destruct (decide (uuid_source w 0%nat ∈ grant_ids (db w))).
    + rewrite identify_duplicate by done. constructor.
    + destruct (Sql.real_of amount) as [a|] eqn:Ha.
      * rewrite (identify_fresh _ _ _ _ _ _ _ _ _ _ a) by done. cbn.
        constructor; [done| |by eapply real_of_stored].
        by eapply identify_params_id.
      * rewrite identify_null_amount by done. constructor.
  - rewrite (identify_bind_raises _ _ _ _ _ _ _ _ _ _ e) by done. constructor.
Qed.

Lemma add_note_db_step gid content author w :
  db_step (db w) (db (add_note gid content author w).2).
Proof.
  destruct (bind_params_cases (add_note_params gid content author w)) as [Hb|[e Hb]].
  - destruct (decide (uuid_source w 0%nat ∈ grant_notes.id <$> Db.grant_notes (db w))).
    + rewrite add_note_duplicate by done. constructor.
    + rewrite add_note_fresh by done. cbn. constructor.
  - rewrite (add_note_bind_raises _ _ _ _ e) by done. constructor.
Qed.

Lemma discard_result_world {A} (m : M A) w : ((_ ← m; mret ()) w).2 = (m w).2.
Proof. unfold mbind, M_bind, mret, M_ret. by destruct (m w) as [[a|e] w']. Qed.

Lemma step_db_step w w' : step w w' → db_step (db w) (db w').
Proof.
  intros [c <-]. destruct c; cbn [perform]; rewrite discard_result_world.
  - apply identify_db_step.
  - apply transition_db_step.
  - apply submit_db_step.
  - apply award_db_step.
  - apply transition_db_step.
  - apply transition_db_step.
  - apply transition_db_step.
  - apply add_note_db_step.
Qed.

Lemma set_award_id actual dates now r :
  grants.id (Sql.set_award actual dates now r) = grants.id r.
Proof. done. Qed.

Lemma db_step_ids_kept d d' : db_step d d' → ids_kept d d'.
Proof.
  unfold ids_kept. destruct 1.
  - done.
  - by rewrite grant_ids_updated by apply transition_row_id.
  - by rewrite grant_ids_updated by apply set_award_id.
  - unfold grant_ids, with_grant. cbn [Db.grants]. rewrite fmap_app. by apply prefix_app_r.
  - by rewrite grant_ids_updated by apply transition_row_id.
  - done.
  - done.
Qed.

Lemma status_named_transition ns now notes r : status_named (transition_row ns now notes r).
Proof. exists ns. unfold transition_row. by destruct (truthy notes). Qed.

Lemma status_named_award actual dates now r : status_named (Sql.set_award actual dates now r).
Proof. by exists AWARDED. Qed.

Lemma Forall_updated (P : grants.row → Prop) gid f d :
  (∀ r, P r → P (f r)) →
  Forall P (Db.grants d) → Forall P (Db.grants (updated gid f d)).
Proof.
  intros Hf Hd. unfold updated. cbn [Db.grants]. apply Forall_fmap.
  eapply Forall_impl; [exact Hd|]. intros r Hr. cbn. destruct (decide _); auto.
Qed.

Lemma db_step_status_named d d' :
  db_step d d' → Forall status_named (Db.grants d) → Forall status_named (Db.grants d').
Proof.
  destruct 1; intros Hd.
  - done.
  - apply Forall_updated; [|done]. intros. apply status_named_transition.
  - apply Forall_updated; [|done]. intros. apply status_named_award.
  - unfold with_grant. cbn [Db.grants]. apply Forall_app. split; [done|].
    apply Forall_singleton. by exists (Grant.status g).
  - apply Forall_updated; [|done]. intros. apply status_named_transition.
  - done.
  - done.
Qed.

Lemma row_readable_transition ns now notes r :
  row_readable r → row_readable (transition_row ns now notes r).
Proof.
  intros [g Hg]%read_row_readable. apply read_row_readable.
  eexists. by apply read_row_transition.
Qed.

Lemma row_readable_award actual dates now r :
  row_readable r → row_readable (Sql.set_award actual (dumps dates) now r).
Proof.
  intros (Hty & Hst & Hrq & Hrd & Hct).
  split; [done|]. split; [by exists AWARDED|]. split; [done|]. split; [|done].
  cbn. rewrite loads_dumps. eauto.
Qed.

Lemma transition_row_amount ns now notes r :
  grants.amount (transition_row ns now notes r) = grants.amount r.
Proof. unfold transition_row. by destruct (truthy notes). Qed.

Lemma db_step_consistent d d' : db_step d d' → db_consistent d → db_consistent d'.
Proof.
  destruct 1; intros [Hread Huniq Hbound Hreal Hown Hdocs].
  - done.
  - split.
    + apply Forall_updated; [|done]. intros. by apply row_readable_transition.
    + by rewrite grant_ids_updated by apply transition_row_id.
    + apply Forall_updated; [|done]. intros r. by rewrite transition_row_id.
    + apply Forall_updated; [|done]. intros r. by rewrite transition_row_amount.
    + by rewrite grant_ids_updated by apply transition_row_id.
    + done.
  - split.
    + apply Forall_updated; [|done]. intros. by apply row_readable_award.
    + by rewrite grant_ids_updated by apply set_award_id.
    + by apply Forall_updated.
    + by apply Forall_updated.
    + by rewrite grant_ids_updated by apply set_award_id.
    + done.
  - split.
    + unfold with_grant. cbn [Db.grants]. apply Forall_app. split; [done|].
      apply Forall_singleton, read_row_readable. eexists. apply read_row_of_grant.
    + unfold grant_ids, with_grant. cbn [Db.grants]. rewrite fmap_app.
      apply NoDup_app. split; [done|]. split.
      * intros x Hx ->%list_elem_of_singleton. done.
      * apply NoDup_singleton.
    + unfold with_grant. cbn [Db.grants]. apply Forall_app. split; [done|].
      by apply Forall_singleton.
    + unfold with_grant. cbn [Db.grants]. apply Forall_app. split; [done|].
      by apply Forall_singleton.
    + unfold grant_ids, with_grant. cbn [Db.grants Db.submissions]. rewrite fmap_app.
      eapply Forall_impl; [exact Hown|]. intros s Hs. cbn in Hs. apply elem_of_app. by left.
    + done.
  - split.
    + apply Forall_updated; [|done]. intros. by apply row_readable_transition.
    + by rewrite grant_ids_updated by apply transition_row_id.
    + apply (Forall_updated (λ r, utf8_encodable (grants.id r) = true)); [|done].
      intros r. by rewrite transition_row_id.
    + apply (Forall_updated (λ r, stored_real (grants.amount r))); [|done].
      intros r. by rewrite transition_row_amount.
    + rewrite grant_ids_updated by apply transition_row_id. cbn [Db.submissions updated with_submission].
      apply Forall_app. split; [done|]. by apply Forall_singleton.
    + cbn [Db.submissions updated with_submission].
      apply Forall_app. split; [done|]. apply Forall_singleton. cbn.
      rewrite loads_dumps. eauto.
  - split; try done.
    + cbn [Db.submissions with_submission].
      apply Forall_app. split; [done|]. by apply Forall_singleton.
    + cbn [Db.submissions with_submission].
      apply Forall_app. split; [done|]. apply Forall_singleton. cbn.
      rewrite loads_dumps. eauto.
  - done.
Qed.

Lemma db_consistent_empty : db_consistent Db.empty.
Proof. split; cbn; constructor. Qed.

Lemma reachable_consistent w : reachable w → db_consistent (db w).
Proof.
  induction 1 as [w ->|w w' _ IH Hstep]; [apply db_consistent_empty|].
  eapply db_step_consistent; [|exact IH]. by apply step_db_step.
Qed.

Lemma reachable_status_named w : reachable w → Forall status_named (Db.grants (db w)).
Proof.
  induction 1 as [w ->|w w' _ IH Hstep]; [constructor|].
  eapply db_step_status_named; [|exact IH]. by apply step_db_step.
Qed.

Lemma rtc_step_ids_kept w w' : rtc step w w' → ids_kept (db w) (db w').
Proof.
  unfold ids_kept. induction 1 as [|w w1 w2 Hstep _ IH]; [done|].
  etrans; [|exact IH]. by apply db_step_ids_kept, step_db_step.
Qed.

Lemma ids_kept_lookup d d' i r :
  ids_kept d d' → Db.grants d !! i = Some r →
  ∃ r', Db.grants d' !! i = Some r' ∧ grants.id r' = grants.id r.
Proof.
  unfold ids_kept, grant_ids. intros [k Hk] Hr.
  assert ((grants.id <$> Db.grants d') !! i = Some (grants.id r)) as Hi.
  { rewrite Hk. apply lookup_app_l_Some. by rewrite list_lookup_fmap, Hr. }
  rewrite list_lookup_fmap in Hi.
  destruct (Db.grants d' !! i) as [r'|]; [|done]. injection Hi as Hi. eauto.
Qed.

Lemma rtc_step_reachable w w' : reachable w → rtc step w w' → reachable w'.
Proof.
  intros Hw. induction 1 as [|w w1 w2 Hstep _ IH]; [done|].
  apply IH. by eapply reachable_step.
Qed.

(** In a consistent database an identifier that is stored binds. *)
Lemma consistent_id_bound d gid :
  db_consistent d → gid ∈ grant_ids d → utf8_encodable gid = true.
Proof.
  intros [_ _ Hbound _ _ _] (r & -> & Hr)%list_elem_of_fmap.
  by eapply (proj1 (Forall_forall _ _) Hbound).
Qed.

Lemma find_grant_transitioned d gid g ns now notes :
  find_grant d gid = Return (Some g) →
  find_grant (updated gid (transition_row ns now notes) d) gid
  = Return (Some (transitioned ns now notes g)).
Proof.
  intros (Henc & r & Hsel & Hr)%find_grant_Some.
  rewrite (find_grant_updated _ _ _ r) by (done || apply transition_row_id).
  by rewrite (read_row_transition r g).
Qed.

Lemma find_grant_with_grant d a g :
  Grant.id g ∉ grant_ids d → utf8_encodable (Grant.id g) = true →
  find_grant (with_grant (row_of_grant a g) d) (Grant.id g) = Return (Some (stored a g)).
Proof.
  intros Hfresh Henc. apply find_grant_Some. split; [done|].
  exists (row_of_grant a g). split.
  - apply select_grant_None in Hfresh. unfold Sql.select_grant in *.
    apply head_None in Hfresh. unfold with_grant. cbn [Db.grants].
    rewrite filter_app, Hfresh. cbn [app]. by rewrite filter_cons_True.
  - apply read_row_of_grant.
Qed.

Lemma mapM_world_indep {A B} (f : A → M B) :
  (∀ a w w0, f a w = ((f a w0).1, w)) →
  ∀ l w w0, mapM f l w = ((mapM f l w0).1, w).
Proof.
  intros Hf. induction l as [|a l IH]; intros w w0; [done|].
  cbn [mapM]. rewrite !bind_run. rewrite (Hf a w w0).
  destruct (f a w0) as [[b|e] w1] eqn:E; cbn [fst]; [|done].
  rewrite !bind_run. rewrite (IH w w0), (IH w1 w0).
  by destruct (mapM f l w0) as [[bs|e] w2].
Qed.





(* --------------------------------------------------------------------- *)
(** *** Floats: the nearest binary64 number *)
(* --------------------------------------------------------------------- *)

Section floats.
Local Open Scope Z_scope.
Import Float64.

(** [round_half_even] is within one half of the quotient. *)
Lemma round_half_even_spec num den :
  0 < den → 2 * Z.abs (round_half_even num den * den - num) ≤ den.
Proof.
  intros Hden. unfold round_half_even.
  pose proof (Z.div_mod num den ltac:(lia)) as Hdm.
  pose proof (Z.mod_pos_bound num den Hden) as Hr.
  generalize dependent (num / den). generalize dependent (num mod den). intros r Hr q Hdm.
  destruct (Z.ltb_spec (2 * r) den); [nia|].
  destruct (Z.ltb_spec den (2 * r)); [nia|].
  destruct (Z.even q); nia.
Qed.

Lemma round_half_even_bounds num den lo hi :
  0 < den → lo * den ≤ num → num ≤ hi * den →
  lo ≤ round_half_even num den ≤ hi.
Proof.
  intros Hden Hlo Hhi. pose proof (round_half_even_spec num den Hden) as H.
  generalize dependent (round_half_even num den). intros k H. nia.
Qed.

Lemma scaled_pos n d e : 0 < n → 0 < d → 0 < (scaled n d e).1 ∧ 0 < (scaled n d e).2.
Proof.
  intros Hn Hd. unfold scaled. destruct (Z.leb_spec 0 e); cbn [fst snd].
  - pose proof (Z.pow_pos_nonneg 2 e). nia.
  - pose proof (Z.pow_pos_nonneg 2 (- e)). nia.
Qed.

(** One more in the exponent halves the fraction. *)
Lemma scaled_succ n d e :
  ((scaled n d (e + 1)).1 = (scaled n d e).1 ∧ (scaled n d (e + 1)).2 = 2 * (scaled n d e).2)
  ∨ ((scaled n d e).1 = 2 * (scaled n d (e + 1)).1 ∧ (scaled n d (e + 1)).2 = (scaled n d e).2).
Proof.
  unfold scaled.
  destruct (Z.leb_spec 0 e), (Z.leb_spec 0 (e + 1)); cbn [fst snd]; try lia.
  - left. split; [done|]. rewrite Z.pow_add_r by lia. lia.
  - right. assert (e = -1) as -> by lia. cbn. lia.
  - right. split; [|done]. replace (- e) with (- (e + 1) + 1) by lia.
    rewrite Z.pow_add_r by lia. lia.
Qed.

(** The first exponent [nearest_pos] tries leaves a quotient between
    [2^52] and [2^54]. *)
Lemma scaled_first n d :
  0 < n → 0 < d →
  let e0 := Z.log2 n - Z.log2 d - 53 in
  2 ^ 52 * (scaled n d e0).2 < (scaled n d e0).1 < 2 ^ 54 * (scaled n d e0).2.
Proof.
  intros Hn Hd. cbv zeta.
  pose proof (Z.log2_spec n Hn) as Ha. pose proof (Z.log2_spec d Hd) as Hb.
  pose proof (Z.log2_nonneg n) as Ha0. pose proof (Z.log2_nonneg d) as Hb0.
  set (a := Z.log2 n) in *. set (b := Z.log2 d) in *.
  rewrite Z.pow_succ_r in Ha, Hb by done.
  unfold scaled. destruct (Z.leb_spec 0 (a - b - 53)); cbn [fst snd].
  - assert (2 ^ a = 2 ^ 53 * 2 ^ b * 2 ^ (a - b - 53)) as Hsplit.
    { rewrite <- !Z.pow_add_r by lia. f_equal. lia. }
    pose proof (Z.pow_pos_nonneg 2 (a - b - 53)) as Hp.
    generalize dependent (2 ^ (a - b - 53)). intros E ? ?.
    generalize dependent (2 ^ a). intros A ? ?.
    generalize dependent (2 ^ b). intros B ?. nia.
  - assert (2 ^ a * 2 ^ (- (a - b - 53)) = 2 ^ 53 * 2 ^ b) as Hsplit.
    { rewrite <- !Z.pow_add_r by lia. f_equal. lia. }
    pose proof (Z.pow_pos_nonneg 2 (- (a - b - 53))) as Hp.
    generalize dependent (2 ^ (- (a - b - 53))). intros E ? ?.
    generalize dependent (2 ^ a). intros A ? ?.
    generalize dependent (2 ^ b). intros B ?. nia.
Qed.

(** [nearest_pos] gives a 53-bit mantissa that is within one half of the
    quotient scaled by its exponent: the float is the nearest one. *)
Lemma nearest_pos_spec n d :
  0 < n → 0 < d →
  let m := (nearest_pos n d).1 in
  let e := (nearest_pos n d).2 in
  2 ^ 52 ≤ m < 2 ^ 53
  ∧ 2 * Z.abs (m * (scaled n d e).2 - (scaled n d e).1) ≤ (scaled n d e).2.
Proof.
  intros Hn Hd. cbv zeta. unfold nearest_pos.
  pose proof (scaled_first n d Hn Hd) as H0. cbv zeta in H0.
  set (e0 := Z.log2 n - Z.log2 d - 53) in *.
  set (e := if (scaled n d e0).1 <? 2 ^ 53 * (scaled n d e0).2 then e0 else e0 + 1).
  assert (2 ^ 52 * (scaled n d e).2 ≤ (scaled n d e).1 < 2 ^ 53 * (scaled n d e).2) as He.
  { unfold e. destruct (Z.ltb_spec (scaled n d e0).1 (2 ^ 53 * (scaled n d e0).2)); [lia|].
    destruct (scaled_succ n d e0) as [[-> ->]|[H1 ->]]; lia. }
  clearbody e. clear H0 e0.
  destruct (scaled_pos n d e Hn Hd) as [Hp Hq].
  pose proof (round_half_even_spec (scaled n d e).1 (scaled n d e).2 Hq) as Hm.
  pose proof (round_half_even_bounds (scaled n d e).1 (scaled n d e).2 (2 ^ 52) (2 ^ 53) Hq
                ltac:(lia) ltac:(lia)) as Hb.
  set (m := round_half_even (scaled n d e).1 (scaled n d e).2) in *. clearbody m.
  destruct (Z.eqb_spec m (2 ^ 53)) as [->|Hne]; cbn [fst snd].
  - split; [lia|].
    destruct (scaled_succ n d e) as [[-> ->]|[H1 ->]]; lia.
  - split; [lia|]. done.
Qed.



(** The quotient scaled by the exponent of [nearest_pos] is below [2^53]
    and not below [2^52 - 1/4]. *)
Lemma nearest_pos_range n d :
  0 < n → 0 < d →
  let e := (nearest_pos n d).2 in
  (2 ^ 54 - 1) * (scaled n d e).2 ≤ 4 * (scaled n d e).1
  ∧ (scaled n d e).1 < 2 ^ 53 * (scaled n d e).2.
Proof.
  intros Hn Hd. cbv zeta. unfold nearest_pos.
  pose proof (scaled_first n d Hn Hd) as H0. cbv zeta in H0.
  set (e0 := Z.log2 n - Z.log2 d - 53) in *.
  set (e := if (scaled n d e0).1 <? 2 ^ 53 * (scaled n d e0).2 then e0 else e0 + 1).
  assert (2 ^ 52 * (scaled n d e).2 ≤ (scaled n d e).1 < 2 ^ 53 * (scaled n d e).2) as He.
  { unfold e. destruct (Z.ltb_spec (scaled n d e0).1 (2 ^ 53 * (scaled n d e0).2)); [lia|].
    destruct (scaled_succ n d e0) as [[-> ->]|[H1 ->]]; lia. }
  clearbody e. clear H0 e0.
  destruct (scaled_pos n d e Hn Hd) as [Hp Hq].
  pose proof (round_half_even_spec (scaled n d e).1 (scaled n d e).2 Hq) as Hm.
  set (m := round_half_even (scaled n d e).1 (scaled n d e).2) in *. clearbody m.
  destruct (Z.eqb_spec m (2 ^ 53)) as [->|Hne]; cbn [fst snd].
  - destruct (scaled_succ n d e) as [[-> ->]|[H1 ->]]; lia.
  - lia.
Qed.

(** An integer of at most 53 bits is converted without rounding. *)
Lemma nearest_pos_int z :
  0 < z ≤ 2 ^ 53 →
  let m := (nearest_pos z 1).1 in
  let e := (nearest_pos z 1).2 in
  0 < m ∧ if 0 <=? e then m * 2 ^ e = z else m = z * 2 ^ (- e).
Proof.
  intros Hz. cbv zeta.
  destruct (nearest_pos_spec z 1 ltac:(lia) ltac:(lia)) as [Hm Herr].
  destruct (nearest_pos_range z 1 ltac:(lia) ltac:(lia)) as [Hlo Hhi].
  cbv zeta in Herr, Hm, Hlo, Hhi.
  set (m := (nearest_pos z 1).1) in *. set (e := (nearest_pos z 1).2) in *.
  clearbody m e. split; [lia|]. unfold scaled in *.
  destruct (Z.leb_spec 0 e); cbn [fst snd] in *; [|lia].
  rewrite Z.mul_1_l in *.
  assert (e = 0 ∨ e = 1 ∨ 2 ≤ e) as [->|[->|He]] by lia.
  - cbn in *. lia.
  - cbn in *. lia.
  - pose proof (Z.pow_le_mono_r 2 2 e ltac:(lia) He) as Hp.
    change (2 ^ 2) with 4 in Hp. lia.
Qed.

Lemma Qred_inject_Z z : Qred (inject_Z z) = inject_Z z.
Proof.
  unfold Qred, inject_Z.
  pose proof (Z.ggcd_gcd z 1) as Hg. pose proof (Z.ggcd_correct_divisors z 1) as Hd.
  destruct (Z.ggcd z 1) as [g [a b]]. cbn [fst snd] in *.
  rewrite Z.gcd_1_r in Hg. subst g. destruct Hd as [Ha Hb].
  assert (a = z) as -> by lia. assert (b = 1) as -> by lia. done.
Qed.

Lemma exact_of_int z :
  Z.abs z ≤ 2 ^ 53 → exact (of_int z) = Some (inject_Z z).
Proof.
  intros Hz. unfold of_int, nearest.
  destruct (Z.eqb_spec z 0) as [->|Hne]; [done|].
  destruct (nearest_pos_int (Z.abs z) ltac:(lia)) as [Hm He]. cbv zeta in Hm, He.
  set (m := (nearest_pos (Z.abs z) 1).1) in *. set (e := (nearest_pos (Z.abs z) 1).2) in *.
  clearbody m e. unfold exact. rewrite Z2Pos.id by done. f_equal.
  rewrite <- (Qred_inject_Z z). apply Qred_complete.
  assert ((if 0 <=? e then inject_Z (m * 2 ^ e) else m # Z.to_pos (2 ^ (- e)))
          == inject_Z (Z.abs z))%Q as Hv.
  { destruct (Z.leb_spec 0 e); [by rewrite He|].
    unfold Qeq, inject_Z. cbn [Qnum Qden].
    rewrite Z2Pos.id by (apply Z.pow_pos_nonneg; lia). lia. }
  destruct (Z.ltb_spec z 0).
  - rewrite Hv. unfold Qeq, inject_Z, Qopp. cbn [Qnum Qden]. lia.
  - rewrite Hv. unfold Qeq, inject_Z. cbn [Qnum Qden]. lia.
Qed.

End floats.

(* --------------------------------------------------------------------- *)
(** *** The counts and the rate of [success_rate] *)
(* --------------------------------------------------------------------- *)









(* --------------------------------------------------------------------- *)
(** *** The properties of the specification *)
(* --------------------------------------------------------------------- *)

Lemma the_grant_exists :
  find_grant (db world_with_grant) [117; 0] = Return (Some the_grant).
Proof. vm_compute. reflexivity. Qed.

Lemma the_awarded_grant_exists :
  find_grant (db world_awarded) [117; 0] = Return (Some the_awarded_grant).
Proof. vm_compute. reflexivity. Qed.

Lemma world_with_grant_reachable : reachable world_with_grant.
Proof.
  apply (reachable_step fresh_world); [by apply reachable_init|].
  by exists (Identify (lit "Grant") (lit "Funder") (PyInt 50000) None FOUNDATION []
            (Some [lit "IRS 501c3"]) None (lit "alice")).
Qed.



Lemma select_grant_after_update gid f d r :
  (∀ r, grants.id (f r) = grants.id r) →
  Sql.select_grant gid d = Some r →
  Sql.select_grant gid (updated gid f d) = Some (f r).
Proof.
  intros Hf Hsel. rewrite select_grant_updated, Hsel by done. cbn.
  apply select_grant_Some in Hsel as [_ Hid]. by rewrite decide_True.
Qed.

(** C2 as stated fails, on the opportunity of [world_with_grant]:
    [award] with the float NaN leaves the opportunity awarded with no
    awarded amount (the REAL column takes NULL); with the int
    9007199254740993 the stored awarded amount is the float
    9007199254740992.0; and with the int 2^63 the UPDATE raises
    [OverflowError] and the opportunity is not awarded. *)
Lemma award_amount_not_always_kept :
  (∃ g' w',
     award [117; 0] (Some (PyFloat S754_nan)) None world_with_grant
     = (Return (Some g'), w')
     ∧ Grant.status g' = AWARDED
     ∧ Grant.award_amount g' = None
     ∧ (grants.award_amount <$> Sql.select_grant [117; 0] (db w')) = Some None)
  ∧ (∃ g' w',
     award [117; 0] (Some (PyInt 9007199254740993)) None world_with_grant
     = (Return (Some g'), w')
     ∧ Grant.status g' = AWARDED
     ∧ Grant.award_amount g' = Some (PyFloat (Float64.of_int 9007199254740992))
     ∧ Float64.exact (Float64.of_int 9007199254740992)
       = Some (inject_Z 9007199254740992))
  ∧ (∃ w',
     award [117; 0] (Some (PyInt (2 ^ 63))) None world_with_grant
     = (Raise OverflowError, w')
     ∧ find_grant (db w') [117; 0] = Return (Some the_grant)).
Proof.
  split_and!.
  - eexists _, _. split; [by vm_compute|]. by vm_compute.
  - eexists _, _. split; [by vm_compute|]. by vm_compute.
  - eexists. split; [by vm_compute|]. by vm_compute.
Qed.

(** C2, as amended.  On an existing opportunity of a reachable world,
    when the amount and the timestamp of the UPDATE bind (the amount is a
    float, or an int of 64 bits), [award] returns the opportunity with
    status awarded and the awarded amount its REAL column now holds.  For
    an explicit float that the column can hold (neither NaN nor -0.0) that
    is the float itself; NaN leaves no awarded amount and a zero of either
    sign leaves 0.0; for an explicit int it is the nearest float, which is
    the int exactly when its magnitude is at most 2^53; with the argument
    omitted it is the opportunity's requested amount.  When the amount or
    the timestamp does not bind, [award] raises and the database is as it
    was. *)
Theorem award_sets_award_amount w gid g award_amount reporting_dates :
  reachable w →
  find_grant (db w) gid = Return (Some g) →
  (∀ e, bind_params (award_params (award_actual award_amount g) w) = Some e →
     ∃ w', award gid award_amount reporting_dates w = (Raise e, w') ∧ db w' = db w)
  ∧ (bind_params (award_params (award_actual award_amount g) w) = None →
     ∃ g' w' row',
       award gid award_amount reporting_dates w = (Return (Some g'), w')
       ∧ Grant.status g' = AWARDED
       ∧ Sql.select_grant gid (db w') = Some row'
       ∧ grants.status row' = GrantStatus_value AWARDED
       ∧ Grant.award_amount g' = PyFloat <$> grants.award_amount row'
       ∧ (∀ f, award_amount = Some (PyFloat f) → stored_real f →
            Grant.award_amount g' = Some (PyFloat f))
       ∧ (award_amount = Some (PyFloat S754_nan) → Grant.award_amount g' = None)
       ∧ (∀ s, award_amount = Some (PyFloat (S754_zero s)) →
            Grant.award_amount g' = Some (PyFloat Float64.zero))
       ∧ (∀ z, award_amount = Some (PyInt z) →
            Grant.award_amount g' = Some (PyFloat (Float64.of_int z))
            ∧ ((Z.abs z ≤ 2 ^ 53)%Z →
               Float64.exact (Float64.of_int z) = Some (inject_Z z)))
       ∧ (award_amount = None → Grant.award_amount g' = Some (Grant.amount g))).
Proof.
  intros Hreach Hg. split.
  { intros e Hbind. rewrite (award_raises _ _ _ _ _ _ Hg Hbind). by eexists. }
  intros Hbind. pose proof Hg as (Henc & r & Hsel & Hr)%find_grant_Some.
  rewrite (award_existing _ _ _ _ _ Hg Hbind).
  eexists _, _, _. split; [reflexivity|]. split; [done|].
  split; [by apply select_grant_after_update|]. split; [done|].
  cbn [Grant.award_amount grants.award_amount Sql.set_award].
  split; [done|]. split_and!.
  - intros f -> Hf. cbn [award_actual]. by rewrite Hf.
  - by intros ->.
  - by intros s ->.
  - intros z ->. split; [done|]. apply exact_of_int.
  - intros ->. cbn [award_actual].
    apply read_row_Return in Hr as (ty & st & rq & rd & ct & _ & _ & _ & _ & _ & ->).
    cbn [Grant.amount].
    destruct (reachable_consistent w Hreach) as [_ _ _ Hreal _ _].
    apply select_grant_Some in Hsel as [Hin _].
    pose proof (proj1 (Forall_forall _ _) Hreal r Hin) as Hst. cbn in Hst.
    unfold stored_real in Hst. by rewrite Hst.
Qed.

Lemma award_sets_award_amount_witness :
  (∃ g' w' row',
     award [117; 0] (Some (PyInt 45000)) None world_with_grant = (Return (Some g'), w')
     ∧ Grant.status g' = AWARDED
     ∧ Grant.award_amount g' = Some (PyFloat (Float64.of_int 45000))
     ∧ Float64.exact (Float64.of_int 45000) = Some (inject_Z 45000)
     ∧ Sql.select_grant [117; 0] (db w') = Some row')
  ∧ (∃ g' w' row',
     award [117; 0] (Some (PyFloat Float64.one_half)) None world_with_grant
     = (Return (Some g'), w')
     ∧ Grant.award_amount g' = Some (PyFloat Float64.one_half)
     ∧ Sql.select_grant [117; 0] (db w') = Some row')
  ∧ (∃ g' w' row',
     award [117; 0] None None world_with_grant = (Return (Some g'), w')
     ∧ Grant.status g' = AWARDED
     ∧ Grant.award_amount g' = Some (Grant.amount the_grant)
     ∧ Sql.select_grant [117; 0] (db w') = Some row')
  ∧ (∃ w',
     award [117; 0] (Some (PyInt (2 ^ 63))) None world_with_grant
     = (Raise OverflowError, w')
     ∧ db w' = db world_with_grant).
Proof.
  split_and!.
  - destruct (award_sets_award_amount world_with_grant [117; 0] the_grant
                (Some (PyInt 45000)) None world_with_grant_reachable the_grant_exists)
      as [_ Hreturns].
    destruct (Hreturns eq_refl)
      as (g' & w' & row' & Hrun & Hstatus & Hsel & _ & _ & _ & _ & _ & Hint & _).
    destruct (Hint _ eq_refl) as [Hg Hexact].
    exists g', w', row'. split; [exact Hrun|]. split; [exact Hstatus|].
    split; [exact Hg|]. split; [|exact Hsel]. apply Hexact. by vm_compute.
  - destruct (award_sets_award_amount world_with_grant [117; 0] the_grant
                (Some (PyFloat Float64.one_half)) None world_with_grant_reachable
                the_grant_exists) as [_ Hreturns].
    destruct (Hreturns eq_refl)
      as (g' & w' & row' & Hrun & Hstatus & Hsel & _ & _ & Hfloat & _).
    exists g', w', row'. split; [exact Hrun|]. split; [|exact Hsel].
    by apply Hfloat.
  - destruct (award_sets_award_amount world_with_grant [117; 0] the_grant
                None None world_with_grant_reachable the_grant_exists)
      as [_ Hreturns].
    destruct (Hreturns eq_refl)
      as (g' & w' & row' & Hrun & Hstatus & Hsel & _ & _ & _ & _ & _ & _ & Homitted).
    exists g', w', row'. split; [exact Hrun|]. split; [exact Hstatus|].
    split; [|exact Hsel]. by apply Homitted.
  - destruct (award_sets_award_amount world_with_grant [117; 0] the_grant
                (Some (PyInt (2 ^ 63))) None world_with_grant_reachable the_grant_exists)
      as [Hraises _].
    apply Hraises. reflexivity.
Defined.

(** C3 as stated fails: [award] on the opportunity of [world_with_grant]
    with the one-string list holding the two characters U+D83D U+DE00 as
    reporting dates returns, and stores, the list holding the single
    character U+1F600. *)
Lemma award_joins_surrogate_pair :
  let l := [[0xD83D; 0xDE00]] in
  Forall valid_str l
  ∧ ∃ g' w',
      award [117; 0] None (Some l) world_with_grant = (Return (Some g'), w')
      ∧ Grant.reporting_dates g' = [[0x1F600]]
      ∧ bool_decide (Grant.reporting_dates g' = l) = false
      ∧ find_grant (db w') [117; 0] = Return (Some g').
Proof.
  cbv zeta. split; [repeat constructor|].
  eexists _, _. split; [by vm_compute|]. split_and!; by vm_compute.
Qed.

(** C3, as amended.  On an existing opportunity, when the parameters of
    the UPDATE bind, [award] stores as reporting dates the encoding of the
    supplied list, or of the empty list when the argument is omitted,
    whatever was stored before: with the argument omitted the column holds
    ["[]"] and the opportunity returned has no reporting dates.  A
    supplied list of Python strings in which no high surrogate is followed
    by a low surrogate is read back as it was given. *)
Theorem award_sets_reporting_dates w gid g award_amount reporting_dates :
  find_grant (db w) gid = Return (Some g) →
  bind_params (award_params (award_actual award_amount g) w) = None →
  ∃ g' w' row',
    award gid award_amount reporting_dates w = (Return (Some g'), w')
    ∧ Sql.select_grant gid (db w') = Some row'
    ∧ grants.reporting_dates row' = dumps (default [] reporting_dates)
    ∧ loads (grants.reporting_dates row') = Some (Grant.reporting_dates g')
    ∧ (reporting_dates = None →
         grants.reporting_dates row' = lit "[]" ∧ Grant.reporting_dates g' = [])
    ∧ (∀ l, reporting_dates = Some l →
         Forall valid_str l → Forall (λ s, has_surrogate_pair s = false) l →
         Grant.reporting_dates g' = l).
Proof.
  intros Hg Hbind. pose proof Hg as (Henc & r & Hsel & Hr)%find_grant_Some.
  rewrite (award_existing _ _ _ _ _ Hg Hbind).
  eexists _, _, _. split; [reflexivity|].
  split; [by apply select_grant_after_update|]. split; [done|].
  cbn [grants.reporting_dates Sql.set_award Grant.reporting_dates].
  split; [apply loads_dumps|]. split.
  - by intros ->.
  - intros l -> Hv Hp. cbn [default]. by apply fmap_decoded_id.
Qed.

Lemma award_sets_reporting_dates_witness :
  (∃ g' w' row',
      award [117; 0] None (Some [lit "2026-06-30"; lit "2026-12-31"]) world_awarded
      = (Return (Some g'), w')
      ∧ Sql.select_grant [117; 0] (db w') = Some row'
      ∧ Grant.reporting_dates g' = [lit "2026-06-30"; lit "2026-12-31"])
  ∧ Grant.reporting_dates the_awarded_grant = [lit "2025-12-31"]
  ∧ ∃ g' w' row',
      award [117; 0] None None world_awarded = (Return (Some g'), w')
      ∧ Sql.select_grant [117; 0] (db w') = Some row'
      ∧ grants.reporting_dates row' = lit "[]"
      ∧ Grant.reporting_dates g' = [].
Proof.
  split_and!.
  - destruct (award_sets_reporting_dates world_awarded [117; 0] the_awarded_grant
                None (Some [lit "2026-06-30"; lit "2026-12-31"])
                the_awarded_grant_exists eq_refl)
      as (g' & w' & row' & Hrun & Hsel & _ & _ & _ & Hgiven).
    exists g', w', row'. split; [exact Hrun|]. split; [exact Hsel|].
    apply Hgiven; [reflexivity|..].
    + apply (bool_decide_unpack _). vm_compute. exact I.
    + apply (bool_decide_unpack _). vm_compute. exact I.
  - reflexivity.
  - destruct (award_sets_reporting_dates world_awarded [117; 0] the_awarded_grant
                None None the_awarded_grant_exists eq_refl)
      as (g' & w' & row' & Hrun & Hsel & _ & _ & Homitted & _).
    destruct (Homitted eq_refl) as [Hrow Hg]. exists g', w', row'.
    split; [exact Hrun|]. split; [exact Hsel|]. split; [exact Hrow|exact Hg].
Defined.




(** C5 as stated fails: the identifier made of the lone surrogate U+D83D
    is the identifier of no opportunity of [world_with_grant], and each
    of the six transition methods raises [UnicodeEncodeError] on it (the
    SELECT of [get_grant] cannot bind it). *)
Lemma unknown_id_may_raise :
  let gid := [0xD83D] in
  let w := world_with_grant in
  bool_decide (gid ∈ grant_ids (db w)) = false
  ∧ apply gid [] [] w = (Raise UnicodeEncodeError, w)
  ∧ submit gid [] [] None w = (Raise UnicodeEncodeError, w)
  ∧ award gid None None w = (Raise UnicodeEncodeError, w)
  ∧ reject gid [] w = (Raise UnicodeEncodeError, w)
  ∧ start_reporting gid w = (Raise UnicodeEncodeError, w)
  ∧ close gid w = (Raise UnicodeEncodeError, w).
Proof. cbv zeta. split_and!; by vm_compute. Qed.

(** C5, as amended.  For an opportunity identifier that is in no row of
    [grants] and can be encoded as UTF-8, each of the six transition
    methods ([apply], [submit], [award], [reject], [start_reporting],
    [close]) returns [None] without raising; for one that cannot be
    encoded each of them raises [UnicodeEncodeError].  Either way the
    world is left as it was: no row of any table is created or changed
    (and no identifier or clock reading is drawn). *)
Theorem unknown_id_is_absence w gid :
  gid ∉ grant_ids (db w) →
  let outcome : outcome (option Grant.t) :=
    if utf8_encodable gid then Return None else Raise UnicodeEncodeError in
  (∀ notes assigned_to, apply gid notes assigned_to w = (outcome, w))
  ∧ (∀ notes submitted_by documents,
       submit gid notes submitted_by documents w = (outcome, w))
  ∧ (∀ award_amount reporting_dates,
       award gid award_amount reporting_dates w = (outcome, w))
  ∧ (∀ notes, reject gid notes w = (outcome, w))
  ∧ start_reporting gid w = (outcome, w)
  ∧ close gid w = (outcome, w).
Proof.
  intros Hunknown. cbv zeta. unfold apply, reject, start_reporting, close.
  destruct (utf8_encodable gid) eqn:Henc.
  - split_and!; intros;
      first [by apply transition_unknown | by apply submit_unknown | by apply award_unknown].
  - pose proof (find_grant_unencodable (db w) gid Henc) as Hfind.
    split_and!; intros;
      first [by apply transition_lookup_raises | by apply submit_lookup_raises
            | by apply award_lookup_raises].
Qed.

Lemma unknown_id_is_absence_witness :
  submit (lit "missing") (lit "n") (lit "bob") (Some [lit "a.pdf"]) world_with_grant
  = (Return None, world_with_grant)
  ∧ close (lit "missing") world_with_grant = (Return None, world_with_grant).
Proof.
  assert (lit "missing" ∉ grant_ids (db world_with_grant)) as Hunknown.
  { apply (bool_decide_unpack _). vm_compute. exact I. }
  destruct (unknown_id_is_absence world_with_grant (lit "missing") Hunknown)
    as (_ & Hsubmit & _ & _ & _ & Hclose).
  split; [apply Hsubmit|apply Hclose].
Defined.

(** C6.  The code at the failing input: for an identifier that no
    opportunity carries, [add_note] returns a note and a row for that
    identifier is listed by [get_notes]' query afterwards; the rows of
    [grants] are as they were. *)
Lemma add_note_unknown_id_returns_note :
  let gid := lit "no-such-grant" in
  bool_decide (gid ∈ grant_ids (db world_with_grant)) = false
  ∧ ∃ n w',
      add_note gid (lit "hello") [] world_with_grant = (Return n, w')
      ∧ GrantNote.grant_id n = gid
      ∧ (grant_notes.grant_id <$> Sql.select_notes gid (db w')) = [gid]
      ∧ Db.grants (db w') = Db.grants (db world_with_grant).
Proof.
  cbv zeta. split; [by vm_compute|].
  eexists _, _. split; [by vm_compute|]. split_and!; by vm_compute.
Qed.

(** C7 as stated fails: the one-string list holding the two characters
    U+D83D U+DE00 is written as the escapes of a surrogate pair and read
    back as the single character U+1F600; an opportunity identified with
    that list as requirements is read back by [get_grant] with the joined
    character. *)
Lemma json_joins_surrogate_pair :
  let l := [[0xD83D; 0xDE00]] in
  Forall valid_str l
  ∧ dumps l = lit "[" ++ [QUOTE] ++ lit "\ud83d\ude00" ++ [QUOTE] ++ lit "]"
  ∧ loads (dumps l) = Some [[0x1F600]]
  ∧ bool_decide (loads (dumps l) = Some l) = false
  ∧ ∃ g w' g',
      identify (lit "Grant") (lit "Funder") (PyInt 50000) None FOUNDATION []
        (Some l) None [] fresh_world = (Return g, w')
      ∧ Grant.requirements g = l
      ∧ find_grant (db w') (Grant.id g) = Return (Some g')
      ∧ Grant.requirements g' = [[0x1F600]].
Proof.
  cbv zeta. split_and!.
  - repeat constructor.
  - by vm_compute.
  - by vm_compute.
  - by vm_compute.
  - eexists _, _, _.
    split; [vm_compute; reflexivity|]. split; [reflexivity|].
    split; [vm_compute; reflexivity|]. reflexivity.
Qed.

(** C7, as amended.  For every list of Python strings in which no high
    surrogate is immediately followed by a low surrogate (every list of
    well-formed Unicode text, the empty list included), [json.loads] of
    [json.dumps] of the list is the list itself, order and content
    kept; and when [identify] is given such lists as requirements and
    contacts, with parameters that bind, an amount the column accepts and
    an unused identifier, the opportunity read back by [get_grant] has
    the same lists. *)
Theorem json_lists_round_trip (l : list str) :
  Forall valid_str l →
  Forall (λ s, has_surrogate_pair s = false) l →
  loads (dumps l) = Some l
  ∧ ∀ w title funder amount deadline grant_type purpose contacts assigned_to,
      Forall valid_str contacts →
      Forall (λ s, has_surrogate_pair s = false) contacts →
      uuid_source w 0%nat ∉ grant_ids (db w) →
      bind_params (identify_params title funder amount deadline purpose assigned_to w)
        = None →
      is_Some (Sql.real_of amount) →
      ∃ g w' g',
        identify title funder amount deadline grant_type purpose (Some l)
          (Some contacts) assigned_to w = (Return g, w')
        ∧ Grant.requirements g = l
        ∧ Grant.contacts g = contacts
        ∧ find_grant (db w') (Grant.id g) = Return (Some g')
        ∧ Grant.requirements g' = l
        ∧ Grant.contacts g' = contacts
        ∧ Grant.reporting_dates g' = [].
Proof.
  intros Hvalid Hpairs. split.
  - rewrite loads_dumps. f_equal. by apply fmap_decoded_id.
  - intros w title funder amount deadline grant_type purpose contacts assigned_to
      Hvalid' Hpairs' Hfresh Hbind [a Ha].
    rewrite (identify_fresh _ _ _ _ _ _ _ _ _ _ a) by done.
    eexists _, _, _. split; [reflexivity|].
    split; [done|]. split; [done|]. cbn [db drawn].
    split; [apply find_grant_with_grant; [done|]; by eapply identify_params_id|].
    unfold stored, identified.
    cbn [Grant.requirements Grant.reporting_dates Grant.contacts default].
    by rewrite !fmap_decoded_id.
Qed.

Lemma json_lists_round_trip_witness :
  loads (dumps [lit "budget.pdf"; lit "narrative.pdf"])
  = Some [lit "budget.pdf"; lit "narrative.pdf"]
  ∧ loads (dumps []) = Some [].
Proof.
  split.
  - apply json_lists_round_trip.
    + apply (bool_decide_unpack _). vm_compute. exact I.
    + apply (bool_decide_unpack _). vm_compute. exact I.
  - apply json_lists_round_trip; constructor.
Defined.

(** C8.  For creation inputs that are valid (every text can be encoded
    as UTF-8, the amount is a float other than NaN or an int of 64 bits)
    and an identifier drawn from [uuid4] that is unused, [identify]
    returns a new opportunity with status identified, an identifier that
    no earlier row of [grants] carries (and that is now the last of the
    stored identifiers), and both its timestamps equal to the clock
    reading taken by the call.  Whenever [identify] returns, what it
    returns is such an opportunity.  With a parameter that does not bind
    it raises that error, with the amount NaN or a used identifier it
    raises [IntegrityError], and nothing is stored. *)
Theorem identify_creates_identified w title funder amount deadline grant_type purpose
    requirements contacts assigned_to :
  let params := identify_params title funder amount deadline purpose assigned_to w in
  (bind_params params = None →
   is_Some (Sql.real_of amount) →
   uuid_source w 0%nat ∉ grant_ids (db w) →
     ∃ g w',
       identify title funder amount deadline grant_type purpose requirements contacts
         assigned_to w = (Return g, w')
       ∧ Grant.id g = uuid_source w 0%nat
       ∧ Grant.status g = IDENTIFIED
       ∧ (Grant.id g ∉ grant_ids (db w))
       ∧ grant_ids (db w') = grant_ids (db w) ++ [Grant.id g]
       ∧ Grant.created_at g = clock w 0%nat
       ∧ Grant.updated_at g = Grant.created_at g)
  ∧ (∀ g w',
     identify title funder amount deadline grant_type purpose requirements contacts
       assigned_to w = (Return g, w') →
     Grant.status g = IDENTIFIED
     ∧ (Grant.id g ∉ grant_ids (db w))
     ∧ grant_ids (db w') = grant_ids (db w) ++ [Grant.id g]
     ∧ Grant.created_at g = clock w 0%nat
     ∧ Grant.updated_at g = Grant.created_at g)
  ∧ (∀ e, bind_params params = Some e →
     ∃ w',
       identify title funder amount deadline grant_type purpose requirements contacts
         assigned_to w = (Raise e, w')
       ∧ db w' = db w)
  ∧ (bind_params params = None →
     Sql.real_of amount = None ∨ uuid_source w 0%nat ∈ grant_ids (db w) →
     ∃ w',
       identify title funder amount deadline grant_type purpose requirements contacts
         assigned_to w = (Raise IntegrityError, w')
       ∧ db w' = db w).
Proof.
  cbv zeta. split_and!.
  - intros Hbind [a Ha] Hfresh. rewrite (identify_fresh _ _ _ _ _ _ _ _ _ _ a) by done.
    eexists _, _. split; [reflexivity|]. split_and!; try done.
    unfold grant_ids, drawn, with_grant. cbn [db Db.grants]. by rewrite fmap_app.
  - intros g w'.
    destruct (bind_params_cases
                (identify_params title funder amount deadline purpose assigned_to w))
      as [Hbind|[e Hbind]]; [|by rewrite (identify_bind_raises _ _ _ _ _ _ _ _ _ _ e)].
    destruct (decide (uuid_source w 0%nat ∈ grant_ids (db w))) as [Hin|Hout];
      [by rewrite identify_duplicate|].
    destruct (Sql.real_of amount) as [a|] eqn:Ha; [|by rewrite identify_null_amount].
    rewrite (identify_fresh _ _ _ _ _ _ _ _ _ _ a) by done. intros [= <- <-].
    split_and!; try done. unfold grant_ids, drawn, with_grant. cbn [db Db.grants].
    by rewrite fmap_app.
  - intros e Hbind. rewrite (identify_bind_raises _ _ _ _ _ _ _ _ _ _ e) by done.
    by eexists.
  - intros Hbind [Hnull|Hdup].
    + rewrite identify_null_amount by done. by eexists.
    + rewrite identify_duplicate by done. by eexists.
Qed.

Lemma identify_creates_identified_witness :
  ∃ g w',
    identify (lit "Test Grant") (lit "NSF") (PyInt 100000) None FEDERAL [] None None []
      world_with_grant = (Return g, w')
    ∧ Grant.status g = IDENTIFIED
    ∧ Grant.id g = [117; 1]
    ∧ grant_ids (db w') = [[117; 0]; [117; 1]]
    ∧ Grant.updated_at g = Grant.created_at g.
Proof.
  destruct (identify_creates_identified world_with_grant (lit "Test Grant") (lit "NSF")
              (PyInt 100000) None FEDERAL [] None None [])
    as (Hvalid & _).
  destruct Hvalid as (g & w' & Hrun & Hid & Hstatus & _ & Hids & _ & Htimes).
  { reflexivity. }
  { by eexists. }
  { apply (bool_decide_unpack _). vm_compute. exact I. }
  exists g, w'. split; [exact Hrun|]. split; [exact Hstatus|]. split; [exact Hid|].
  split; [|exact Htimes]. rewrite Hids, Hid. reflexivity.
Defined.

(** C9.  From a reachable world, after any number of calls of the public
    methods, every row of [grants] that existed is still there, in place,
    under the same identifier; every status column holds the value of one
    of the seven members of [GrantStatus]; and identifiers are unique. *)
Theorem identifier_and_status_invariants w w' :
  reachable w → rtc step w w' →
  ids_kept (db w) (db w')
  ∧ (∀ i r, Db.grants (db w) !! i = Some r →
       ∃ r', Db.grants (db w') !! i = Some r' ∧ grants.id r' = grants.id r)
  ∧ Forall status_named (Db.grants (db w'))
  ∧ NoDup (grant_ids (db w')).
Proof.
  intros Hw Hsteps.
  pose proof (rtc_step_ids_kept _ _ Hsteps) as Hkept.
  split; [done|]. split; [intros i r; by apply ids_kept_lookup|].
  pose proof (rtc_step_reachable _ _ Hw Hsteps) as Hw'.
  split; [by apply reachable_status_named|].
  by destruct (reachable_consistent _ Hw').
Qed.

Lemma identifier_and_status_invariants_witness :
  ids_kept (db world_with_grant) (db world_awarded)
  ∧ (∀ i r, Db.grants (db world_with_grant) !! i = Some r →
       ∃ r', Db.grants (db world_awarded) !! i = Some r' ∧ grants.id r' = grants.id r)
  ∧ Forall status_named (Db.grants (db world_awarded))
  ∧ NoDup (grant_ids (db world_awarded)).
Proof.
  apply identifier_and_status_invariants.
  - exact world_with_grant_reachable.
  - apply rtc_once.
    exists (Award [117; 0] (Some (PyInt 45000)) (Some [lit "2025-12-31"])).
    reflexivity.
Defined.

Lemma assigned_to_updated_transition gid ns now notes d :
  grants.assigned_to <$> Db.grants (updated gid (transition_row ns now notes) d)
  = grants.assigned_to <$> Db.grants d.
Proof.
  unfold updated. cbn [Db.grants]. rewrite <- list_fmap_compose.
  apply list_fmap_ext. intros i r _. cbn. unfold transition_row.
  destruct (decide _); [|done]. by destruct (truthy notes).
Qed.

Lemma assigned_to_db_transition gid ns notes w :
  grants.assigned_to <$> Db.grants (db (_transition gid ns notes w).2)
  = grants.assigned_to <$> Db.grants (db w).
Proof.
  destruct (find_grant_cases (db w) gid) as [(g & Hg & _)|[Hg|[e Hg]]].
  - destruct (bind_params_cases (transition_params notes w)) as [Hb|[e Hb]].
    + rewrite (transition_existing _ _ _ _ g) by done. cbn [snd db tick].
      apply assigned_to_updated_transition.
    + by rewrite (transition_raises _ _ _ _ e) by eauto.
  - by rewrite transition_not_found.
  - by rewrite (transition_lookup_raises _ _ _ _ e).
Qed.

(** C10.  Whatever its [assigned_to] argument, [apply] leaves the stored
    assignee of every opportunity alone, whether the call returns or
    raises, and two calls that differ only in that argument behave the
    same.  On an existing opportunity, when the notes and the timestamp
    bind, [apply] returns the opportunity with status applying and its
    assignee as it was; when they do not bind it raises
    [UnicodeEncodeError] and the database is as it was. *)
Theorem apply_ignores_assigned_to w gid g notes assigned_to :
  find_grant (db w) gid = Return (Some g) →
  (∀ other, apply gid notes other w = apply gid notes assigned_to w)
  ∧ grants.assigned_to <$> Db.grants (db (apply gid notes assigned_to w).2)
    = grants.assigned_to <$> Db.grants (db w)
  ∧ (bind_params (transition_params notes w) = None →
     ∃ g' w',
       apply gid notes assigned_to w = (Return (Some g'), w')
       ∧ Grant.status g' = APPLYING
       ∧ Grant.assigned_to g' = Grant.assigned_to g
       ∧ find_grant (db w') gid = Return (Some g'))
  ∧ (∀ e, bind_params (transition_params notes w) = Some e →
     ∃ w',
       apply gid notes assigned_to w = (Raise UnicodeEncodeError, w')
       ∧ db w' = db w).
Proof.
  intros Hg. unfold apply. split; [done|].
  split; [apply assigned_to_db_transition|]. split.
  - intros Hbind. rewrite (transition_existing _ _ _ _ _ Hg Hbind).
    eexists _, _. split; [reflexivity|]. cbn [Grant.status Grant.assigned_to db tick].
    split; [done|]. split; [done|].
    fold (transitioned APPLYING (clock w 0%nat) notes g).
    by apply find_grant_transitioned.
  - intros e Hbind. rewrite (transition_raises _ _ _ _ e) by eauto. by eexists.
Qed.

Lemma apply_ignores_assigned_to_witness :
  (∃ g' w',
    apply [117; 0] [] (lit "bob") world_with_grant = (Return (Some g'), w')
    ∧ Grant.status g' = APPLYING
    ∧ Grant.assigned_to g' = lit "alice"
    ∧ grants.assigned_to <$> Db.grants (db w') = [lit "alice"])
  ∧ ∀ other, apply [117; 0] [] other world_with_grant
             = apply [117; 0] [] (lit "bob") world_with_grant.
Proof.
  destruct (apply_ignores_assigned_to world_with_grant [117; 0] the_grant [] (lit "bob")
              the_grant_exists) as (Hsame & Hframe & Hreturns & _).
  split; [|exact Hsame].
  destruct (Hreturns eq_refl) as (g' & w' & Hrun & Hstatus & Hassigned & _).
  exists g', w'. split; [exact Hrun|]. split; [exact Hstatus|]. split; [exact Hassigned|].
  rewrite Hrun in Hframe. exact Hframe.
Defined.

(* --------------------------------------------------------------------- *)
(** *** Listing and analytics; what the calls keep over time *)
(* --------------------------------------------------------------------- *)

Lemma text_leb_refl a : Sql.text_leb a a = true.
Proof.
  induction a as [|x a IH]; [done|]. cbn [Sql.text_leb].
  by rewrite N.ltb_irrefl.
Qed.

Lemma text_leb_total a : ∀ b, Sql.text_leb a b = true ∨ Sql.text_leb b a = true.
Proof.
  induction a as [|x a IH]; intros [|y b]; cbn [Sql.text_leb]; auto.
  destruct (N.ltb_spec x y), (N.ltb_spec y x); auto; lia.
Qed.

Lemma text_leb_trans a : ∀ b c,
  Sql.text_leb a b = true → Sql.text_leb b c = true → Sql.text_leb a c = true.
Proof.
  induction a as [|x a IH]; intros [|y b] [|z c]; cbn [Sql.text_leb]; try done.
  destruct (N.ltb_spec x y), (N.ltb_spec y x), (N.ltb_spec y z), (N.ltb_spec z y),
    (N.ltb_spec x z), (N.ltb_spec z x); try done; try lia.
  apply IH.
Qed.

Lemma text_leb_antisym a : ∀ b,
  Sql.text_leb a b = true → Sql.text_leb b a = true → a = b.
Proof.
  induction a as [|x a IH]; intros [|y b]; cbn [Sql.text_leb]; try done.
  destruct (N.ltb_spec x y), (N.ltb_spec y x); try done; try lia.
  intros H1 H2. f_equal; [lia|by apply IH].
Qed.

Lemma deadline_leb_total a b :
  Sql.deadline_leb a b = true ∨ Sql.deadline_leb b a = true.
Proof. destruct a, b; cbn; auto. apply text_leb_total. Qed.

Lemma deadline_leb_trans a b c :
  Sql.deadline_leb a b = true → Sql.deadline_leb b c = true →
  Sql.deadline_leb a c = true.
Proof. destruct a, b, c; cbn; try done. apply text_leb_trans. Qed.

(** Sorting by a key with a total, transitive order. *)
Lemma merge_sort_by_sorted {A K} (leb : K → K → bool) (key : A → K) (l : list A) :
  (∀ a b, leb a b = true ∨ leb b a = true) →
  (∀ a b c, leb a b = true → leb b c = true → leb a c = true) →
  StronglySorted (λ a b, leb (key a) (key b)) (merge_sort (λ a b, leb (key a) (key b)) l).
Proof.
  intros Htot Htrans.
  assert (Transitive (λ a b : A, Is_true (leb (key a) (key b)))) as Htr.
  { intros a b c Hab Hbc. apply Is_true_true. apply Is_true_true in Hab, Hbc. eauto. }
  assert (Total (λ a b : A, Is_true (leb (key a) (key b)))) as Hto.
  { intros a b. destruct (Htot (key a) (key b)) as [H|H]; [left|right];
      by apply Is_true_true. }
  apply (StronglySorted_merge_sort _).
Qed.

Lemma insert_by_Permutation {A} (key : A → str) x l :
  PyList.insert_by key x l ≡ₚ x :: l.
Proof.
  induction l as [|y l IH]; [done|]. cbn [PyList.insert_by].
  destruct (Sql.text_leb _ _); [done|]. rewrite IH. apply Permutation_swap.
Qed.

Lemma sort_by_Permutation {A} (key : A → str) l : PyList.sort_by key l ≡ₚ l.
Proof.
  induction l as [|x l IH]; [done|]. unfold PyList.sort_by. cbn [foldr].
  rewrite insert_by_Permutation. by apply Permutation_skip.
Qed.

Lemma insert_by_sorted {A} (key : A → str) x l :
  StronglySorted (λ a b, Sql.text_leb (key a) (key b)) l →
  StronglySorted (λ a b, Sql.text_leb (key a) (key b)) (PyList.insert_by key x l).
Proof.
  induction 1 as [|y l Hl IH Hy]; cbn [PyList.insert_by].
  - repeat constructor.
  - destruct (Sql.text_leb (key x) (key y)) eqn:E.
    + constructor; [by constructor|]. constructor; [by rewrite E|].
      eapply Forall_impl; [exact Hy|]. intros z Hz. cbn in *.
      apply Is_true_true. apply Is_true_true in Hz. by eapply text_leb_trans.
    + constructor; [exact IH|].
      rewrite insert_by_Permutation. constructor; [|done].
      destruct (text_leb_total (key x) (key y)) as [H|H]; [congruence|].
      by apply Is_true_true.
Qed.

Lemma sort_by_sorted {A} (key : A → str) l :
  StronglySorted (λ a b, Sql.text_leb (key a) (key b)) (PyList.sort_by key l).
Proof.
  induction l as [|x l IH]; [constructor|]. by apply insert_by_sorted.
Qed.

(** Readers that do not use the generators. *)
Lemma mapM_row_to_grant_run rows w :
  mapM _row_to_grant rows w = ((mapM _row_to_grant rows (world_of Db.empty)).1, w).
Proof.
  apply mapM_world_indep. intros r w1 w2. by rewrite !row_to_grant_run.
Qed.

Lemma mapM_read_rows rows :
  Forall row_readable rows →
  ∃ gs, (mapM _row_to_grant rows (world_of Db.empty)).1 = Return gs
        ∧ Forall2 (λ r g, read_row r = Return g) rows gs.
Proof.
  induction 1 as [|r rows Hr _ (gs & Hgs & Hall)].
  - exists []. split; [done|constructor].
  - apply read_row_readable in Hr as [g Hg]. exists (g :: gs).
    split; [|by constructor].
    cbn [mapM]. rewrite bind_run, row_to_grant_run, Hg.
    rewrite bind_run, mapM_row_to_grant_run.
    destruct (mapM _row_to_grant rows (world_of Db.empty)) as [[gs'|e] w']; cbn in *;
      [|done].
    by injection Hgs as ->.
Qed.

Lemma read_rows_run rows w :
  Forall row_readable rows →
  ∃ gs, mapM _row_to_grant rows w = (Return gs, w)
        ∧ Forall2 (λ r g, read_row r = Return g) rows gs.
Proof.
  intros (gs & Hgs & Hall)%mapM_read_rows. exists gs. split; [|done].
  by rewrite mapM_row_to_grant_run, Hgs.
Qed.

Lemma read_row_id r g : read_row r = Return g → Grant.id g = grants.id r.
Proof.
  by intros (ty & st & rq & rd & ct & _ & _ & _ & _ & _ & ->)%read_row_Return.
Qed.

Lemma read_row_deadline r g : read_row r = Return g → Grant.deadline g = grants.deadline r.
Proof.
  by intros (ty & st & rq & rd & ct & _ & _ & _ & _ & _ & ->)%read_row_Return.
Qed.

Lemma read_row_funder r g : read_row r = Return g → Grant.funder g = grants.funder r.
Proof.
  by intros (ty & st & rq & rd & ct & _ & _ & _ & _ & _ & ->)%read_row_Return.
Qed.

Lemma GrantStatus_value_inj a b : GrantStatus_value a = GrantStatus_value b → a = b.
Proof.
  intros H. assert (Some a = Some b) as [= ->]; [|done].
  by rewrite <- !GrantStatus_of_value_value, H.
Qed.

Lemma GrantType_value_inj a b : GrantType_value a = GrantType_value b → a = b.
Proof.
  intros H. assert (Some a = Some b) as [= ->]; [|done].
  by rewrite <- !GrantType_of_value_value, H.
Qed.

Lemma GrantType_of_value_Some v ty :
  GrantType_of_value v = Some ty → v = GrantType_value ty.
Proof.
  unfold GrantType_of_value. intros H%head_Some_elem_of.
  apply list_elem_of_filter in H as [H _]. done.
Qed.

Lemma read_row_status r g st :
  read_row r = Return g → grants.status r = GrantStatus_value st ↔ Grant.status g = st.
Proof.
  intros (ty & st' & rq & rd & ct & _ & Hst & _ & _ & _ & ->)%read_row_Return.
  cbn. apply GrantStatus_of_value_Some in Hst. rewrite Hst. split.
  - apply GrantStatus_value_inj.
  - by intros ->.
Qed.

Lemma read_row_type r g ty :
  read_row r = Return g → grants.type r = GrantType_value ty ↔ Grant.type g = ty.
Proof.
  intros (ty' & st & rq & rd & ct & Hty & _ & _ & _ & _ & ->)%read_row_Return.
  cbn. apply GrantType_of_value_Some in Hty. rewrite Hty. split.
  - apply GrantType_value_inj.
  - by intros ->.
Qed.

Lemma select_grant_elem_of d r :
  NoDup (grant_ids d) → r ∈ Db.grants d → Sql.select_grant (grants.id r) d = Some r.
Proof.
  unfold grant_ids, Sql.select_grant. induction (Db.grants d) as [|x l IH]; intros Hnd Hin.
  - by apply elem_of_nil in Hin.
  - rewrite fmap_cons in Hnd. apply NoDup_cons in Hnd as [Hx Hnd].
    apply elem_of_cons in Hin as [->|Hin].
    + by rewrite filter_cons_True.
    + rewrite filter_cons_False; [by apply IH|].
      intros Heq. apply Hx. rewrite Heq. by apply list_elem_of_fmap_2.
Qed.

(** With unique identifiers, the rows that read as [g] are what
    [get_grant] finds under the identifier of [g]. *)
Lemma stored_iff d g :
  db_consistent d →
  (∃ r, r ∈ Db.grants d ∧ read_row r = Return g)
  ↔ find_grant d (Grant.id g) = Return (Some g).
Proof.
  intros [_ Hnd Hbound _ _ _]. split.
  - intros (r & Hin & Hr). apply find_grant_Some. split.
    + rewrite (read_row_id r g Hr). by eapply (proj1 (Forall_forall _ _) Hbound).
    + exists r. split; [|done].
      rewrite (read_row_id r g Hr). by apply select_grant_elem_of.
  - intros (_ & r & Hsel & Hr)%find_grant_Some. exists r. split; [|done].
    by apply select_grant_Some in Hsel as [? _].
Qed.

Lemma selection_sorted_filter (R : relation grants.row) `{∀ x y, Decision (R x y)}
    (P : grants.row → Prop) `{∀ x, Decision (P x)} d :
  selection (merge_sort R (filter P (Db.grants d))) d.
Proof.
  exists (filter P (Db.grants d)). split.
  - apply merge_sort_Permutation.
  - apply sublist_filter.
Qed.

Lemma selection_NoDup rows d :
  NoDup (grant_ids d) → selection rows d → NoDup (grants.id <$> rows).
Proof.
  intros Hnd (rows0 & Hperm & Hsub). rewrite Hperm.
  eapply sublist_NoDup; [exact Hnd|]. by apply fmap_sublist.
Qed.

Lemma Forall2_read_ids rows gs :
  Forall2 (λ r g, read_row r = Return g) rows gs → Grant.id <$> gs = grants.id <$> rows.
Proof.
  induction 1 as [|r g rows gs Hr _ IH]; [done|].
  rewrite !fmap_cons, IH. f_equal. by apply read_row_id.
Qed.

Lemma Forall2_read_elem_of rows gs g :
  Forall2 (λ r g, read_row r = Return g) rows gs →
  g ∈ gs ↔ ∃ r, r ∈ rows ∧ read_row r = Return g.
Proof.
  induction 1 as [|r g' rows gs Hr _ IH].
  - split; [by intros ?%elem_of_nil|by intros (? & ?%elem_of_nil & _)].
  - rewrite elem_of_cons, IH. split.
    + intros [->|(r' & Hin & Hr')].
      * exists r. split; [left|done].
      * exists r'. split; [by right|done].
    + intros (r' & [->|Hin]%elem_of_cons & Hr').
      * left. congruence.
      * right. eauto.
Qed.

Lemma Forall2_read_sorted (leb : option str → option str → bool) rows gs :
  Forall2 (λ r g, read_row r = Return g) rows gs →
  StronglySorted (λ a b, leb (grants.deadline a) (grants.deadline b)) rows →
  StronglySorted (λ a b, leb (Grant.deadline a) (Grant.deadline b)) gs.
Proof.
  induction 1 as [|r g rows gs Hr Hall IH]; [constructor|].
  intros [Hs Hhd]%StronglySorted_inv. constructor; [by apply IH|].
  apply Forall_forall. intros g' (r' & Hin & Hr')%(Forall2_read_elem_of rows gs); [|done].
  rewrite (read_row_deadline r g Hr), (read_row_deadline r' g' Hr').
  by eapply Forall_forall in Hhd.
Qed.

(** From rows to what the listing methods return. *)
Lemma listing d rows gs (P : grants.row → Prop) (Q : Grant.t → Prop) :
  db_consistent d →
  (∀ r, r ∈ rows ↔ r ∈ Db.grants d ∧ P r) →
  (∀ r g, read_row r = Return g → P r ↔ Q g) →
  Forall2 (λ r g, read_row r = Return g) rows gs →
  ∀ g, g ∈ gs ↔ find_grant d (Grant.id g) = Return (Some g) ∧ Q g.
Proof.
  intros Hnd Hrows HPQ Hread g. rewrite (Forall2_read_elem_of rows gs g Hread).
  rewrite <- (stored_iff d g Hnd). split.
  - intros (r & [Hin HP]%Hrows & Hr). split; [eauto|]. by apply (HPQ r g).
  - intros [(r & Hin & Hr) HQ]. exists r. split; [|done].
    apply Hrows. split; [done|]. by apply (HPQ r g).
Qed.

Lemma elem_of_select_grants status type funder d r :
  r ∈ Sql.select_grants status type funder d ↔
  r ∈ Db.grants d
  ∧ (∀ v, status = Some v → grants.status r = v)
  ∧ (∀ v, type = Some v → grants.type r = v)
  ∧ (∀ v, funder = Some v → grants.funder r = v).
Proof.
  unfold Sql.select_grants. rewrite merge_sort_Permutation.
  destruct status as [s|], type as [t|], funder as [f|];
    rewrite ?list_elem_of_filter; split.
  all: try (intros (? & ? & ? & ?); repeat split; try done; intros ? [= <-]; done).
  all: try (intros (? & ? & ?); repeat split; try done; intros ? [= <-]; done).
  all: try (intros (? & ?); repeat split; try done; intros ? [= <-]; done).
  all: try (intros ?; repeat split; try done; intros ? [= <-]; done).
  all: intros (? & Hs & Ht & Hf); repeat split; eauto.
Qed.

Lemma selection_select_grants status type funder d :
  selection (Sql.select_grants status type funder d) d.
Proof.
  unfold Sql.select_grants. eexists. split; [apply merge_sort_Permutation|].
  destruct status as [s|], type as [t|], funder as [f|];
    repeat (etrans; [apply sublist_filter|]); done.
Qed.

Lemma selection_readable rows d :
  Forall row_readable (Db.grants d) → selection rows d → Forall row_readable rows.
Proof.
  intros Hall (rows0 & Hperm & Hsub). rewrite Hperm.
  apply Forall_forall. intros r Hr. eapply Forall_forall in Hall; [exact Hall|].
  by eapply sublist_subseteq.
Qed.

Lemma list_grants_bind status grant_type funder :
  bind_params
    (omap (fmap PText)
       [GrantStatus_value <$> status; GrantType_value <$> grant_type;
        applied_filter funder])
  = if utf8_encodable (filter_text funder) then None else Some UnicodeEncodeError.
Proof.
  unfold filter_text.
  destruct status as [s|], grant_type as [t|], (applied_filter funder) as [f|];
    cbn [omap list_omap fmap option_fmap option_map bind_params bind_param default
         from_option id];
    rewrite ?GrantStatus_value_encodable, ?GrantType_value_encodable; unfold id;
    try done; by destruct (utf8_encodable f).
Qed.

Lemma list_grants_raises status grant_type funder w :
  utf8_encodable (filter_text funder) = false →
  list_grants status grant_type funder w = (Raise UnicodeEncodeError, w).
Proof.
  intros Henc. unfold list_grants. fold (applied_filter funder).
  rewrite bind_run. unfold query_bound. by rewrite list_grants_bind, Henc.
Qed.

Lemma list_grants_run status grant_type funder w :
  db_consistent (db w) →
  utf8_encodable (filter_text funder) = true →
  ∃ gs, list_grants status grant_type funder w = (Return gs, w)
    ∧ (∀ g, g ∈ gs ↔
         find_grant (db w) (Grant.id g) = Return (Some g)
         ∧ matches_filters status grant_type funder g)
    ∧ NoDup (Grant.id <$> gs)
    ∧ StronglySorted (λ a b, Sql.deadline_leb (Grant.deadline a) (Grant.deadline b)) gs.
Proof.
  intros Hc Henc. pose proof Hc as [Hread Hnd _ _ _ _].
  set (fu := applied_filter funder).
  pose proof (selection_select_grants (GrantStatus_value <$> status)
                (GrantType_value <$> grant_type) fu (db w)) as Hsel.
  destruct (read_rows_run _ w (selection_readable _ _ Hread Hsel)) as (gs & Hrun & Hall).
  exists gs. split; [|split; [|split]].
  - unfold list_grants. fold (applied_filter funder). fold fu.
    rewrite bind_run. unfold query_bound. unfold fu at 1.
    by rewrite list_grants_bind, Henc.
  - eapply listing; [done| |  |exact Hall].
    + intros r. apply elem_of_select_grants.
    + intros r g Hr. unfold matches_filters. split.
      * intros (Hs & Ht & Hf). split; [|split].
        -- intros s ->. apply (read_row_status r g s Hr). by apply Hs.
        -- intros t ->. apply (read_row_type r g t Hr). by apply Ht.
        -- intros f -> Hne. rewrite (read_row_funder r g Hr). apply Hf.
           unfold fu, applied_filter. by destruct f.
      * intros (Hs & Ht & Hf). split; [|split].
        -- intros v Hv. destruct status as [s|]; [|done]. injection Hv as <-.
           apply (read_row_status r g s Hr). by apply Hs.
        -- intros v Hv. destruct grant_type as [t|]; [|done]. injection Hv as <-.
           apply (read_row_type r g t Hr). by apply Ht.
        -- intros v Hv. unfold fu, applied_filter in Hv. destruct funder as [f|]; [|done].
           destruct f as [|c f]; [done|]. injection Hv as <-.
           rewrite <- (read_row_funder r g Hr). by apply Hf.
  - rewrite (Forall2_read_ids _ _ Hall). by eapply selection_NoDup.
  - eapply Forall2_read_sorted; [exact Hall|].
    apply (merge_sort_by_sorted Sql.deadline_leb grants.deadline).
    + apply deadline_leb_total.
    + apply deadline_leb_trans.
Qed.

Lemma elem_of_select_upcoming today cutoff d r :
  r ∈ Sql.select_upcoming today cutoff d ↔
  r ∈ Db.grants d
  ∧ (Sql.deadline_between today cutoff r = true ∧ grants.status r ∈ Sql.open_statuses).
Proof.
  unfold Sql.select_upcoming. rewrite merge_sort_Permutation, list_elem_of_filter.
  rewrite Is_true_true. tauto.
Qed.

Lemma upcoming_run today cutoff w :
  db_consistent (db w) →
  ∃ gs, (rows ← query (Sql.select_upcoming today cutoff); mapM _row_to_grant rows) w
        = (Return gs, w)
    ∧ (∀ g, g ∈ gs ↔
         find_grant (db w) (Grant.id g) = Return (Some g) ∧ due_between today cutoff g)
    ∧ NoDup (Grant.id <$> gs)
    ∧ StronglySorted (λ a b, Sql.deadline_leb (Grant.deadline a) (Grant.deadline b)) gs.
Proof.
  intros Hc. pose proof Hc as [Hread Hnd _ _ _ _].
  assert (selection (Sql.select_upcoming today cutoff (db w)) (db w)) as Hsel
    by apply selection_sorted_filter.
  destruct (read_rows_run _ w (selection_readable _ _ Hread Hsel)) as (gs & Hrun & Hall).
  exists gs. split; [|split; [|split]].
  - by rewrite bind_run.
  - eapply listing; [done| | |exact Hall].
    + intros r. apply elem_of_select_upcoming.
    + intros r g Hr. unfold due_between, Sql.deadline_between, Sql.open_statuses.
      rewrite (read_row_deadline r g Hr).
      rewrite <- (read_row_status r g IDENTIFIED Hr), <- (read_row_status r g APPLYING Hr).
      rewrite !elem_of_cons, elem_of_nil. cbn [GrantStatus_value]. split.
      * intros [Hd Hs]. split; [tauto|].
        destruct (grants.deadline r) as [dl|]; [|done].
        apply andb_true_iff in Hd as [H1 H2]. eauto.
      * intros [Hs (dl & -> & H1 & H2)]. split; [|tauto].
        by rewrite H1, H2.
  - rewrite (Forall2_read_ids _ _ Hall). by eapply selection_NoDup.
  - eapply Forall2_read_sorted; [exact Hall|].
    apply (merge_sort_by_sorted Sql.deadline_leb grants.deadline).
    + apply deadline_leb_total.
    + apply deadline_leb_trans.
Qed.

Lemma calendar_run today cutoff w :
  db_consistent (db w) →
  ∃ es,
    (grants ← list_grants (Some REPORTING) None None;
     mret (PyList.sort_by CalendarEntry.reporting_date
             (g ← grants;
              rd ← filter (λ rd, Sql.text_leb today rd && Sql.text_leb rd cutoff)
                     (Grant.reporting_dates g);
              [CalendarEntry.mk (Grant.id g) (Grant.title g) (Grant.funder g) rd
                 (Grant.award_amount g)]))) w
    = (Return es, w)
    ∧ (∀ e, e ∈ es ↔
         ∃ g, find_grant (db w) (CalendarEntry.grant_id e) = Return (Some g)
              ∧ Grant.status g = REPORTING
              ∧ CalendarEntry.reporting_date e ∈ Grant.reporting_dates g
              ∧ Sql.text_leb today (CalendarEntry.reporting_date e) = true
              ∧ Sql.text_leb (CalendarEntry.reporting_date e) cutoff = true
              ∧ e = calendar_entry g (CalendarEntry.reporting_date e))
    ∧ StronglySorted (λ a b, Sql.text_leb (CalendarEntry.reporting_date a)
                               (CalendarEntry.reporting_date b)) es.
Proof.
  intros Hc.
  destruct (list_grants_run (Some REPORTING) None None w Hc eq_refl)
    as (gs & Hrun & Hmem & _ & _).
  eexists. split; [|split].
  - rewrite bind_run, Hrun. reflexivity.
  - intros e. rewrite sort_by_Permutation, list_elem_of_bind. split.
    + intros (g & (rd & He & Hrd)%list_elem_of_bind & Hg).
      apply list_elem_of_singleton in He as ->.
      apply list_elem_of_filter in Hrd as [Hwin Hrd].
      apply Is_true_true, andb_true_iff in Hwin as [H1 H2].
      apply Hmem in Hg as [Hfind (Hs & _ & _)].
      exists g. cbn. repeat split; try done. by apply Hs.
    + intros (g & Hfind & Hs & Hrd & H1 & H2 & He).
      exists g. split.
      * apply list_elem_of_bind. exists (CalendarEntry.reporting_date e). split.
        -- rewrite He at 1. apply list_elem_of_singleton. done.
        -- apply list_elem_of_filter. split; [|done].
           apply Is_true_true. by rewrite H1, H2.
      * apply Hmem. rewrite He in Hfind. cbn in Hfind. split; [done|].
        repeat split; try done. by intros s [= <-].
  - apply sort_by_sorted.
Qed.

(** GROUP BY: the group of a key holds the rows with that key, in table
    order; keys without rows have no group. *)
Lemma group_rows_lookup key rows k :
  Sql.group_rows key rows !! k =
    match filter (λ r, key r = k) rows with
    | [] => None
    | l => Some l
    end.
Proof.
  induction rows as [|r rows IH]; [done|].
  unfold Sql.group_rows. cbn [foldr]. fold (Sql.group_rows key rows).
  destruct (decide (key r = k)) as [Heq|Hne].
  - rewrite filter_cons_True by done. rewrite Heq, lookup_insert_eq, IH.
    by destruct (filter _ rows).
  - rewrite lookup_insert_ne, filter_cons_False by done. exact IH.
Qed.

Lemma group_rows_total key rows :
  map_fold (λ _ (l : list grants.row) acc, (length l + acc)%nat) 0%nat
    (Sql.group_rows key rows) = length rows.
Proof.
  induction rows as [|r rows IH]; [done|].
  unfold Sql.group_rows. cbn [foldr]. fold (Sql.group_rows key rows).
  set (m := Sql.group_rows key rows) in *.
  destruct (m !! key r) as [l|] eqn:E; cbn [default].
  - rewrite <- insert_delete_eq.
    rewrite map_fold_insert_L; [|intros; lia|by rewrite lookup_delete_eq].
    assert (map_fold (λ _ (l : list grants.row) acc, (length l + acc)%nat) 0%nat m
            = (length l + map_fold (λ _ (l : list grants.row) acc, (length l + acc)%nat)
                            0%nat (delete (key r) m))%nat) as Hm.
    { rewrite <- (insert_delete_id m (key r) l) at 1 by done.
      rewrite map_fold_insert_L; [done|intros; lia|by rewrite lookup_delete_eq]. }
    rewrite Hm in IH. cbn [length id]. unfold id. lia.
  - rewrite map_fold_insert_L; [|intros; lia|done]. cbn [length]. lia.
Qed.

(** A dict filled in a loop over the rows of a GROUP BY. *)
Lemma foldl_insert_lookup {A B} (h : A → B) (l : list (str * A)) :
  NoDup l.*1 →
  ∀ (m0 : gmap str B) k,
    foldl (λ acc g, <[g.1 := h g.2]> acc) m0 l !! k =
      match (list_to_map l : gmap str A) !! k with
      | Some a => Some (h a)
      | None => m0 !! k
      end.
Proof.
  induction l as [|[k1 a1] l IH]; intros Hnd m0 k; [done|].
  rewrite fmap_cons in Hnd. apply NoDup_cons in Hnd as [Hk1 Hnd].
  cbn [foldl list_to_map foldr fst snd]. rewrite IH by done.
  destruct (decide (k1 = k)) as [->|Hne].
  - rewrite lookup_insert_eq.
    rewrite (not_elem_of_list_to_map_1 l k) by done. by rewrite lookup_insert_eq.
  - by rewrite !lookup_insert_ne by done.
Qed.

Lemma foldl_insert_groups {A B} (h : A → B) (m : gmap str A) :
  foldl (λ acc g, <[g.1 := h g.2]> acc) ∅ (map_to_list m) = h <$> m.
Proof.
  apply map_eq. intros k.
  rewrite foldl_insert_lookup by apply NoDup_fst_map_to_list.
  rewrite list_to_map_to_list, lookup_fmap. by destruct (m !! k).
Qed.

Lemma get_pipeline_run sum_real add_real round2 w :
  ∃ p, get_pipeline sum_real add_real round2 w = (Return p, w)
    ∧ Pipeline.by_status p =
        pipeline_entry sum_real round2 <$> Sql.group_rows grants.status (Db.grants (db w))
    ∧ Pipeline.total_grants p = length (Db.grants (db w)).
Proof.
  eexists. split; [|split].
  - unfold get_pipeline. rewrite bind_run. unfold query. reflexivity.
  - cbn [Pipeline.by_status]. unfold Sql.select_pipeline. rewrite foldl_fmap.
    apply (foldl_insert_groups (pipeline_entry sum_real round2)).
  - cbn [Pipeline.total_grants]. unfold Sql.select_pipeline. rewrite foldl_fmap.
    rewrite (foldl_insert_groups (pipeline_entry sum_real round2)).
    rewrite map_fold_fmap. apply group_rows_total.
Qed.

Lemma total_funding_by_type_run sum_real round2 w :
  ∃ m, total_funding_by_type sum_real round2 w = (Return m, w)
    ∧ m = funding_total sum_real round2
          <$> Sql.group_rows grants.type
                (filter (λ r, grants.status r = lit "awarded") (Db.grants (db w))).
Proof.
  eexists. split.
  - unfold total_funding_by_type. rewrite bind_run. unfold query. reflexivity.
  - unfold Sql.select_funding_by_type. rewrite foldl_fmap.
    apply (foldl_insert_groups (funding_total sum_real round2)).
Qed.

Lemma transition_db_change c gid ns notes w :
  updates c = Some gid → ns ∈ transition_targets →
  db_change c (db w) (db (_transition gid ns notes w).2).
Proof.
  intros Hc Hns.
  destruct (find_grant_cases (db w) gid) as [(g & Hg & Hin & _)|[Hg|[e Hg]]].
  - destruct (bind_params_cases (transition_params notes w)) as [Hb|[e Hb]].
    + rewrite (transition_existing _ _ _ _ g) by done. cbn. by constructor.
    + rewrite (transition_raises _ _ _ _ e) by eauto. constructor.
  - rewrite transition_not_found by done. constructor.
  - rewrite (transition_lookup_raises _ _ _ _ e) by done. constructor.
Qed.

Lemma award_db_change c gid amt dates w :
  updates c = Some gid → db_change c (db w) (db (award gid amt dates w).2).
Proof.
  intros Hc.
  destruct (find_grant_cases (db w) gid) as [(g & Hg & Hin & _)|[Hg|[e Hg]]].
  - destruct (bind_params_cases (award_params (award_actual amt g) w)) as [Hb|[e Hb]].
    + rewrite (award_existing _ _ _ _ g) by done. cbn. by constructor.
    + rewrite (award_raises _ _ _ _ g e) by done. constructor.
  - rewrite award_not_found by done. constructor.
  - rewrite (award_lookup_raises _ _ _ _ e) by done. constructor.
Qed.

Lemma submit_db_change c gid notes submitted_by documents w :
  updates c = Some gid →
  db_change c (db w) (db (submit gid notes submitted_by documents w).2).
Proof.
  intros Hc.
  destruct (find_grant_cases (db w) gid) as [(g & Hg & Hin & _)|[Hg|[e Hg]]].
  - destruct (bind_params_cases (submit_params notes submitted_by w)) as [Hb|[e Hb]].
    + destruct (decide (uuid_source w 0%nat ∈ submissions.id <$> Db.submissions (db w))).
      * rewrite (submit_insert_fails _ _ _ _ _ g) by done. constructor.
      * destruct (utf8_encodable (clock w 2%nat)) eqn:Hnow.
        -- rewrite (submit_existing _ _ _ _ _ g) by done. cbn. by constructor.
        -- rewrite (submit_update_raises _ _ _ _ _ g) by done. cbn. by constructor.
    + rewrite (submit_bind_raises _ _ _ _ _ g e) by done. constructor.
  - rewrite submit_not_found by done. constructor.
  - rewrite (submit_lookup_raises _ _ _ _ _ e) by done. constructor.
Qed.

Lemma identify_db_change c title funder amount deadline grant_type purpose requirements
    contacts assigned_to w :
  db_change c (db w)
    (db (identify title funder amount deadline grant_type purpose requirements
           contacts assigned_to w).2).
Proof.
  destruct (bind_params_cases
              (identify_params title funder amount deadline purpose assigned_to w))
    as [Hb|[e Hb]].
  - destruct (decide (uuid_source w 0%nat ∈ grant_ids (db w))).
    + rewrite identify_duplicate by done. constructor.
    + destruct (Sql.real_of amount) as [a|] eqn:Ha.
      * rewrite (identify_fresh _ _ _ _ _ _ _ _ _ _ a) by done. cbn. by constructor.
      * rewrite identify_null_amount by done. constructor.
  - rewrite (identify_bind_raises _ _ _ _ _ _ _ _ _ _ e) by done. constructor.
Qed.

Lemma add_note_db_change c gid content author w :
  db_change c (db w) (db (add_note gid content author w).2).
Proof.
  destruct (bind_params_cases (add_note_params gid content author w)) as [Hb|[e Hb]].
  - destruct (decide (uuid_source w 0%nat ∈ grant_notes.id <$> Db.grant_notes (db w))).
    + rewrite add_note_duplicate by done. constructor.
    + rewrite add_note_fresh by done. cbn. by constructor.
  - rewrite (add_note_bind_raises _ _ _ _ e) by done. constructor.
Qed.

Lemma perform_db_change c w : db_change c (db w) (db (perform c w).2).
Proof.
  destruct c; cbn [perform]; rewrite discard_result_world.
  - apply identify_db_change.
  - apply transition_db_change; [done|]. apply (bool_decide_unpack _). by vm_compute.
  - by apply submit_db_change.
  - by apply award_db_change.
  - apply transition_db_change; [done|]. apply (bool_decide_unpack _). by vm_compute.
  - apply transition_db_change; [done|]. apply (bool_decide_unpack _). by vm_compute.
  - apply transition_db_change; [done|]. apply (bool_decide_unpack _). by vm_compute.
  - apply add_note_db_change.
Qed.

Lemma transition_row_fields ns now notes r :
  grants.status (transition_row ns now notes r) = GrantStatus_value ns
  ∧ grants.award_amount (transition_row ns now notes r) = grants.award_amount r
  ∧ grants.reporting_dates (transition_row ns now notes r) = grants.reporting_dates r.
Proof. unfold transition_row. by destruct (truthy notes). Qed.

Lemma row_lifecycle_transition ns now notes r :
  ns ≠ IDENTIFIED → row_lifecycle (transition_row ns now notes r).
Proof.
  intros Hi. destruct (transition_row_fields ns now notes r) as (Hs & _ & _).
  unfold row_lifecycle. rewrite Hs. intros H. exfalso. apply Hi.
  by apply GrantStatus_value_inj.
Qed.

Lemma row_lifecycle_award actual dates now r :
  row_lifecycle (Sql.set_award actual dates now r).
Proof. unfold row_lifecycle. by cbn. Qed.

Lemma row_lifecycle_identified a title funder amount deadline grant_type purpose
    requirements contacts assigned_to w :
  row_lifecycle (row_of_grant a (identified title funder amount deadline grant_type
                                   purpose requirements contacts assigned_to w)).
Proof. unfold row_lifecycle. by cbn. Qed.

Lemma transition_targets_spec ns :
  ns ∈ transition_targets → ns ≠ IDENTIFIED ∧ ns ≠ AWARDED ∧ ns ≠ SUBMITTED.
Proof.
  unfold transition_targets. rewrite !elem_of_cons, elem_of_nil.
  intros [->|[->|[->|[->|[]]]]]; done.
Qed.

Lemma submitted_rows_updated gid f (d : Db.t) (subs : list submissions.row) :
  (∀ r, grants.id (f r) = grants.id r) →
  (∀ r, grants.id r = gid → grants.status (f r) = lit "submitted" →
        gid ∈ submissions.grant_id <$> subs) →
  Forall (λ r, grants.status r = lit "submitted" →
               grants.id r ∈ submissions.grant_id <$> subs) (Db.grants d) →
  Forall (λ r, grants.status r = lit "submitted" →
               grants.id r ∈ submissions.grant_id <$> subs)
         (Db.grants (updated gid f d)).
Proof.
  intros Hid Hf Hd. unfold updated. cbn [Db.grants]. apply Forall_fmap.
  eapply Forall_impl; [exact Hd|]. intros r Hr. cbn.
  destruct (decide (grants.id r = gid)) as [Heq|Hne]; [|done].
  intros Hs. rewrite Hid, Heq. by eapply Hf.
Qed.

Lemma db_change_history c d d' : db_change c d d' → db_history d → db_history d'.
Proof.
  destruct 1 as [|gid ns now notes _ _ Hns|gid actual dates now _ _| |
                 gid sid sat notes sby docs cat now _ Hin Hfresh|
                 gid sid sat notes sby docs cat _ Hin Hfresh|row Hfresh];
    intros [Hlife Hsub Hsid Hnid].
  - done.
  - apply transition_targets_spec in Hns as (Hi & Ha & Hs). split; try done.
    + apply Forall_updated; [|done]. intros. by apply row_lifecycle_transition.
    + apply (submitted_rows_updated gid _ d (Db.submissions d));
        [apply transition_row_id| |done].
      intros r _ Hst. exfalso. apply Hs.
      destruct (transition_row_fields ns now notes r) as (Hv & _ & _).
      rewrite Hv in Hst. by apply GrantStatus_value_inj.
  - split; try done.
    + apply Forall_updated; [|done]. intros. apply row_lifecycle_award.
    + apply (submitted_rows_updated gid _ d (Db.submissions d)); [done| |done].
      intros r _ Hst. done.
  - split; try done.
    + unfold with_grant. cbn [Db.grants]. apply Forall_app. split; [done|].
      apply Forall_singleton, row_lifecycle_identified.
    + unfold with_grant. cbn [Db.grants Db.submissions]. apply Forall_app.
      split; [done|]. by apply Forall_singleton.
  - split.
    + apply Forall_updated; [|done]. intros. by apply row_lifecycle_transition.
    + cbn [updated with_submission Db.submissions].
      apply (submitted_rows_updated gid _
               (with_submission (submissions.mk sid gid sat notes sby (dumps docs) cat) d)
               (Db.submissions d ++ [submissions.mk sid gid sat notes sby (dumps docs) cat]));
        [apply transition_row_id| |].
      * intros r _ _. rewrite fmap_app. apply elem_of_app. right.
        by apply list_elem_of_singleton.
      * cbn [with_submission Db.grants].
        eapply Forall_impl; [exact Hsub|]. intros r Hr Hst. cbn in *.
        rewrite fmap_app. apply elem_of_app. left. by apply Hr.
    + cbn [updated with_submission Db.submissions]. rewrite fmap_app.
      apply NoDup_app. split; [done|]. split; [|apply NoDup_singleton].
      intros x Hx ->%list_elem_of_singleton. done.
    + done.
  - split.
    + done.
    + cbn [with_submission Db.grants Db.submissions].
      eapply Forall_impl; [exact Hsub|]. intros r Hr Hst. cbn in *.
      rewrite fmap_app. apply elem_of_app. left. by apply Hr.
    + cbn [with_submission Db.submissions]. rewrite fmap_app.
      apply NoDup_app. split; [done|]. split; [|apply NoDup_singleton].
      intros x Hx ->%list_elem_of_singleton. done.
    + done.
  - split; try done. cbn [with_note Db.grant_notes]. rewrite fmap_app.
    apply NoDup_app. split; [done|]. split; [|apply NoDup_singleton].
    intros x Hx ->%list_elem_of_singleton. done.
Qed.

Lemma db_history_empty : db_history Db.empty.
Proof. split; cbn; constructor. Qed.

Lemma reachable_history w : reachable w → db_history (db w).
Proof.
  induction 1 as [w ->|w w' _ IH [c <-]]; [apply db_history_empty|].
  eapply db_change_history; [|exact IH]. apply perform_db_change.
Qed.

Lemma db_change_appends c d d' :
  db_change c d d' →
  Db.submissions d `prefix_of` Db.submissions d'
  ∧ Db.grant_notes d `prefix_of` Db.grant_notes d'.
Proof.
  destruct 1; cbn [updated with_grant with_submission with_note
                   Db.submissions Db.grant_notes];
    split; try done; by apply prefix_app_r.
Qed.

Lemma select_grant_with_grant gid row d r :
  Sql.select_grant gid d = Some r → Sql.select_grant gid (with_grant row d) = Some r.
Proof.
  unfold Sql.select_grant, with_grant. cbn [Db.grants]. rewrite filter_app.
  destruct (filter _ (Db.grants d)); [done|]. done.
Qed.

Lemma row_core_transition ns now notes r : row_core (transition_row ns now notes r) = row_core r.
Proof. unfold transition_row. by destruct (truthy notes). Qed.

Lemma select_grant_updated_core gid f d gid' r :
  (∀ r, row_core (f r) = row_core r) →
  Sql.select_grant gid' d = Some r →
  ∃ r', Sql.select_grant gid' (updated gid f d) = Some r' ∧ row_core r' = row_core r.
Proof.
  intros Hf Hsel. rewrite select_grant_updated, Hsel.
  - cbn. destruct (decide _); eauto.
  - intros r0. specialize (Hf r0). unfold row_core in Hf. congruence.
Qed.

Lemma db_change_core c d d' gid r :
  db_change c d d' → Sql.select_grant gid d = Some r →
  ∃ r', Sql.select_grant gid d' = Some r' ∧ row_core r' = row_core r.
Proof.
  destruct 1; intros Hsel.
  - eauto.
  - apply select_grant_updated_core; [|done]. intros. apply row_core_transition.
  - by apply select_grant_updated_core.
  - exists r. split; [|done]. by apply select_grant_with_grant.
  - apply select_grant_updated_core; [|done]. intros. apply row_core_transition.
  - eauto.
  - eauto.
Qed.

Lemma select_grant_updated_other gid f d gid' r :
  (∀ r, grants.id (f r) = grants.id r) → gid' ≠ gid →
  Sql.select_grant gid' d = Some r → Sql.select_grant gid' (updated gid f d) = Some r.
Proof.
  intros Hf Hne Hsel. rewrite select_grant_updated, Hsel by done. cbn.
  apply select_grant_Some in Hsel as [_ Hid]. rewrite decide_False; [done|congruence].
Qed.

(** A call writes no row but the one it names. *)
Lemma db_change_frame c d d' gid r :
  db_change c d d' → updates c ≠ Some gid →
  Sql.select_grant gid d = Some r → Sql.select_grant gid d' = Some r.
Proof.
  destruct 1 as [|g ? ? ? Hc|g ? ? ? Hc| |g ? ? ? ? ? ? ? Hc| |]; intros Hne Hsel.
  - done.
  - apply select_grant_updated_other; [apply transition_row_id|congruence|done].
  - apply select_grant_updated_other; [done|congruence|done].
  - by apply select_grant_with_grant.
  - apply select_grant_updated_other; [apply transition_row_id|congruence|done].
  - done.
  - done.
Qed.

Lemma rtc_step_core w w' gid r :
  rtc step w w' → Sql.select_grant gid (db w) = Some r →
  ∃ r', Sql.select_grant gid (db w') = Some r' ∧ row_core r' = row_core r.
Proof.
  intros Hrtc. revert r. induction Hrtc as [|w w1 w2 [c <-] _ IH]; intros r Hsel; [eauto|].
  destruct (db_change_core c _ _ gid r (perform_db_change c w) Hsel) as (r1 & Hsel1 & Hc1).
  destruct (IH r1 Hsel1) as (r2 & Hsel2 & Hc2). exists r2. split; [done|congruence].
Qed.

Lemma rtc_step_appends w w' :
  rtc step w w' →
  Db.submissions (db w) `prefix_of` Db.submissions (db w')
  ∧ Db.grant_notes (db w) `prefix_of` Db.grant_notes (db w').
Proof.
  induction 1 as [|w w1 w2 [c <-] _ [IH1 IH2]]; [done|].
  destruct (db_change_appends c _ _ (perform_db_change c w)) as [H1 H2].
  split; etrans; eauto.
Qed.

Lemma mapM_fmap_Return {A B} (f : A → M B) (g : A → B) l :
  (∀ a, a ∈ l → ∀ w, f a w = (Return (g a), w)) →
  ∀ w, mapM f l w = (Return (g <$> l), w).
Proof.
  induction l as [|a l IH]; intros Hf w; [done|].
  cbn [mapM]. rewrite bind_run, Hf by left. rewrite bind_run, IH; [done|].
  intros a' Ha'. apply Hf. by right.
Qed.

Lemma elem_of_select_submissions gid d r :
  r ∈ Sql.select_submissions gid d ↔ r ∈ Db.submissions d ∧ submissions.grant_id r = gid.
Proof.
  unfold Sql.select_submissions. rewrite merge_sort_Permutation, list_elem_of_filter. tauto.
Qed.

Lemma get_submissions_fmap gid w :
  Forall (λ s, is_Some (loads (submissions.documents s))) (Db.submissions (db w)) →
  utf8_encodable gid = true →
  get_submissions gid w = (Return (sub_of_row <$> Sql.select_submissions gid (db w)), w).
Proof.
  intros Hdocs Henc. unfold get_submissions. rewrite bind_run. unfold query_bound.
  rewrite bind_text, Henc.
  apply mapM_fmap_Return. intros r [Hr _]%elem_of_select_submissions w'.
  eapply Forall_forall in Hdocs as [docs Hd]; [|exact Hr].
  rewrite bind_run. unfold or_raise, sub_of_row. by rewrite Hd.
Qed.

Lemma get_notes_fmap gid w :
  utf8_encodable gid = true →
  get_notes gid w = (Return (note_of_row <$> Sql.select_notes gid (db w)), w).
Proof.
  intros Henc. unfold get_notes. rewrite bind_run. unfold query_bound.
  by rewrite bind_text, Henc.
Qed.

Lemma get_submissions_raises gid w :
  utf8_encodable gid = false → get_submissions gid w = (Raise UnicodeEncodeError, w).
Proof.
  intros Henc. unfold get_submissions. rewrite bind_run. unfold query_bound.
  by rewrite bind_text, Henc.
Qed.

Lemma get_notes_raises gid w :
  utf8_encodable gid = false → get_notes gid w = (Raise UnicodeEncodeError, w).
Proof.
  intros Henc. unfold get_notes. rewrite bind_run. unfold query_bound.
  by rewrite bind_text, Henc.
Qed.

Lemma select_submissions_sorted gid d :
  StronglySorted (λ a b, Sql.text_leb (submissions.submitted_at b) (submissions.submitted_at a))
    (Sql.select_submissions gid d).
Proof.
  apply (merge_sort_by_sorted (λ x y, Sql.text_leb y x) submissions.submitted_at).
  - intros a b. destruct (text_leb_total a b); auto.
  - intros a b c H1 H2. by eapply text_leb_trans.
Qed.

Lemma select_notes_sorted gid d :
  StronglySorted (λ a b, Sql.text_leb (grant_notes.created_at b) (grant_notes.created_at a))
    (Sql.select_notes gid d).
Proof.
  apply (merge_sort_by_sorted (λ x y, Sql.text_leb y x) grant_notes.created_at).
  - intros a b. destruct (text_leb_total a b); auto.
  - intros a b c H1 H2. by eapply text_leb_trans.
Qed.

Lemma StronglySorted_fmap_key {A B} (R : relation B) (f : A → B) l :
  StronglySorted (λ a b, R (f a) (f b)) l → StronglySorted R (f <$> l).
Proof.
  induction 1 as [|x l _ IH Hx]; [constructor|].
  rewrite fmap_cons. constructor; [done|]. by apply Forall_fmap.
Qed.

Lemma row_ascii_transition ns now notes r :
  row_ascii r → row_ascii (transition_row ns now notes r).
Proof. unfold row_ascii, transition_row. by destruct (truthy notes). Qed.

Lemma db_change_ascii c d d' :
  db_change c d d' →
  Forall row_ascii (Db.grants d)
  ∧ Forall (λ s, Forall printable (submissions.documents s)) (Db.submissions d) →
  Forall row_ascii (Db.grants d')
  ∧ Forall (λ s, Forall printable (submissions.documents s)) (Db.submissions d').
Proof.
  destruct 1; intros [Hg Hs].
  - done.
  - split; [|done]. apply Forall_updated; [|done]. intros. by apply row_ascii_transition.
  - split; [|done]. apply Forall_updated; [|done]. intros r (? & ? & ?).
    split; [done|]. split; [apply dumps_printable|done].
  - split; [|done]. unfold with_grant. cbn [Db.grants]. apply Forall_app. split; [done|].
    apply Forall_singleton. split_and!; apply dumps_printable.
  - split.
    + apply Forall_updated; [|done]. intros. by apply row_ascii_transition.
    + cbn [updated with_submission Db.submissions]. apply Forall_app. split; [done|].
      apply Forall_singleton. apply dumps_printable.
  - split; [done|].
    cbn [with_submission Db.submissions]. apply Forall_app. split; [done|].
    apply Forall_singleton. apply dumps_printable.
  - done.
Qed.

Lemma reachable_ascii w :
  reachable w →
  Forall row_ascii (Db.grants (db w))
  ∧ Forall (λ s, Forall printable (submissions.documents s)) (Db.submissions (db w)).
Proof.
  induction 1 as [w ->|w w' _ IH [c <-]]; [by split; constructor|].
  eapply db_change_ascii; [|exact IH]. apply perform_db_change.
Qed.

(* --------------------------------------------------------------------- *)
(** *** Further properties of the code *)
(* --------------------------------------------------------------------- *)

Lemma the_submitted_grant_exists :
  find_grant (db world_submitted) [117; 0] = Return (Some the_submitted_grant).
Proof. vm_compute. reflexivity. Qed.

Lemma world_awarded_reachable : reachable world_awarded.
Proof.
  apply (reachable_step world_with_grant); [apply world_with_grant_reachable|].
  by exists (Award [117; 0] (Some (PyInt 45000)) (Some [lit "2025-12-31"])).
Qed.

Lemma world_submitted_reachable : reachable world_submitted.
Proof.
  apply (reachable_step world_with_grant); [apply world_with_grant_reachable|].
  by eexists.
Qed.

Lemma world_reporting_reachable : reachable world_reporting.
Proof.
  apply (reachable_step world_awarded); [apply world_awarded_reachable|].
  by eexists.
Qed.

Lemma world_listing_reachable : reachable world_listing.
Proof.
  eapply reachable_step; [|by eexists].
  eapply reachable_step; [|by eexists].
  eapply reachable_step; [|by eexists].
  by apply reachable_init.
Qed.

Lemma world_decided_reachable : reachable world_decided.
Proof.
  eapply reachable_step; [|by eexists].
  eapply reachable_step; [|by eexists].
  eapply reachable_step; [|by eexists].
  eapply reachable_step; [|by eexists].
  by apply reachable_init.
Qed.

(** X1.  In every state reached through the methods [get_grant]
    changes nothing and finds what is stored: for a stored identifier
    it returns the opportunity carrying that identifier; for an
    identifier in no row of [grants] it returns [None] when the
    identifier can be encoded as UTF-8 and raises [UnicodeEncodeError]
    when it cannot. *)
Theorem get_grant_finds_stored w gid :
  reachable w →
  (gid ∈ grant_ids (db w)
   ∧ ∃ g, get_grant gid w = (Return (Some g), w) ∧ Grant.id g = gid)
  ∨ ((gid ∉ grant_ids (db w)) ∧ utf8_encodable gid = true
     ∧ get_grant gid w = (Return None, w))
  ∨ ((gid ∉ grant_ids (db w)) ∧ utf8_encodable gid = false
     ∧ get_grant gid w = (Raise UnicodeEncodeError, w)).
Proof.
  intros Hreach. pose proof (reachable_consistent w Hreach) as Hc.
  pose proof Hc as [Hread Hnd _ _ _ _]. rewrite get_grant_run.
  destruct (decide (gid ∈ grant_ids (db w))) as [Hin|Hno].
  - left. split; [done|].
    destruct (select_grant_is_Some _ _ Hin) as [r Hsel].
    pose proof (select_grant_Some _ _ _ Hsel) as [Hr Hid].
    eapply Forall_forall in Hread; [|exact Hr].
    apply read_row_readable in Hread as [g Hg]. exists g. split.
    + f_equal. apply find_grant_Some. split; [by eapply consistent_id_bound|]. eauto.
    + by rewrite (read_row_id r g Hg).
  - right. destruct (utf8_encodable gid) eqn:Henc.
    + left. split; [done|]. split; [done|]. by rewrite find_grant_None.
    + right. split; [done|]. split; [done|]. by rewrite find_grant_unencodable.
Qed.

Lemma get_grant_finds_stored_witness :
  ∃ g, get_grant [117; 0] world_with_grant = (Return (Some g), world_with_grant)
       ∧ Grant.id g = [117; 0].
Proof.
  destruct (get_grant_finds_stored world_with_grant [117; 0]
              world_with_grant_reachable) as [[_ Hg]|[[Hno _]|[Hno _]]].
  - exact Hg.
  - exfalso. apply Hno. apply (bool_decide_unpack _). vm_compute. exact I.
  - exfalso. apply Hno. apply (bool_decide_unpack _). vm_compute. exact I.
Defined.

(** X2.  In every state reached through the methods, when the funder
    of a non-empty filter can be encoded as UTF-8, [list_grants] returns,
    without changing anything, exactly the stored opportunities that
    meet the conditions given (an omitted argument and an empty [funder]
    put no condition), each once, ordered by deadline with the
    opportunities without deadline first; a funder that cannot be
    encoded makes the query raise [UnicodeEncodeError]. *)
Theorem list_grants_lists_matching w status grant_type funder :
  reachable w →
  (utf8_encodable (filter_text funder) = false →
     list_grants status grant_type funder w = (Raise UnicodeEncodeError, w))
  ∧ (utf8_encodable (filter_text funder) = true →
     ∃ gs, list_grants status grant_type funder w = (Return gs, w)
       ∧ (∀ g, g ∈ gs ↔
            find_grant (db w) (Grant.id g) = Return (Some g)
            ∧ (∀ s, status = Some s → Grant.status g = s)
            ∧ (∀ t, grant_type = Some t → Grant.type g = t)
            ∧ (∀ f, funder = Some f → f ≠ [] → Grant.funder g = f))
       ∧ NoDup (Grant.id <$> gs)
       ∧ StronglySorted
           (λ a b, Sql.deadline_leb (Grant.deadline a) (Grant.deadline b)) gs).
Proof.
  intros Hc%reachable_consistent. split; [apply list_grants_raises|].
  intros Henc. exact (list_grants_run status grant_type funder w Hc Henc).
Qed.

Lemma list_grants_lists_matching_witness :
  ∃ gs, list_grants (Some IDENTIFIED) None (Some []) world_listing
        = (Return gs, world_listing)
    ∧ Grant.title <$> gs = [lit "Lab"; lit "Arts"; lit "Seed"].
Proof.
  destruct (list_grants_lists_matching world_listing (Some IDENTIFIED) None (Some [])
              world_listing_reachable) as [_ Hreturns].
  destruct (Hreturns eq_refl) as (gs & Hrun & _).
  exists gs. split; [exact Hrun|].
  assert ((list_grants (Some IDENTIFIED) None (Some []) world_listing).1 = Return gs) as H
    by (by rewrite Hrun).
  vm_compute in H. injection H as <-. reflexivity.
Defined.

(** X3.  In every state reached through the methods, when the date
    arithmetic succeeds, [upcoming_deadlines] returns exactly the stored
    opportunities whose status is identified or applying and whose
    deadline is present and lies, as text, between today and the cutoff
    (both included); an opportunity without deadline is never returned.
    Each is returned once, ordered by deadline. *)
Theorem upcoming_deadlines_window today_iso iso_after days cutoff w :
  reachable w →
  iso_after 1%nat days = Some cutoff →
  ∃ run gs,
    upcoming_deadlines today_iso iso_after days = Some run
    ∧ run w = (Return gs, w)
    ∧ (∀ g, g ∈ gs ↔
         find_grant (db w) (Grant.id g) = Return (Some g)
         ∧ (Grant.status g = IDENTIFIED ∨ Grant.status g = APPLYING)
         ∧ ∃ dl, Grant.deadline g = Some dl
                 ∧ Sql.text_leb (today_iso 0%nat) dl = true
                 ∧ Sql.text_leb dl cutoff = true)
    ∧ NoDup (Grant.id <$> gs)
    ∧ StronglySorted (λ a b, Sql.deadline_leb (Grant.deadline a) (Grant.deadline b)) gs.
Proof.
  intros Hc%reachable_consistent Hcut.
  destruct (upcoming_run (today_iso 0%nat) cutoff w Hc) as (gs & Hrun & Hmem & Hnd & Hs).
  eexists _, gs. split; [|split; [exact Hrun|done]].
  unfold upcoming_deadlines. by rewrite Hcut.
Qed.

Lemma upcoming_deadlines_window_witness :
  ∃ run gs,
    upcoming_deadlines (λ _, lit "2026-11-03") (λ _ _, Some (lit "2026-12-03")) 30
      = Some run
    ∧ run world_listing = (Return gs, world_listing)
    ∧ Grant.title <$> gs = [lit "Arts"].
Proof.
  destruct (upcoming_deadlines_window (λ _, lit "2026-11-03")
              (λ _ _, Some (lit "2026-12-03")) 30 (lit "2026-12-03") world_listing
              world_listing_reachable eq_refl) as (run & gs & Hdef & Hrun & _).
  exists run, gs. split; [exact Hdef|]. split; [exact Hrun|].
  assert ((run world_listing).1 = Return gs) as H by (by rewrite Hrun).
  injection Hdef as <-. vm_compute in H. injection H as <-. reflexivity.
Defined.

(** X4.  In every state reached through the methods, when the date
    arithmetic succeeds, [reporting_calendar] returns exactly one kind
    of entry: a reporting date of a stored opportunity whose status is
    reporting, lying as text between today and the cutoff (today plus
    [months * 30] days), with the identifier, title, funder and award
    amount of that opportunity.  The entries are sorted by reporting
    date. *)
Theorem reporting_calendar_window today_iso iso_after months cutoff w :
  reachable w →
  iso_after 0%nat (months * 30)%Z = Some cutoff →
  ∃ run es,
    reporting_calendar today_iso iso_after months = Some run
    ∧ run w = (Return es, w)
    ∧ (∀ e, e ∈ es ↔
         ∃ g, find_grant (db w) (CalendarEntry.grant_id e) = Return (Some g)
              ∧ Grant.status g = REPORTING
              ∧ CalendarEntry.reporting_date e ∈ Grant.reporting_dates g
              ∧ Sql.text_leb (today_iso 0%nat) (CalendarEntry.reporting_date e) = true
              ∧ Sql.text_leb (CalendarEntry.reporting_date e) cutoff = true
              ∧ e = CalendarEntry.mk (Grant.id g) (Grant.title g) (Grant.funder g)
                      (CalendarEntry.reporting_date e) (Grant.award_amount g))
    ∧ StronglySorted (λ a b, Sql.text_leb (CalendarEntry.reporting_date a)
                               (CalendarEntry.reporting_date b)) es.
Proof.
  intros Hc%reachable_consistent Hcut.
  destruct (calendar_run (today_iso 0%nat) cutoff w Hc) as (es & Hrun & Hmem & Hs).
  eexists _, es. split; [|split; [exact Hrun|done]].
  unfold reporting_calendar. by rewrite Hcut.
Qed.

Lemma reporting_calendar_window_witness :
  ∃ run,
    reporting_calendar (λ _, lit "2025-11-01") (λ _ _, Some (lit "2026-01-30")) 3
      = Some run
    ∧ run world_reporting
      = (Return [CalendarEntry.mk [117; 0] (lit "Grant") (lit "Funder") (lit "2025-12-31")
                   (Some (PyFloat (Float64.of_int 45000)))],
         world_reporting).
Proof.
  destruct (reporting_calendar_window (λ _, lit "2025-11-01")
              (λ _ _, Some (lit "2026-01-30")) 3 (lit "2026-01-30") world_reporting
              world_reporting_reachable eq_refl) as (run & es & Hdef & Hrun & _).
  exists run. split; [exact Hdef|]. rewrite Hrun. f_equal.
  assert ((run world_reporting).1 = Return es) as H by (by rewrite Hrun).
  injection Hdef as <-. vm_compute in H. by injection H as <-.
Defined.

(** X5.  [get_pipeline] never raises and changes nothing.  Its
    [total_grants] is the number of rows of [grants]; [by_status] has an
    entry for a status exactly when some row has it, and the entry holds
    the number of those rows and the rounded sums of their requested
    amounts and of their award amounts, a missing award amount counting
    as zero. *)
Theorem pipeline_counts_by_status sum_real add_real round2 w :
  ∃ p, get_pipeline sum_real add_real round2 w = (Return p, w)
    ∧ Pipeline.total_grants p = length (Db.grants (db w))
    ∧ ∀ st,
        let rows := filter (λ r, grants.status r = st) (Db.grants (db w)) in
        match Pipeline.by_status p !! st with
        | Some e =>
          rows ≠ []
          ∧ PipelineEntry.count e = length rows
          ∧ PipelineEntry.total_requested e
            = round2 (or_zero (sum_real (grants.amount <$> rows)))
          ∧ PipelineEntry.total_awarded e
            = round2 (or_zero (sum_real
                ((λ r, default Float64.zero (grants.award_amount r)) <$> rows)))
        | None => rows = []
        end.
Proof.
  destruct (get_pipeline_run sum_real add_real round2 w) as (p & Hrun & Hby & Htot).
  exists p. split; [done|]. split; [done|]. intros st. cbv zeta.
  rewrite Hby, lookup_fmap, group_rows_lookup.
  by destruct (filter _ (Db.grants (db w))).
Qed.

(** X6.  In every state reached through the methods
    [total_funding_by_type] never raises and changes nothing.  Its
    result has an entry for a type exactly when some opportunity of that
    type has status awarded; the entry is the rounded sum of the award
    amounts of these opportunities that have one, and zero when none has
    or when the sum is NULL.  The keys are values of [GrantType]. *)
Theorem funding_by_type_sums_awarded sum_real round2 w :
  reachable w →
  ∃ m, total_funding_by_type sum_real round2 w = (Return m, w)
    ∧ ∀ ty,
        let rows := filter (λ r, grants.type r = ty)
                      (filter (λ r, grants.status r = lit "awarded")
                         (Db.grants (db w))) in
        match m !! ty with
        | Some v =>
          rows ≠ []
          ∧ (∃ t, ty = GrantType_value t)
          ∧ v = round2 (or_zero match omap grants.award_amount rows with
                                | [] => None
                                | amounts => sum_real amounts
                                end)
        | None => rows = []
        end.
Proof.
  intros Hreach.
  destruct (total_funding_by_type_run sum_real round2 w) as (m & Hrun & ->).
  eexists. split; [exact Hrun|]. intros ty. cbv zeta.
  rewrite lookup_fmap, group_rows_lookup.
  set (rows := filter (λ r, grants.type r = ty) _).
  assert (Forall (λ r, r ∈ Db.grants (db w) ∧ grants.type r = ty) rows) as Hrows.
  { apply Forall_forall. intros r [Hty [Hst Hin]%list_elem_of_filter]%list_elem_of_filter.
    done. }
  clearbody rows.
  destruct rows as [|r0 rows0]; [done|].
  split; [done|]. split; [|done].
  apply Forall_cons in Hrows as [[Hin Hty] _].
  destruct (reachable_consistent w Hreach) as [Hread _ _ _ _ _].
  eapply Forall_forall in Hread as ([t Ht] & _); [|exact Hin].
  exists t. rewrite <- Hty. by apply GrantType_of_value_Some.
Qed.

Lemma funding_by_type_sums_awarded_witness :
  ∃ m, total_funding_by_type (λ l, Some (foldr (SFadd 53 1024) Float64.zero l)) (λ x, x)
         world_awarded
       = (Return m, world_awarded)
    ∧ m !! lit "foundation" = Some (Float64.of_int 45000).
Proof.
  destruct (funding_by_type_sums_awarded
              (λ l, Some (foldr (SFadd 53 1024) Float64.zero l)) (λ x, x) world_awarded
              world_awarded_reachable) as (m & Hrun & _).
  exists m. split; [exact Hrun|].
  assert ((total_funding_by_type (λ l, Some (foldr (SFadd 53 1024) Float64.zero l))
             (λ x, x) world_awarded).1 = Return m)
    as H by (by rewrite Hrun).
  vm_compute in H. injection H as <-. reflexivity.
Defined.

(** X7.  The transition methods do not look at the current status: on
    an opportunity that exists, whatever its status, when the notes and
    the clock reading can be encoded as UTF-8, [apply], [reject],
    [start_reporting] and [close] return it with the new status and with
    [updated_at] set to the clock reading; non-empty notes replace the
    stored notes, empty notes leave them; every other field is
    unchanged, and [get_grant] then returns the same opportunity. *)
Theorem transitions_ignore_current_status w gid g notes assigned_to :
  find_grant (db w) gid = Return (Some g) →
  utf8_encodable (clock w 0%nat) = true →
  utf8_encodable notes = true →
  let after ns notes :=
    Grant.mk (Grant.id g) (Grant.title g) (Grant.funder g) (Grant.amount g)
      (Grant.type g) (Grant.purpose g) (Grant.deadline g) ns
      (Grant.requirements g) (Grant.reporting_dates g) (Grant.contacts g)
      (Grant.award_amount g) (if truthy notes then notes else Grant.notes g)
      (Grant.assigned_to g) (Grant.created_at g) (clock w 0%nat) in
  ((apply gid notes assigned_to w).1 = Return (Some (after APPLYING notes))
   ∧ find_grant (db (apply gid notes assigned_to w).2) gid
     = Return (Some (after APPLYING notes)))
  ∧ ((reject gid notes w).1 = Return (Some (after REJECTED notes))
     ∧ find_grant (db (reject gid notes w).2) gid = Return (Some (after REJECTED notes)))
  ∧ ((start_reporting gid w).1 = Return (Some (after REPORTING []))
     ∧ find_grant (db (start_reporting gid w).2) gid = Return (Some (after REPORTING [])))
  ∧ ((close gid w).1 = Return (Some (after CLOSED []))
     ∧ find_grant (db (close gid w).2) gid = Return (Some (after CLOSED []))).
Proof.
  intros Hg Hnow Hnotes. cbv zeta.
  assert (∀ ns notes,
            utf8_encodable notes = true →
            (_transition gid ns notes w).1
            = Return (Some (transitioned ns (clock w 0%nat) notes g))
            ∧ find_grant (db (_transition gid ns notes w).2) gid
              = Return (Some (transitioned ns (clock w 0%nat) notes g))) as Ht.
  { intros ns notes' Hn. rewrite (transition_existing gid ns notes' w g Hg).
    - split; [done|]. cbn [snd db tick]. by apply find_grant_transitioned.
    - unfold transition_params. cbn [bind_params bind_param]. by rewrite Hnow, Hn. }
  unfold apply, reject, start_reporting, close.
  split_and!; by apply Ht.
Qed.

Lemma transitions_ignore_current_status_witness :
  (apply [117; 0] (lit "again") [] world_awarded).1
  = Return (Some (Grant.mk [117; 0] (lit "Grant") (lit "Funder")
                    (PyFloat (Float64.of_int 50000)) FOUNDATION
                    [] None APPLYING [lit "IRS 501c3"] [lit "2025-12-31"] []
                    (Some (PyFloat (Float64.of_int 45000))) (lit "again") (lit "alice")
                    [116; 0] [116; 2])).
Proof.
  exact (proj1 (proj1 (transitions_ignore_current_status world_awarded [117; 0]
                         the_awarded_grant (lit "again") [] the_awarded_grant_exists
                         eq_refl eq_refl))).
Defined.

(** X8.  A call writes no opportunity but the one it names: after any
    call of a writing method, returning or raising, [get_grant] gives
    for every other stored identifier what it gave before ([identify]
    and [add_note] change no stored opportunity at all). *)
Theorem calls_leave_other_opportunities c w gid :
  gid ∈ grant_ids (db w) →
  updates c ≠ Some gid →
  find_grant (db (perform c w).2) gid = find_grant (db w) gid.
Proof.
  intros [r Hsel]%select_grant_is_Some Hne.
  pose proof (db_change_frame c _ _ gid r (perform_db_change c w) Hne Hsel) as Hsel'.
  by rewrite !find_grant_unfold, Hsel, Hsel'.
Qed.

Lemma calls_leave_other_opportunities_witness :
  find_grant (db (perform (Close [117; 1]) world_decided).2) [117; 0]
  = find_grant (db world_decided) [117; 0].
Proof.
  apply (calls_leave_other_opportunities (Close [117; 1]) world_decided [117; 0]).
  - apply (bool_decide_unpack _). vm_compute. exact I.
  - apply (bool_decide_unpack _). vm_compute. exact I.
Defined.

(** X9.  Submissions and notes are only ever appended: over any
    sequence of calls from a reachable state the rows of [submissions]
    and of [grant_notes] stay as they were, in place, and new ones come
    after them.  Their identifiers are unique, and every submission
    names a stored opportunity. *)
Theorem history_is_append_only w w' :
  reachable w →
  rtc step w w' →
  Db.submissions (db w) `prefix_of` Db.submissions (db w')
  ∧ Db.grant_notes (db w) `prefix_of` Db.grant_notes (db w')
  ∧ NoDup (submissions.id <$> Db.submissions (db w'))
  ∧ NoDup (grant_notes.id <$> Db.grant_notes (db w'))
  ∧ Forall (λ s, submissions.grant_id s ∈ grant_ids (db w')) (Db.submissions (db w')).
Proof.
  intros Hreach Hrtc.
  destruct (rtc_step_appends w w' Hrtc) as [Hs Hn].
  pose proof (rtc_step_reachable w w' Hreach Hrtc) as Hreach'.
  destruct (reachable_history w' Hreach') as [_ _ Hsid Hnid].
  destruct (reachable_consistent w' Hreach') as [_ _ _ _ Hown _].
  done.
Qed.

Lemma history_is_append_only_witness :
  Db.submissions (db world_with_grant) `prefix_of` Db.submissions (db world_submitted)
  ∧ Db.grant_notes (db world_with_grant) `prefix_of` Db.grant_notes (db world_submitted)
  ∧ NoDup (submissions.id <$> Db.submissions (db world_submitted))
  ∧ NoDup (grant_notes.id <$> Db.grant_notes (db world_submitted))
  ∧ Forall (λ s, submissions.grant_id s ∈ grant_ids (db world_submitted))
           (Db.submissions (db world_submitted)).
Proof.
  apply (history_is_append_only world_with_grant world_submitted).
  - apply world_with_grant_reachable.
  - apply rtc_once. by eexists.
Defined.

(** X10.  What [identify] stored about an opportunity is never changed
    by later calls: over any sequence of calls from a reachable state an
    opportunity that [get_grant] returned is still returned, with the
    same identifier, title, funder, requested amount, type, purpose,
    deadline, requirements, contacts, assignee and creation time. *)
Theorem identity_fields_never_change w w' gid g :
  reachable w →
  rtc step w w' →
  find_grant (db w) gid = Return (Some g) →
  ∃ g', find_grant (db w') gid = Return (Some g')
    ∧ Grant.id g' = Grant.id g
    ∧ Grant.title g' = Grant.title g
    ∧ Grant.funder g' = Grant.funder g
    ∧ Grant.amount g' = Grant.amount g
    ∧ Grant.type g' = Grant.type g
    ∧ Grant.purpose g' = Grant.purpose g
    ∧ Grant.deadline g' = Grant.deadline g
    ∧ Grant.requirements g' = Grant.requirements g
    ∧ Grant.contacts g' = Grant.contacts g
    ∧ Grant.assigned_to g' = Grant.assigned_to g
    ∧ Grant.created_at g' = Grant.created_at g.
Proof.
  intros Hreach Hrtc (Henc & r & Hsel & Hr)%find_grant_Some.
  destruct (rtc_step_core w w' gid r Hrtc Hsel) as (r' & Hsel' & Hcore).
  pose proof (rtc_step_reachable w w' Hreach Hrtc) as Hreach'.
  destruct (reachable_consistent w' Hreach') as [Hread _ _ _ _ _].
  pose proof (select_grant_Some _ _ _ Hsel') as [Hin _].
  eapply Forall_forall in Hread; [|exact Hin].
  apply read_row_readable in Hread as [g' Hg']. exists g'. split.
  { apply find_grant_Some. eauto. }
  apply read_row_Return in Hr as (ty & st & rq & rd & ct & Hty & Hst & Hrq & Hrd & Hct & ->).
  apply read_row_Return in Hg'
    as (ty' & st' & rq' & rd' & ct' & Hty' & Hst' & Hrq' & Hrd' & Hct' & ->).
  unfold row_core in Hcore. injection Hcore as -> -> -> -> Ety -> -> Erq Ect -> ->.
  rewrite Ety in Hty'. rewrite Erq in Hrq'. rewrite Ect in Hct'.
  cbn. split_and!; congruence.
Qed.

Lemma identity_fields_never_change_witness :
  ∃ g', find_grant (db world_awarded) [117; 0] = Return (Some g')
    ∧ Grant.title g' = lit "Grant"
    ∧ Grant.amount g' = PyFloat (Float64.of_int 50000)
    ∧ Grant.assigned_to g' = lit "alice".
Proof.
  destruct (identity_fields_never_change world_with_grant world_awarded [117; 0] the_grant)
    as (g' & Hg' & _ & Htitle & _ & Hamount & _ & _ & _ & _ & _ & Hassigned & _).
  - apply world_with_grant_reachable.
  - apply rtc_once.
    by exists (Award [117; 0] (Some (PyInt 45000)) (Some [lit "2025-12-31"])).
  - apply the_grant_exists.
  - exists g'. split; [exact Hg'|]. split; [exact Htitle|]. split; [exact Hamount|].
    exact Hassigned.
Defined.

(** X11.  No method returns an opportunity to identified: in every
    state reached through the methods a stored opportunity whose status
    is identified was never written after [identify]: it has no award
    amount, no reporting dates, empty notes, and [updated_at] equal to
    [created_at]. *)
Theorem identified_is_untouched w gid g :
  reachable w →
  find_grant (db w) gid = Return (Some g) →
  Grant.status g = IDENTIFIED →
  Grant.award_amount g = None ∧ Grant.reporting_dates g = []
  ∧ Grant.notes g = [] ∧ Grant.updated_at g = Grant.created_at g.
Proof.
  intros Hreach (_ & r & Hsel & Hr)%find_grant_Some.
  destruct (reachable_history w Hreach) as [Hlife _ _ _].
  pose proof (select_grant_Some _ _ _ Hsel) as [Hin _].
  eapply Forall_forall in Hlife; [|exact Hin].
  pose proof (read_row_status r g IDENTIFIED Hr) as Hi.
  apply read_row_Return in Hr as (ty & st & rq & rd & ct & Hty & Hst & Hrq & Hrd & Hct & ->).
  cbn in *. intros ->.
  destruct Hlife as (Haw & Hdates & Hnotes & Hup); [by apply Hi|].
  rewrite Haw. split_and!; try done.
  rewrite Hdates in Hrd. by injection Hrd as <-.
Qed.

Lemma identified_is_untouched_witness :
  Grant.award_amount the_grant = None ∧ Grant.reporting_dates the_grant = []
  ∧ Grant.notes the_grant = [] ∧ Grant.updated_at the_grant = Grant.created_at the_grant.
Proof.
  apply (identified_is_untouched world_with_grant [117; 0] the_grant
           world_with_grant_reachable the_grant_exists).
  reflexivity.
Defined.

(** X12.  In every state reached through the methods an opportunity
    whose status is submitted has a submission: [get_submissions]
    returns at least one for it ([submit] alone writes that status, after
    its INSERT). *)
Theorem submitted_has_a_submission w gid g :
  reachable w →
  find_grant (db w) gid = Return (Some g) →
  Grant.status g = SUBMITTED →
  ∃ s subs, get_submissions gid w = (Return (s :: subs), w)
            ∧ Submission.grant_id s = gid.
Proof.
  intros Hreach (Henc & r & Hsel & Hr)%find_grant_Some Hst.
  destruct (reachable_history w Hreach) as [_ Hsub _ _].
  destruct (reachable_consistent w Hreach) as [_ _ _ _ _ Hdocs].
  pose proof (select_grant_Some _ _ _ Hsel) as [Hin Hid].
  eapply Forall_forall in Hsub; [|exact Hin].
  apply (read_row_status r g SUBMITTED Hr) in Hst.
  apply Hsub in Hst. rewrite Hid in Hst.
  apply list_elem_of_fmap in Hst as (row & Hgid & Hrow).
  assert (row ∈ Sql.select_submissions gid (db w)) as Hrow'
    by by apply elem_of_select_submissions.
  rewrite (get_submissions_fmap gid w Hdocs Henc).
  destruct (Sql.select_submissions gid (db w)) as [|row0 rows] eqn:E.
  { by apply elem_of_nil in Hrow'. }
  exists (sub_of_row row0), (sub_of_row <$> rows). split; [done|].
  assert (row0 ∈ Sql.select_submissions gid (db w)) as H0 by (rewrite E; left).
  by apply elem_of_select_submissions in H0 as [_ ?].
Qed.

Lemma submitted_has_a_submission_witness :
  ∃ s subs, get_submissions [117; 0] world_submitted = (Return (s :: subs), world_submitted)
            ∧ Submission.grant_id s = [117; 0].
Proof.
  apply (submitted_has_a_submission world_submitted [117; 0] the_submitted_grant
           world_submitted_reachable the_submitted_grant_exists).
  reflexivity.
Defined.

(** X13.  In every state reached through the methods, for an
    identifier that can be encoded as UTF-8, [get_submissions] changes
    nothing and returns the submissions recorded for the identifier,
    each once, none of another opportunity, the latest [submitted_at]
    first; for an identifier of no stored opportunity the result is the
    empty list.  An identifier that cannot be encoded makes the query
    raise [UnicodeEncodeError]. *)
Theorem get_submissions_newest_first w gid :
  reachable w →
  (utf8_encodable gid = false →
     get_submissions gid w = (Raise UnicodeEncodeError, w))
  ∧ (utf8_encodable gid = true →
     ∃ subs, get_submissions gid w = (Return subs, w)
       ∧ Forall (λ s, Submission.grant_id s = gid) subs
       ∧ Submission.id <$> subs
         ≡ₚ submissions.id <$> filter (λ r, submissions.grant_id r = gid)
                                 (Db.submissions (db w))
       ∧ NoDup (Submission.id <$> subs)
       ∧ StronglySorted (λ a b, Sql.text_leb (Submission.submitted_at b)
                                  (Submission.submitted_at a)) subs
       ∧ ((gid ∉ grant_ids (db w)) → subs = [])).
Proof.
  intros Hreach. split; [apply get_submissions_raises|]. intros Henc.
  destruct (reachable_consistent w Hreach) as [_ _ _ _ Hown Hdocs].
  destruct (reachable_history w Hreach) as [_ _ Hsid _].
  exists (sub_of_row <$> Sql.select_submissions gid (db w)).
  assert (Submission.id <$> (sub_of_row <$> Sql.select_submissions gid (db w))
          ≡ₚ submissions.id <$> filter (λ r, submissions.grant_id r = gid)
                                  (Db.submissions (db w))) as Hids.
  { rewrite <- list_fmap_compose. unfold Sql.select_submissions.
    by rewrite merge_sort_Permutation. }
  split_and!.
  - by apply get_submissions_fmap.
  - apply Forall_fmap, Forall_forall. by intros r [_ ?]%elem_of_select_submissions.
  - exact Hids.
  - rewrite Hids. eapply sublist_NoDup; [exact Hsid|].
    apply fmap_sublist, sublist_filter.
  - apply StronglySorted_fmap_key, select_submissions_sorted.
  - intros Hno.
    destruct (Sql.select_submissions gid (db w)) as [|r rows] eqn:E; [done|].
    assert (r ∈ Sql.select_submissions gid (db w)) as Hr by (rewrite E; left).
    apply elem_of_select_submissions in Hr as [Hin Hgid].
    eapply Forall_forall in Hown; [|exact Hin]. cbn in Hown. by rewrite Hgid in Hown.
Qed.

Lemma get_submissions_newest_first_witness :
  ∃ subs, get_submissions [117; 0] world_submitted = (Return subs, world_submitted)
    ∧ Submission.id <$> subs = [[117; 1]].
Proof.
  destruct (get_submissions_newest_first world_submitted [117; 0] world_submitted_reachable)
    as [_ Hreturns].
  destruct (Hreturns eq_refl) as (subs & Hrun & _).
  exists subs. split; [exact Hrun|].
  assert ((get_submissions [117; 0] world_submitted).1 = Return subs) as H
    by (by rewrite Hrun).
  vm_compute in H. injection H as <-. reflexivity.
Defined.

(** X14.  Every [submit] whose INSERT goes through (its parameters
    bind and the identifier drawn is unused) adds one submission to the
    history of the opportunity, whatever its status and however many
    submissions it already has: afterwards [get_submissions] returns the
    earlier ones and the new one, and returns for every other
    identifier what it returned before. *)
Theorem submit_extends_history w gid g notes submitted_by documents :
  reachable w →
  find_grant (db w) gid = Return (Some g) →
  bind_params (submit_params notes submitted_by w) = None →
  uuid_source w 0%nat ∉ submissions.id <$> Db.submissions (db w) →
  ∃ before after w',
    get_submissions gid w = (Return before, w)
    ∧ (submit gid notes submitted_by documents w).2 = w'
    ∧ get_submissions gid w' = (Return after, w')
    ∧ after ≡ₚ Submission.mk (uuid_source w 0%nat) gid (clock w 0%nat) notes
                 submitted_by (decoded <$> default [] documents) (clock w 1%nat)
               :: before
    ∧ ∀ gid', gid' ≠ gid → (get_submissions gid' w').1 = (get_submissions gid' w).1.
Proof.
  intros Hreach Hg Hbind Hfresh. pose proof Hg as (Henc & _)%find_grant_Some.
  destruct (reachable_consistent w Hreach) as [_ _ _ _ _ Hdocs].
  set (w' := (submit gid notes submitted_by documents w).2).
  assert (reachable w') as Hreach'.
  { apply (reachable_step w); [done|].
    exists (Submit gid notes submitted_by documents). cbn [perform].
    by rewrite discard_result_world. }
  destruct (reachable_consistent w' Hreach') as [_ _ _ _ _ Hdocs'].
  assert (Db.submissions (db w')
          = Db.submissions (db w)
            ++ [submission_row gid notes submitted_by documents w]) as Hsubs.
  { unfold w'. destruct (utf8_encodable (clock w 2%nat)) eqn:Hnow.
    - by rewrite (submit_existing _ _ _ _ _ _ Hg Hfresh Hbind Hnow).
    - by rewrite (submit_update_raises _ _ _ _ _ _ Hg Hfresh Hbind Hnow). }
  eexists _, _, w'. split; [by apply get_submissions_fmap|]. split; [done|].
  split; [by apply get_submissions_fmap|]. split.
  - unfold Sql.select_submissions. rewrite Hsubs, filter_app, filter_cons_True by done.
    rewrite !merge_sort_Permutation. rewrite filter_nil, fmap_app.
    rewrite (Permutation_app_comm _ (sub_of_row <$> [_])). cbn [fmap list_fmap app].
    assert (sub_of_row (submission_row gid notes submitted_by documents w)
            = Submission.mk (uuid_source w 0%nat) gid (clock w 0%nat) notes
                submitted_by (decoded <$> default [] documents) (clock w 1%nat)) as ->.
    { unfold sub_of_row, submission_row. cbn. by rewrite loads_dumps. }
    done.
  - intros gid' Hne. destruct (utf8_encodable gid') eqn:Henc'.
    + rewrite !get_submissions_fmap by done. cbn [fst].
      unfold Sql.select_submissions. rewrite Hsubs, filter_app, filter_cons_False.
      * by rewrite filter_nil, app_nil_r.
      * cbn. congruence.
    + by rewrite !get_submissions_raises.
Qed.

Lemma submit_extends_history_witness :
  ∃ before after w',
    get_submissions [117; 0] world_submitted = (Return before, world_submitted)
    ∧ (submit [117; 0] (lit "revised") (lit "bob") None world_submitted).2 = w'
    ∧ get_submissions [117; 0] w' = (Return after, w')
    ∧ after ≡ₚ Submission.mk [117; 2] [117; 0] [116; 4] (lit "revised") (lit "bob") []
                 [116; 5] :: before.
Proof.
  destruct (submit_extends_history world_submitted [117; 0] the_submitted_grant
              (lit "revised") (lit "bob") None world_submitted_reachable
              the_submitted_grant_exists eq_refl)
    as (before & after & w' & H1 & H2 & H3 & H4 & _).
  - apply (bool_decide_unpack _). vm_compute. exact I.
  - exists before, after, w'. split; [exact H1|]. split; [exact H2|].
    split; [exact H3|]. exact H4.
Defined.

(** X15.  [get_notes] changes nothing: for an identifier that can be
    encoded as UTF-8 it returns the notes stored under the identifier,
    each once, the latest [created_at] first; an identifier that cannot
    be encoded makes the query raise [UnicodeEncodeError]. *)
Theorem get_notes_newest_first w gid :
  (utf8_encodable gid = false → get_notes gid w = (Raise UnicodeEncodeError, w))
  ∧ (utf8_encodable gid = true →
     ∃ ns, get_notes gid w = (Return ns, w)
       ∧ ns ≡ₚ (λ r, GrantNote.mk (grant_notes.id r) (grant_notes.grant_id r)
                       (grant_notes.content r) (grant_notes.author r)
                       (grant_notes.created_at r))
                <$> filter (λ r, grant_notes.grant_id r = gid) (Db.grant_notes (db w))
       ∧ StronglySorted (λ a b, Sql.text_leb (GrantNote.created_at b)
                                  (GrantNote.created_at a)) ns).
Proof.
  split; [apply get_notes_raises|]. intros Henc.
  exists (note_of_row <$> Sql.select_notes gid (db w)). split_and!.
  - by apply get_notes_fmap.
  - unfold Sql.select_notes. by rewrite merge_sort_Permutation.
  - apply StronglySorted_fmap_key, select_notes_sorted.
Qed.

(** X16.  A note that [add_note] stored is returned by [get_notes]:
    when the parameters of the INSERT bind (the identifier, content,
    author and generated texts can be encoded as UTF-8) and the
    identifier drawn for the note is unused, [add_note] returns the
    note, afterwards [get_notes] for its [grant_id] returns that note
    and the notes it returned before, and for every other identifier
    what it returned before.  The opportunities and the submissions are
    not touched. *)
Theorem add_note_then_get_notes w gid content author :
  bind_params (add_note_params gid content author w) = None →
  uuid_source w 0%nat ∉ grant_notes.id <$> Db.grant_notes (db w) →
  ∃ n w' before after,
    add_note gid content author w = (Return n, w')
    ∧ n = GrantNote.mk (uuid_source w 0%nat) gid content author (clock w 0%nat)
    ∧ get_notes gid w = (Return before, w)
    ∧ get_notes gid w' = (Return after, w')
    ∧ after ≡ₚ n :: before
    ∧ (∀ gid', gid' ≠ gid → (get_notes gid' w').1 = (get_notes gid' w).1)
    ∧ Db.grants (db w') = Db.grants (db w)
    ∧ Db.submissions (db w') = Db.submissions (db w).
Proof.
  intros Hbind Hfresh. rewrite (add_note_fresh gid content author w Hfresh Hbind).
  assert (utf8_encodable gid = true) as Henc.
  { unfold add_note_params in Hbind. cbn [bind_params bind_param] in Hbind.
    destruct (utf8_encodable (uuid_source w 0%nat)); [|done].
    by destruct (utf8_encodable gid). }
  eexists _, _, _, _. split; [reflexivity|]. split; [reflexivity|].
  split; [by apply get_notes_fmap|]. split; [by apply get_notes_fmap|]. split_and!.
  - cbn [db drawn]. unfold Sql.select_notes, with_note. cbn [Db.grant_notes].
    rewrite filter_app, filter_cons_True by done.
    rewrite !merge_sort_Permutation. rewrite filter_nil, fmap_app.
    by rewrite (Permutation_app_comm _ (note_of_row <$> [_])).
  - intros gid' Hne. destruct (utf8_encodable gid') eqn:Henc'.
    + rewrite !get_notes_fmap by done. cbn [fst db drawn].
      unfold Sql.select_notes, with_note. cbn [Db.grant_notes].
      rewrite filter_app, filter_cons_False.
      * by rewrite filter_nil, app_nil_r.
      * cbn. congruence.
    + by rewrite !get_notes_raises.
  - done.
  - done.
Qed.

Lemma add_note_then_get_notes_witness :
  ∃ w' after,
    (add_note [117; 0] (lit "call the funder") (lit "alice") world_with_grant).2 = w'
    ∧ get_notes [117; 0] w' = (Return after, w')
    ∧ GrantNote.content <$> after = [lit "call the funder"].
Proof.
  destruct (add_note_then_get_notes world_with_grant [117; 0] (lit "call the funder")
              (lit "alice") eq_refl)
    as (n & w' & before & after & Hadd & _ & _ & Hget & _).
  - apply (bool_decide_unpack _). vm_compute. exact I.
  - exists w', after.
    assert ((add_note [117; 0] (lit "call the funder") (lit "alice") world_with_grant).2
            = w') as Hw by (by rewrite Hadd).
    split; [exact Hw|]. split; [exact Hget|].
    assert ((get_notes [117; 0] w').1 = Return after) as H by (by rewrite Hget).
    rewrite <- Hw in H. vm_compute in H. injection H as <-. reflexivity.
Defined.

(** X17.  A duplicate identifier is an error of the store and stores
    nothing: when the parameters of the INSERT bind and the identifier
    drawn is already the primary key of a row, [identify] and [add_note]
    raise [IntegrityError] and leave the three tables as they were. *)
Theorem duplicate_identifier_raises w :
  (uuid_source w 0%nat ∈ grant_ids (db w) →
   ∀ title funder amount deadline grant_type purpose requirements contacts assigned_to,
   bind_params (identify_params title funder amount deadline purpose assigned_to w)
     = None →
   ∃ w', identify title funder amount deadline grant_type purpose requirements contacts
           assigned_to w = (Raise IntegrityError, w')
         ∧ db w' = db w)
  ∧ (uuid_source w 0%nat ∈ grant_notes.id <$> Db.grant_notes (db w) →
     ∀ gid content author,
     bind_params (add_note_params gid content author w) = None →
     ∃ w', add_note gid content author w = (Raise IntegrityError, w') ∧ db w' = db w).
Proof.
  split.
  - intros Hdup * Hbind. rewrite identify_duplicate by done. by eexists.
  - intros Hdup * Hbind. rewrite add_note_duplicate by done. by eexists.
Qed.

Lemma duplicate_identifier_raises_witness :
  ∃ w', identify (lit "Again") (lit "Funder") (PyInt 1) None FOUNDATION [] None None []
          world_colliding = (Raise IntegrityError, w')
        ∧ db w' = db world_colliding.
Proof.
  apply (proj1 (duplicate_identifier_raises world_colliding)).
  - apply (bool_decide_unpack _). vm_compute. exact I.
  - reflexivity.
Defined.

(** X18.  The list columns of the store hold printable ASCII only: in
    every state reached through the methods every character of the
    [requirements], [reporting_dates] and [contacts] columns of
    [grants] and of the [documents] column of [submissions] lies
    between the space and the tilde, whatever characters the lists
    given to the methods held ([json.dumps] escapes the others). *)
Theorem json_columns_are_ascii w :
  reachable w →
  Forall (λ r, Forall (λ c, 0x20 ≤ c ∧ c ≤ 0x7e) (grants.requirements r)
               ∧ Forall (λ c, 0x20 ≤ c ∧ c ≤ 0x7e) (grants.reporting_dates r)
               ∧ Forall (λ c, 0x20 ≤ c ∧ c ≤ 0x7e) (grants.contacts r))
         (Db.grants (db w))
  ∧ Forall (λ s, Forall (λ c, 0x20 ≤ c ∧ c ≤ 0x7e) (submissions.documents s))
           (Db.submissions (db w)).
Proof. exact (reachable_ascii w). Qed.

Lemma json_columns_are_ascii_witness :
  Forall (λ s, Forall (λ c, 0x20 ≤ c ∧ c ≤ 0x7e) (submissions.documents s))
         (Db.submissions (db world_submitted)).
Proof.
  exact (proj2 (json_columns_are_ascii world_submitted world_submitted_reachable)).
Defined.
